(** * Hydro-suite: composite CN / Rational-C aggregation and the
      multi-method time-of-concentration engine.

    A shallow embedding of
      - [Components/CN/composite_cn_calculator.py],
      - [Components/Rational_C/composite_C_calculator.py],
      - [Components/TC_Multi_Method_Single_Basin/.../tc_processing.py],
      - [TC_NRCS_Stand_Alone/tc_calculator_v6_final.py],
    followed by the properties of the specification that concern them.

    Numbers.  Python floats are modelled by the real numbers [R]: rounding,
    overflow, infinities and NaN are outside the model.  What the model does
    keep is where Python's arithmetic is partial: division by zero, the
    square root of a negative number and a fractional power of a negative
    number are errors, carried by the [result] type below.

    Strings.  Python strings are modelled by [string]; the characters are
    read as ASCII code points ([strip], [upper] and [lower] are Python's on
    ASCII text). *)

From Stdlib Require Import Reals Lra Lia.
From Stdlib Require Import Ascii String List Permutation Sorted.
From stdpp Require Import base decidable option list gmap strings.

Import ListNotations.
Local Open Scope R_scope.

(* ===================================================================== *)
(** ** Python values and exceptions *)
(* ===================================================================== *)

(** The exceptions the modelled code can raise. *)
Inductive exn : Type :=
  | ValueError (msg : string)
  | ZeroDivisionError
  | TypeError
  | StatisticsError.

Inductive result (A : Type) : Type :=
  | Ok (a : A)
  | Raise (e : exn).
Arguments Ok {A} a.
Arguments Raise {A} e.

(** The error monad: [x ← m; k] runs [m] and stops at the first exception. *)
#[global] Instance result_ret : MRet result := fun _ a => Ok a.
#[global] Instance result_bind : MBind result := fun _ _ k m =>
  match m with
  | Ok a => k a
  | Raise e => Raise e
  end.

Definition is_ok {A : Type} (m : result A) : Prop :=
  match m with Ok _ => True | Raise _ => False end.

(** Decidable comparisons on [R], so that the branches of the code read
    [if decide (x <= 0) then ...]. *)
#[global] Instance R_eq_dec : EqDecision R := Req_dec_T.
#[global] Instance Rle_decision : RelDecision Rle := Rle_dec.
#[global] Instance Rlt_decision : RelDecision Rlt := Rlt_dec.

(** [x / y] on floats. *)
Definition py_div (x y : R) : result R :=
  if decide (y = 0) then Raise ZeroDivisionError else Ok (x / y).

(** [x ** y] on floats, for the fractional exponents the formulas use.  A
    negative base gives a complex number in Python 3, which the [max] that
    follows every formula refuses with a [TypeError]; the model raises it at
    the power. *)
Definition py_pow (x y : R) : result R :=
  if decide (0 < x) then Ok (Rpower x y)
  else if decide (x = 0) then
    if decide (0 < y) then Ok 0
    else if decide (y = 0) then Ok 1
    else Raise ZeroDivisionError
  else Raise TypeError.

(** [math.sqrt]. *)
Definition math_sqrt (x : R) : result R :=
  if decide (x < 0) then Raise (ValueError "math domain error")
  else Ok (sqrt x).

(** [math.pow], again for fractional exponents. *)
Definition math_pow (x y : R) : result R :=
  if decide (0 < x) then Ok (Rpower x y)
  else if decide (x = 0) then
    if decide (0 < y) then Ok 0
    else if decide (y = 0) then Ok 1
    else Raise (ValueError "math domain error")
  else Raise (ValueError "math domain error").

(** [o or d] for an [Optional[float]] [o]: [None] and [0.0] are falsy. *)
Definition py_or (o : option R) (d : R) : R :=
  match o with
  | Some v => if decide (v = 0) then d else v
  | None => d
  end.

(** Rounding to the nearest integer, ties to the even one. *)
Definition round_half_even (y : R) : Z :=
  let f := Int_part y in
  let d := y - IZR f in
  if decide (d < 1 / 2) then f
  else if decide (1 / 2 < d) then (f + 1)%Z
  else if Z.even f then f else (f + 1)%Z.

(** [round(x, ndigits)] on a float, for [ndigits >= 0]. *)
Definition py_round (x : R) (ndigits : nat) : R :=
  IZR (round_half_even (x * 10 ^ ndigits)) / 10 ^ ndigits.

(* ===================================================================== *)
(** ** tc_processing.py: parameters and the four methods *)
(* ===================================================================== *)

Record TCParameters : Type := mkTCParameters {
  flow_length_ft : R;
  elevation_diff_ft : R;
  slope_ft_ft : R;
  upstream_elev_ft : R;
  downstream_elev_ft : R;
  curve_number : option R;
  runoff_coefficient : option R;
  roughness_coefficient : option R
}.

(** The dataclass defaults of the three optional fields. *)
Definition default_curve_number : option R := Some 70.
Definition default_runoff_coefficient : option R := Some 0.5.
Definition default_roughness_coefficient : option R := Some 0.3.

(** [x and not (lo <= x <= hi)] for an [Optional[float]] [x]: the range is
    only looked at when [x] is truthy. *)
Definition truthy_and_not_between (x : option R) (lo hi : R) : bool :=
  match x with
  | Some v => if decide (v = 0) then false
              else negb (bool_decide (lo <= v /\ v <= hi))
  | None => false
  end.

(** [TCParameters.__post_init__]: the checks, in the order of the source. *)
Definition post_init (self : TCParameters) : result unit :=
  if decide (flow_length_ft self <= 0) then
    Raise (ValueError "Flow length must be positive")
  else if decide (slope_ft_ft self <= 0) then
    Raise (ValueError "Slope must be positive")
  else if truthy_and_not_between (curve_number self) 30 98 then
    Raise (ValueError "Curve number must be between 30 and 98")
  else if truthy_and_not_between (runoff_coefficient self) 0.1 0.95 then
    Raise (ValueError "Runoff coefficient must be between 0.1 and 0.95")
  else Ok tt.

(** Construction of a [TCParameters]: the fields are stored as given and
    [__post_init__] runs on them. *)
Definition new_TCParameters (flow_length elevation_diff slope upstream downstream : R)
    (cn c n : option R) : result TCParameters :=
  let self := mkTCParameters flow_length elevation_diff slope upstream downstream cn c n in
  _ ← post_init self; Ok self.

Module KirpichMethod.
Definition calculate (parameters : TCParameters) : result R :=
  let L := flow_length_ft parameters in
  let S := Rmax (slope_ft_ft parameters) 0.001 in
  a ← py_pow L 0.77;
  b ← py_pow S 0.385;
  tc_minutes ← py_div (0.0078 * a) b;
  Ok (Rmax tc_minutes 5).
End KirpichMethod.

Module FAAMethod.
Definition calculate (parameters : TCParameters) : result R :=
  let L := flow_length_ft parameters in
  let S := Rmax (slope_ft_ft parameters) 0.001 in
  let C := py_or (runoff_coefficient parameters) 0.5 in
  let C := Rmax 0.1 (Rmin 0.95 C) in
  q ← py_div L 1000;
  a ← math_sqrt q;
  b ← math_sqrt S;
  tc_minutes ← py_div (1.8 * (1.1 - C) * a) b;
  Ok (Rmax tc_minutes 5).
End FAAMethod.

Module SCSLagTimeMethod.
Definition calculate (parameters : TCParameters) : result R :=
  let L := flow_length_ft parameters in
  let S_percent := slope_ft_ft parameters * 100 in
  let S_percent := Rmax S_percent 0.1 in
  let CN := py_or (curve_number parameters) 70 in
  let CN := Rmax 30 (Rmin 98 CN) in
  a ← py_pow L 0.8;
  q ← py_div 1000 CN;
  b ← py_pow (q - 9) 0.7;
  let numerator := a * b in
  r ← math_sqrt S_percent;
  let denominator := 1900 * r in
  tlag_hours ← py_div numerator denominator;
  let tc_minutes := 1.67 * tlag_hours * 60 in
  Ok (Rmax tc_minutes 5).
End SCSLagTimeMethod.

Module KerbyMethod.
Definition calculate (parameters : TCParameters) : result R :=
  let L := flow_length_ft parameters in
  let S := Rmax (slope_ft_ft parameters) 0.001 in
  let n := py_or (roughness_coefficient parameters) 0.3 in
  let n := Rmax 0.02 (Rmin 0.8 n) in
  r ← math_sqrt S;
  q ← py_div (n * L) r;
  a ← py_pow q 0.467;
  Ok (Rmax (1.44 * a) 5).
End KerbyMethod.

Module TCMethodFactory.
(** [str.lower] on the method names is defined with the other string
    functions below; the factory receives the lowered name. *)
Definition methods (lowered : string) : option (TCParameters -> result R) :=
  if decide (lowered = "kirpich") then Some KirpichMethod.calculate
  else if decide (lowered = "faa") then Some FAAMethod.calculate
  else if decide (lowered = "scs") then Some SCSLagTimeMethod.calculate
  else if decide (lowered = "kerby") then Some KerbyMethod.calculate
  else None.

Definition get_available_methods : list string :=
  ["kirpich"; "faa"; "scs"; "kerby"].
End TCMethodFactory.

(* ===================================================================== *)
(** ** Python's [statistics] module and [sorted] *)
(* ===================================================================== *)

Fixpoint Rsum (l : list R) : R :=
  match l with
  | [] => 0
  | x :: l' => x + Rsum l'
  end.

Fixpoint insert_sorted (x : R) (l : list R) : list R :=
  match l with
  | [] => [x]
  | y :: l' => if decide (x <= y) then x :: y :: l' else y :: insert_sorted x l'
  end.

Fixpoint sorted (l : list R) : list R :=
  match l with
  | [] => []
  | x :: l' => insert_sorted x (sorted l')
  end.

Module statistics.
Definition mean (data : list R) : result R :=
  if decide (length data < 1)%nat then Raise StatisticsError
  else Ok (Rsum data / INR (length data)).

(** Sum of the squared deviations from [c]. *)
Definition ss (data : list R) (c : R) : R :=
  Rsum (map (fun x => (x - c) * (x - c)) data).

Definition stdev (data : list R) : result R :=
  if decide (length data < 2)%nat then Raise StatisticsError
  else
    let n := length data in
    let xbar := Rsum data / INR n in
    Ok (sqrt (ss data xbar / (INR n - 1))).

Definition median (data : list R) : result R :=
  let data := sorted data in
  let n := length data in
  if decide (n = 0)%nat then Raise StatisticsError
  else if decide (n mod 2 = 1)%nat then Ok (nth (n / 2) data 0)
  else
    let i := (n / 2)%nat in
    Ok ((nth (i - 1) data 0 + nth i data 0) / 2).
End statistics.

(* ===================================================================== *)
(** ** tc_processing.py: results and comparative statistics *)
(* ===================================================================== *)

Record TCResults : Type := mkTCResults {
  subbasin_id : string;
  parameters : TCParameters;
  tc_kirpich_min : option R;
  tc_faa_min : option R;
  tc_scs_min : option R;
  tc_kerby_min : option R;
  tc_average_min : option R;
  tc_std_dev_min : option R;
  tc_recommended_min : option R
}.

(** [TCResults(subbasin_id=..., parameters=...)] with the four method fields
    as the engine fills them in afterwards; the three statistics fields keep
    their default [None]. *)
Definition new_TCResults (id : string) (p : TCParameters)
    (kirpich faa scs kerby : option R) : TCResults :=
  mkTCResults id p kirpich faa scs kerby None None None.

Definition set_statistics (self : TCResults) (avg sd rec : option R) : TCResults :=
  mkTCResults (subbasin_id self) (parameters self)
    (tc_kirpich_min self) (tc_faa_min self) (tc_scs_min self) (tc_kerby_min self)
    avg sd rec.

(** [method_map.get(method)]: the dictionary of the four fields; a name that
    is not a key, and a field that is [None], both give [None]. *)
Definition method_map_get (self : TCResults) (method : string) : option R :=
  if decide (method = "kirpich") then tc_kirpich_min self
  else if decide (method = "faa") then tc_faa_min self
  else if decide (method = "scs") then tc_scs_min self
  else if decide (method = "kerby") then tc_kerby_min self
  else None.

(** The loop that collects [valid_results], in the order of
    [selected_methods]. *)
Fixpoint valid_results (self : TCResults) (selected_methods : list string) : list R :=
  match selected_methods with
  | [] => []
  | method :: rest =>
      match method_map_get self method with
      | Some tc_value =>
          if decide (0 < tc_value) then tc_value :: valid_results self rest
          else valid_results self rest
      | None => valid_results self rest
      end
  end.

Definition calculate_statistics (self : TCResults) (selected_methods : list string)
    : result TCResults :=
  let valid := valid_results self selected_methods in
  if decide (2 <= length valid)%nat then
    avg ← statistics.mean valid;
    sd ← (if decide (1 < length valid)%nat then statistics.stdev valid else Ok 0);
    rec ← statistics.median valid;
    Ok (set_statistics self (Some avg) (Some sd) (Some rec))
  else
    match valid with
    | [v] => Ok (set_statistics self (Some v) (Some 0) (Some v))
    | _ => Ok self
    end.

(* ===================================================================== *)
(** ** tc_calculator_v6_final.py: the standalone SCS lag computation *)
(* ===================================================================== *)

Module TCCalculatorWorker.
(** The part of [calculate_basin_tc] that follows the retrieval of the
    hydraulic length (feet), the average slope (percent, which
    [calculate_basin_slope] has floored at 1.0) and the curve number: the
    value stored under ['tc_minutes'].  An exception is caught by the
    method, which then returns [None]; it is [Raise] here. *)
Definition calculate_basin_tc (hydraulic_length avg_slope curve_number : R)
    : result R :=
  q ← py_div 1000 curve_number;
  let S := q - 10 in
  if decide (0 < hydraulic_length /\ 0 < avg_slope) then
    a ← math_pow hydraulic_length 0.8;
    b ← math_pow (S + 1) 0.7;
    c ← math_pow avg_slope 0.5;
    lag_hours ← py_div (a * b) (1900 * c);
    let lag_minutes := lag_hours * 60 in
    py_div lag_minutes 0.6
  else Ok 0.
End TCCalculatorWorker.

(* ===================================================================== *)
(** ** Python string methods, on ASCII text *)
(* ===================================================================== *)

(** [str.isspace] on one ASCII character: TAB, LF, VT, FF, CR, the four
    separators 0x1C-0x1F and the space. *)
Definition is_space (c : ascii) : bool :=
  let n := nat_of_ascii c in
  ((9 <=? n)%nat && (n <=? 13)%nat) || ((28 <=? n)%nat && (n <=? 32)%nat).

Definition upper_char (c : ascii) : ascii :=
  let n := nat_of_ascii c in
  if ((97 <=? n)%nat && (n <=? 122)%nat) then ascii_of_nat (n - 32) else c.

Definition lower_char (c : ascii) : ascii :=
  let n := nat_of_ascii c in
  if ((65 <=? n)%nat && (n <=? 90)%nat) then ascii_of_nat (n + 32) else c.

Fixpoint str_map (f : ascii -> ascii) (s : string) : string :=
  match s with
  | EmptyString => EmptyString
  | String c s' => String (f c) (str_map f s')
  end.

Definition str_upper : string -> string := str_map upper_char.
Definition str_lower : string -> string := str_map lower_char.

Fixpoint str_lstrip (s : string) : string :=
  match s with
  | EmptyString => EmptyString
  | String c s' => if is_space c then str_lstrip s' else s
  end.

Fixpoint str_rstrip (s : string) : string :=
  match s with
  | EmptyString => EmptyString
  | String c s' =>
      match str_rstrip s' with
      | EmptyString => if is_space c then EmptyString else String c EmptyString
      | t => String c t
      end
  end.

Definition str_strip (s : string) : string := str_rstrip (str_lstrip s).

(** [c in s] for a one-character [c]. *)
Fixpoint str_contains (c : ascii) (s : string) : bool :=
  match s with
  | EmptyString => false
  | String x s' => if decide (x = c) then true else str_contains c s'
  end.

(** [s.split(c)] for a one-character separator: never the empty list. *)
Fixpoint str_split (c : ascii) (s : string) : list string :=
  match s with
  | EmptyString => [EmptyString]
  | String x s' =>
      if decide (x = c) then EmptyString :: str_split c s'
      else match str_split c s' with
           | h :: t => String x h :: t
           | [] => [String x EmptyString]
           end
  end.

(** [s in ['A', 'B', 'C', 'D']]. *)
Definition in_ABCD (s : string) : bool :=
  bool_decide (s ∈ ["A"; "B"; "C"; "D"]).

(* ===================================================================== *)
(** ** The QGIS message log *)
(* ===================================================================== *)

Inductive level : Type := Info | Warning | Critical.

Definition log_entry : Type := level * string.

(** A value together with the messages logged while computing it. *)
Definition logged (A : Type) : Type := A * list log_entry.

(* ===================================================================== *)
(** ** Intersection features and area conversion *)
(* ===================================================================== *)

(** One feature of the final intersection layer: the three attributes the
    calculators read (already passed through [str] where the code does so)
    and the area of its geometry, in square feet. *)
Record Feature (K : Type) : Type := mkFeature {
  zone_attr : K;
  landuse_attr : string;
  soil_attr : string;
  geometry_area : R
}.
Arguments mkFeature {K} _ _ _ _.
Arguments zone_attr {K} _.
Arguments landuse_attr {K} _.
Arguments soil_attr {K} _.
Arguments geometry_area {K} _.

Definition acres_from_sqft (area_sqft : R) : R := area_sqft / 43560.

(* ===================================================================== *)
(** ** composite_cn_calculator.py *)
(* ===================================================================== *)

Module CN.

Definition parse_soil_group (soil_group_raw : string) : logged string :=
  let soil_group := str_upper (str_strip soil_group_raw) in
  let '(soil_group, log) :=
    if str_contains "/" soil_group then
      match str_split "/" soil_group with
      | _ :: part1 :: _ =>
          let used := str_strip part1 in
          (used, [(Info, "Split HSG detected: '" +:+ soil_group_raw
                         +:+ "' -> using '" +:+ used +:+ "'")])
      | _ => (soil_group, [])
      end
    else (soil_group, []) in
  if in_ABCD soil_group then (str_lower soil_group, log)
  else ("d", log ++ [(Warning, "Warning: Invalid soil group '" +:+ soil_group_raw
                               +:+ "', using 'd' as default")]).

(** One row of the lookup table as [read_lookup] returns it. *)
Record LookupRow : Type := mkLookupRow {
  row_landuse : string;
  row_a : R;
  row_b : R;
  row_c : R;
  row_d : R
}.

(** The dictionary [cn_lookup], keyed by (land use, soil group). *)
Definition build_cn_lookup (df : list LookupRow) : gmap (string * string) R :=
  fold_left
    (fun cn_lookup row =>
       let landuse_key := str_lower (str_strip (row_landuse row)) in
       <[(landuse_key, "d") := row_d row]>
         (<[(landuse_key, "c") := row_c row]>
            (<[(landuse_key, "b") := row_b row]>
               (<[(landuse_key, "a") := row_a row]> cn_lookup))))
    df ∅.

Section Calculation.
Context {K : Type} `{Countable K}.

Record DetailedRecord : Type := mkDetailedRecord {
  d_subbasin_id : K;
  d_landuse_code : string;
  d_soil_group : string;
  d_soil_group_original : string;
  d_area_acres : R;
  d_cn_value : R;
  d_cn_area_product : R
}.

(** The value stored per subbasin in [subbasin_data]. *)
Record SubbasinData : Type := mkSubbasinData {
  total_area : R;
  cn_area_sum : R;
  details : list DetailedRecord
}.

(** The loop state: [subbasin_data] and [detailed_records]. *)
Definition State : Type := gmap K SubbasinData * list DetailedRecord.

Variable cn_lookup : gmap (string * string) R.

(** The CN value the loop finds for a feature, [None] when the key is
    not in [cn_lookup] (the [continue] branch). *)
Definition feature_cn (feature : Feature K) : option R :=
  let landuse_code := str_lower (str_strip (landuse_attr feature)) in
  let soil_group_raw := str_strip (soil_attr feature) in
  let soil_group := (parse_soil_group soil_group_raw).1 in
  cn_lookup !! (landuse_code, soil_group).

(** The body of [for feature in final_intersection.getFeatures()]. *)
Definition loop_body (st : State) (feature : Feature K) : State :=
  let subbasin_id := zone_attr feature in
  let landuse_code := str_lower (str_strip (landuse_attr feature)) in
  let soil_group_raw := str_strip (soil_attr feature) in
  let soil_group := (parse_soil_group soil_group_raw).1 in
  let area_sqft := geometry_area feature in
  let area_acres := acres_from_sqft area_sqft in
  match cn_lookup !! (landuse_code, soil_group) with
  | None => st
  | Some cn_value =>
      let entry :=
        match st.1 !! subbasin_id with
        | Some e => e
        | None => mkSubbasinData 0 0 []
        end in
      let detailed_record :=
        mkDetailedRecord subbasin_id landuse_code (str_upper soil_group)
          soil_group_raw area_acres cn_value (cn_value * area_acres) in
      (<[subbasin_id :=
           mkSubbasinData (total_area entry + area_acres)
             (cn_area_sum entry + cn_value * area_acres)
             (details entry ++ [detailed_record])]> st.1,
       st.2 ++ [detailed_record])
  end.

Definition run_loop (features : list (Feature K)) : State :=
  fold_left loop_body features (∅, []).

(** The two attributes added to the output feature of a subbasin:
    [CN_Comp] and [Area_acres]. *)
Definition output_attributes (subbasin_data : gmap K SubbasinData)
    (subbasin_id : K) : option R * option R :=
  match subbasin_data !! subbasin_id with
  | Some e =>
      if decide (0 < total_area e)
      then (Some (cn_area_sum e / total_area e), Some (total_area e))
      else (None, None)
  | None => (None, None)
  end.

(** [CN_Comp] of a subbasin after a whole run. *)
Definition cn_comp (features : list (Feature K)) (subbasin_id : K) : option R :=
  (output_attributes (run_loop features).1 subbasin_id).1.

(** The composite written in the header row of the detailed CSV, for a
    subbasin that has at least one detailed record:
    [round(cn_composite, 2)].  [None] is the [KeyError] of
    [subbasin_data[subbasin_id]]. *)
Definition csv_cn_composite (subbasin_data : gmap K SubbasinData)
    (subbasin_id : K) : option R :=
  e ← subbasin_data !! subbasin_id;
  let subbasin_total := total_area e in
  let cn_composite :=
    if decide (0 < subbasin_total)
    then cn_area_sum e / subbasin_total else 0 in
  Some (py_round cn_composite 2).
End Calculation.

Arguments DetailedRecord : clear implicits.
Arguments SubbasinData : clear implicits.
Arguments State K {_ _}.

End CN.

(* ===================================================================== *)
(** ** composite_C_calculator.py *)
(* ===================================================================== *)

Module RationalC.

(** The argument is the attribute as read from the feature: [None] stands
    for Python's [None], a NULL attribute or a NaN. *)
Definition parse_soil_group (soil_group_raw : option string)
    : logged (option string) :=
  match soil_group_raw with
  | None | Some EmptyString =>
      (None, [(Warning, "Unrecognized soil group (empty), will use default C=0.95")])
  | Some raw =>
      let soil_group := str_upper (str_strip raw) in
      let '(soil_group, log) :=
        if str_contains "/" soil_group then
          match str_split "/" soil_group with
          | _ :: part1 :: _ =>
              let used := str_strip part1 in
              (used, [(Info, "Split HSG detected: '" +:+ raw
                             +:+ "' -> using '" +:+ used +:+ "'")])
          | _ => (soil_group, [])
          end
        else (soil_group, []) in
      if in_ABCD soil_group then (Some (str_lower soil_group), log)
      else (None, log ++ [(Warning, "Unrecognized soil group '" +:+ raw
                                    +:+ "', will use default C=0.95")])
  end.

(** The slope category chosen with the radio buttons. *)
Inductive slope_category : Type := Slope_0_2 | Slope_2_6 | Slope_6_plus.

Definition slope_suffix (s : slope_category) : string :=
  match s with
  | Slope_0_2 => "_0-2%"
  | Slope_2_6 => "_2-6%"
  | Slope_6_plus => "_6%+"
  end.

Section Calculation.
Context {K : Type} `{Countable K}.

Record CatchmentData : Type := mkCatchmentData {
  total_area : R;
  c_area_sum : R
}.

Record DetailedRecord : Type := mkDetailedRecord {
  d_catchment_id : K;
  d_landuse : string;
  d_soil_group_raw : string;
  d_soil_group_used : string;
  d_area_acres : R;
  d_c_value : R;
  d_c_area_product : R
}.

Definition State : Type := gmap K CatchmentData * list DetailedRecord.

(** The lookup data frame, indexed by land use: the cell at (row label,
    column label); [.loc] on a pair that is not there is a [KeyError]. *)
Variable c_lookup_df : gmap (string * string) R.
Variable suffix : slope_category.

(** The C value the loop gives a feature, [None] in the [continue]
    branch. *)
Definition feature_c (feature : Feature K) : option R :=
  let landuse_code := str_lower (str_strip (landuse_attr feature)) in
  match (parse_soil_group (Some (soil_attr feature))).1 with
  | None => Some 0.95
  | Some soil_group =>
      c_lookup_df !! (landuse_code, soil_group +:+ slope_suffix suffix)
  end.

Definition loop_body (st : State) (feature : Feature K) : State :=
  let catchment_id := zone_attr feature in
  let landuse_code := str_lower (str_strip (landuse_attr feature)) in
  let soil_group_raw := soil_attr feature in
  let soil_group := (parse_soil_group (Some soil_group_raw)).1 in
  let area_acres := acres_from_sqft (geometry_area feature) in
  let found :=
    match soil_group with
    | None => Some 0.95
    | Some g =>
        let column_to_lookup := g +:+ slope_suffix suffix in
        c_lookup_df !! (landuse_code, column_to_lookup)
    end in
  match found with
  | None => st
  | Some c_value =>
      let entry :=
        match st.1 !! catchment_id with
        | Some e => e
        | None => mkCatchmentData 0 0
        end in
      (<[catchment_id :=
           mkCatchmentData (total_area entry + area_acres)
             (c_area_sum entry + c_value * area_acres)]> st.1,
       st.2 ++ [mkDetailedRecord catchment_id landuse_code
                  (str_strip soil_group_raw)
                  (match soil_group with
                   | Some g => str_upper g
                   | None => "N/A"
                   end)
                  area_acres c_value (c_value * area_acres)])
  end.

Definition run_loop (features : list (Feature K)) : State :=
  fold_left loop_body features (∅, []).

(** [C_Comp] and [Area_acres] of the output feature of a catchment. *)
Definition output_attributes (catchment_data : gmap K CatchmentData)
    (catchment_id : K) : option R * option R :=
  match catchment_data !! catchment_id with
  | Some data =>
      if decide (0 < total_area data)
      then (Some (c_area_sum data / total_area data), Some (total_area data))
      else (None, None)
  | None => (None, None)
  end.

Definition c_comp (features : list (Feature K)) (catchment_id : K) : option R :=
  (output_attributes (run_loop features).1 catchment_id).1.
End Calculation.

Arguments CatchmentData : clear implicits.
Arguments DetailedRecord : clear implicits.
Arguments State K {_ _}.

End RationalC.

(* ===================================================================== *)
(** ** Definitions used to state the properties *)
(* ===================================================================== *)

(** *** Time of concentration *)

(** Copies of a parameter record with one field replaced. *)
Definition with_slope (p : TCParameters) (s : R) : TCParameters :=
  mkTCParameters (flow_length_ft p) (elevation_diff_ft p) s
    (upstream_elev_ft p) (downstream_elev_ft p)
    (curve_number p) (runoff_coefficient p) (roughness_coefficient p).

Definition with_curve_number (p : TCParameters) (cn : option R) : TCParameters :=
  mkTCParameters (flow_length_ft p) (elevation_diff_ft p) (slope_ft_ft p)
    (upstream_elev_ft p) (downstream_elev_ft p)
    cn (runoff_coefficient p) (roughness_coefficient p).

Definition with_runoff_coefficient (p : TCParameters) (c : option R) : TCParameters :=
  mkTCParameters (flow_length_ft p) (elevation_diff_ft p) (slope_ft_ft p)
    (upstream_elev_ft p) (downstream_elev_ft p)
    (curve_number p) c (roughness_coefficient p).

Definition with_roughness_coefficient (p : TCParameters) (n : option R) : TCParameters :=
  mkTCParameters (flow_length_ft p) (elevation_diff_ft p) (slope_ft_ft p)
    (upstream_elev_ft p) (downstream_elev_ft p)
    (curve_number p) (runoff_coefficient p) n.

(** An optional parameter that is [None] or [0.0]. *)
Definition falsy (o : option R) : Prop := o = None \/ o = Some 0.

Definition raises_ValueError {A : Type} (m : result A) : Prop :=
  exists msg, m = Raise (ValueError msg).

(** The inputs [__post_init__] refuses. *)
Definition rejected (L S : R) (cn c : option R) : Prop :=
  L <= 0 \/ S <= 0
  \/ (exists v, cn = Some v /\ v <> 0 /\ ~ (30 <= v /\ v <= 98))
  \/ (exists v, c = Some v /\ v <> 0 /\ ~ (0.1 <= v /\ v <= 0.95)).

(** The inputs the specification says are refused: any supplied optional
    parameter outside its documented range. *)
Definition documented_invalid (L S : R) (cn c n : option R) : Prop :=
  L <= 0 \/ S <= 0
  \/ (exists v, cn = Some v /\ ~ (30 <= v /\ v <= 98))
  \/ (exists v, c = Some v /\ ~ (0.1 <= v /\ v <= 0.95))
  \/ (exists v, n = Some v /\ ~ (0.02 <= v /\ v <= 0.8)).

(** The SCS lag equation, with the retention parameter of the curve number
    and the slope in percent. *)
Definition retention (CN : R) : R := 1000 / CN - 10.

Definition scs_lag_hours (L Rt S_pct : R) : R :=
  Rpower L 0.8 * Rpower (Rt + 1) 0.7 / (1900 * sqrt S_pct).

Definition effective_cn (cn : option R) : R := Rmax 30 (Rmin 98 (py_or cn 70)).

(** The formula as the specification words it: retention [1000/CN - 9], then
    [(R + 1)^0.7], the slope in percent as it is, and no floor. *)
Definition claimed_retention (CN : R) : R := 1000 / CN - 9.

Definition scs_tc_as_claimed (L S CN : R) : R :=
  1.67 * scs_lag_hours L (claimed_retention (Rmax 30 (Rmin 98 CN))) (S * 100) * 60.

(** *** Statistics *)

Definition arithmetic_mean (vs : list R) : R := Rsum vs / INR (length vs).

Definition sample_std_dev (vs : list R) : R :=
  sqrt (Rsum (map (fun x => (x - arithmetic_mean vs) * (x - arithmetic_mean vs)) vs)
        / (INR (length vs) - 1)).

(** The median of a list that is already in order. *)
Definition middle_value (srt : list R) : R :=
  let n := length srt in
  if Nat.odd n then nth (n / 2) srt 0
  else (nth (n / 2 - 1) srt 0 + nth (n / 2) srt 0) / 2.

(** *** Soil groups *)

(** Split resolution on an upper-cased, trimmed string: the component after
    the first ['/'], trimmed. *)
Definition split_resolution (s : string) : string :=
  if str_contains "/" s then
    match str_split "/" s with
    | _ :: part1 :: _ => str_strip part1
    | _ => s
    end
  else s.

Definition resolved (raw : string) : string :=
  split_resolution (str_upper (str_strip raw)).

(** A raw soil group is recognized when it resolves to A, B, C or D. *)
Definition recognized (raw : string) : bool := in_ABCD (resolved raw).

Definition starts_nonspace (s : string) : Prop :=
  match s with
  | EmptyString => True
  | String c _ => is_space c = false
  end.

(** The ASCII characters Python's [str.strip] removes: TAB, LF, VT, FF, CR,
    the separators FS, GS, RS, US, and the space. *)
Definition ascii_whitespace : list ascii :=
  ["009"; "010"; "011"; "012"; "013"; "028"; "029"; "030"; "031"; " "]%char.

(** A string made of such characters only. *)
Fixpoint all_whitespace (w : string) : Prop :=
  match w with
  | EmptyString => True
  | String c w' => c ∈ ascii_whitespace /\ all_whitespace w'
  end.

(** *** Area-weighted means *)

Section WeightedMean.
Context {K : Type} `{EqDecision K}.
Variable value_of : Feature K -> option R.

(** What a feature contributes to zone [z]: its area in acres and the
    product of its value and that area; nothing when it lies in another
    zone or was given no value. *)
Definition contribution (z : K) (f : Feature K) : option (R * R) :=
  if decide (zone_attr f = z) then
    v ← value_of f;
    Some (acres_from_sqft (geometry_area f),
          v * acres_from_sqft (geometry_area f))
  else None.

Definition contributions (z : K) (fs : list (Feature K)) : list (R * R) :=
  omap (contribution z) fs.

Definition sum_area (z : K) (fs : list (Feature K)) : R :=
  Rsum (map fst (contributions z fs)).

Definition sum_value_area (z : K) (fs : list (Feature K)) : R :=
  Rsum (map snd (contributions z fs)).

(** [sum(value_i * area_i) / sum(area_i)], undefined without area. *)
Definition weighted_mean (z : K) (fs : list (Feature K)) : option R :=
  if decide (0 < sum_area z fs)
  then Some (sum_value_area z fs / sum_area z fs) else None.
End WeightedMean.

(** The value of a feature when only a key found in the lookup table counts,
    as the specification words it for both calculators. *)
Definition lookup_matched_c {K : Type} (c_lookup_df : gmap (string * string) R)
    (suffix : RationalC.slope_category) (feature : Feature K) : option R :=
  g ← (RationalC.parse_soil_group (Some (soil_attr feature))).1;
  c_lookup_df !! (str_lower (str_strip (landuse_attr feature)),
                  g +:+ RationalC.slope_suffix suffix).

(** The accumulated area and weighted sum of a zone, [0] for a zone that has
    no entry. *)
Section Totals.
Context {K : Type} `{Countable K}.

Definition cn_zone_total (data : gmap K (CN.SubbasinData K)) (z : K) : R :=
  match data !! z with Some e => CN.total_area e | None => 0 end.
Definition cn_zone_sum (data : gmap K (CN.SubbasinData K)) (z : K) : R :=
  match data !! z with Some e => CN.cn_area_sum e | None => 0 end.

Definition c_zone_total (data : gmap K RationalC.CatchmentData) (z : K) : R :=
  match data !! z with Some e => RationalC.total_area e | None => 0 end.
Definition c_zone_sum (data : gmap K RationalC.CatchmentData) (z : K) : R :=
  match data !! z with Some e => RationalC.c_area_sum e | None => 0 end.
End Totals.

(** *** Example inputs *)

Definition example_parameters : TCParameters :=
  mkTCParameters 500 10 0.02 110 100 (Some 70) (Some 0.5) (Some 0.3).
Definition zero_slope_parameters : TCParameters :=
  mkTCParameters 500 0 0 100 100 (Some 70) (Some 0.5) (Some 0.3).
Definition zero_cn_parameters : TCParameters :=
  mkTCParameters 500 10 0.02 110 100 (Some 0) (Some 0) None.
Definition scs_example : TCParameters :=
  mkTCParameters 10000 100 0.01 200 100 (Some 50) (Some 0.5) (Some 0.3).
Definition scs_short_example : TCParameters :=
  mkTCParameters 1 0.01 0.01 100.01 100 (Some 50) (Some 0.5) (Some 0.3).
Definition scs_flat_example : TCParameters :=
  mkTCParameters 10000 1 0.0001 101 100 (Some 50) (Some 0.5) (Some 0.3).
Definition standalone_example : TCParameters :=
  mkTCParameters 1000 20 0.02 120 100 (Some 70) (Some 0.5) (Some 0.3).

Definition three_results : TCResults :=
  new_TCResults "B1" example_parameters (Some 10) (Some 20) (Some 30) None.
Definition one_result : TCResults :=
  new_TCResults "B1" example_parameters (Some 15) None None None.

(** The lookup table and the fragments of the end-to-end scenarios. *)
Definition example_lookup : gmap (string * string) R :=
  CN.build_cn_lookup [CN.mkLookupRow "res" 80 85 90 95].
Definition fragment_a : Feature string := mkFeature "A" "res" "A" 10.
Definition fragment_b : Feature string := mkFeature "A" "res" "B" 10.
Definition fragment_x : Feature string := mkFeature "A" "res" "X" 10.
Definition fragment_forest_x : Feature string := mkFeature "A" "forest" "X" 10.
Definition fragment_water : Feature string := mkFeature "A" "res" "Water" 43560.

(* ===================================================================== *)
(** ** tc_processing.py: the factory, the engine and the estimators *)
(* ===================================================================== *)

(** [TCMethodFactory.create_method]: the [calculate] of the method registered
    under the lower-cased name; the instance is that function together with
    the parameters it is later applied to. *)
Definition create_method (method_name : string)
    : result (TCParameters -> result R) :=
  match TCMethodFactory.methods (str_lower method_name) with
  | Some method => Ok method
  | None => Raise (ValueError ("Unknown TC method: " +:+ method_name))
  end.

Module TimeOfConcentrationCalculator.

Definition METERS_TO_FEET : R := 3.28084.

(** The [if]/[elif] chain that stores a method's value in its field. *)
Definition store_result (results : TCResults) (lowered : string) (v : R)
    : TCResults :=
  if decide (lowered = "kirpich") then
    mkTCResults (subbasin_id results) (parameters results)
      (Some v) (tc_faa_min results) (tc_scs_min results) (tc_kerby_min results)
      (tc_average_min results) (tc_std_dev_min results) (tc_recommended_min results)
  else if decide (lowered = "faa") then
    mkTCResults (subbasin_id results) (parameters results)
      (tc_kirpich_min results) (Some v) (tc_scs_min results) (tc_kerby_min results)
      (tc_average_min results) (tc_std_dev_min results) (tc_recommended_min results)
  else if decide (lowered = "scs") then
    mkTCResults (subbasin_id results) (parameters results)
      (tc_kirpich_min results) (tc_faa_min results) (Some v) (tc_kerby_min results)
      (tc_average_min results) (tc_std_dev_min results) (tc_recommended_min results)
  else if decide (lowered = "kerby") then
    mkTCResults (subbasin_id results) (parameters results)
      (tc_kirpich_min results) (tc_faa_min results) (tc_scs_min results) (Some v)
      (tc_average_min results) (tc_std_dev_min results) (tc_recommended_min results)
  else results.

(** One turn of [for method_name in selected_methods]: any exception of the
    factory or of the method is caught and the loop continues. *)
Definition method_step (parameters : TCParameters) (results : TCResults)
    (method_name : string) : TCResults :=
  match create_method method_name with
  | Ok calculate =>
      match calculate parameters with
      | Ok tc_value =>
          store_result results (str_lower method_name) (py_round tc_value 2)
      | Raise _ => results
      end
  | Raise _ => results
  end.

(** [_calculate_tc_for_feature_multi_method], from the point where the flow
    path and the two sampled elevations (metres, [None] when the DEM gave no
    value) are known.  [Ok None] is the method returning [None]. *)
Definition _calculate_tc_for_feature_multi_method
    (flow_path_length : R) (upstream_elev downstream_elev : option R)
    (subbasin_id : string) (selected_methods : list string)
    (curve_number runoff_coefficient roughness_coefficient : R)
    : result (option TCResults) :=
  match upstream_elev, downstream_elev with
  | Some upstream_elev, Some downstream_elev =>
      let '(upstream_elev, downstream_elev) :=
        if decide (upstream_elev < downstream_elev)
        then (downstream_elev, upstream_elev)
        else (upstream_elev, downstream_elev) in
      let flow_length_ft := flow_path_length * METERS_TO_FEET in
      let upstream_elev_ft := upstream_elev * METERS_TO_FEET in
      let downstream_elev_ft := downstream_elev * METERS_TO_FEET in
      let elevation_diff_ft := upstream_elev_ft - downstream_elev_ft in
      let flow_length_ft := Rmax flow_length_ft 1 in
      let elevation_diff_ft := Rmax elevation_diff_ft 0.1 in
      slope_ft_ft ← py_div elevation_diff_ft flow_length_ft;
      match new_TCParameters flow_length_ft elevation_diff_ft slope_ft_ft
              upstream_elev_ft downstream_elev_ft
              (Some curve_number) (Some runoff_coefficient)
              (Some roughness_coefficient) with
      | Raise (ValueError _) => Ok None
      | Raise e => Raise e
      | Ok parameters =>
          let results := new_TCResults subbasin_id parameters None None None None in
          let results := fold_left (method_step parameters) selected_methods results in
          results ← calculate_statistics results selected_methods;
          Ok (Some results)
      end
  | _, _ => Ok None
  end.

End TimeOfConcentrationCalculator.

(** [d.get(key, default)] on a dictionary. *)
Definition dict_get (d : gmap string R) (key : string) (default : R) : R :=
  match d !! key with
  | Some v => v
  | None => default
  end.

Definition cn_map : gmap string R :=
  list_to_map
    [("urban_residential", 75); ("urban_commercial", 85); ("urban_industrial", 90);
     ("agricultural", 65); ("forest", 55); ("grassland", 60); ("mixed", 70);
     ("default", 70)].

Definition estimate_curve_number_from_land_use (land_use_type : string) : R :=
  dict_get cn_map (str_lower land_use_type) 70.

Definition c_map : gmap string R :=
  list_to_map
    [("concrete", 0.85); ("asphalt", 0.90); ("urban_dense", 0.80);
     ("urban_residential", 0.60); ("commercial", 0.75); ("industrial", 0.80);
     ("agricultural", 0.30); ("forest", 0.20); ("grassland", 0.25);
     ("mixed", 0.50); ("default", 0.50)].

Definition estimate_runoff_coefficient_from_land_use (land_use_type : string) : R :=
  dict_get c_map (str_lower land_use_type) 0.50.

Definition n_map : gmap string R :=
  list_to_map
    [("concrete", 0.02); ("asphalt", 0.02); ("gravel", 0.05);
     ("short_grass", 0.15); ("dense_grass", 0.24); ("light_brush", 0.40);
     ("dense_brush", 0.60); ("forest", 0.80); ("mixed", 0.30);
     ("default", 0.30)].

Definition estimate_roughness_coefficient_from_land_cover
    (land_cover_type : string) : R :=
  dict_get n_map (str_lower land_cover_type) 0.30.

(* ===================================================================== *)
(** ** Further definitions used to state properties *)
(* ===================================================================== *)

(** The value a lookup row gives a soil group. *)
Definition row_value (row : CN.LookupRow) (g : string) : R :=
  if decide (g = "a") then CN.row_a row
  else if decide (g = "b") then CN.row_b row
  else if decide (g = "c") then CN.row_c row
  else CN.row_d row.

(** The key under which a lookup row is stored. *)
Definition row_key (row : CN.LookupRow) : string :=
  str_lower (str_strip (CN.row_landuse row)).

(** A feature with its area multiplied by [k] (a change of area unit). *)
Definition scale_area {K : Type} (k : R) (f : Feature K) : Feature K :=
  mkFeature (zone_attr f) (landuse_attr f) (soil_attr f) (k * geometry_area f).

(** The effective parameters of the formulas. *)
Definition effective_c (c : option R) : R := Rmax 0.1 (Rmin 0.95 (py_or c 0.5)).
Definition effective_n (n : option R) : R := Rmax 0.02 (Rmin 0.8 (py_or n 0.3)).

(** The record the CN loop appends for a fragment, [None] for a fragment it
    skips. *)
Definition cn_detail_record {K : Type} (cn_lookup : gmap (string * string) R)
    (feature : Feature K) : option (CN.DetailedRecord K) :=
  let soil_group_raw := str_strip (soil_attr feature) in
  let area_acres := acres_from_sqft (geometry_area feature) in
  cn_value ← CN.feature_cn cn_lookup feature;
  Some (CN.mkDetailedRecord (zone_attr feature)
          (str_lower (str_strip (landuse_attr feature)))
          (str_upper (CN.parse_soil_group soil_group_raw).1)
          soil_group_raw area_acres cn_value (cn_value * area_acres)).

(** The same for the Rational-C loop. *)
Definition c_detail_record {K : Type} (c_lookup_df : gmap (string * string) R)
    (suffix : RationalC.slope_category) (feature : Feature K)
    : option (RationalC.DetailedRecord K) :=
  let area_acres := acres_from_sqft (geometry_area feature) in
  c_value ← RationalC.feature_c c_lookup_df suffix feature;
  Some (RationalC.mkDetailedRecord (zone_attr feature)
          (str_lower (str_strip (landuse_attr feature)))
          (str_strip (soil_attr feature))
          (match (RationalC.parse_soil_group (Some (soil_attr feature))).1 with
           | Some g => str_upper g
           | None => "N/A"
           end)
          area_acres c_value (c_value * area_acres)).

(** The [details] list of a subbasin, empty for a subbasin without entry. *)
Definition cn_zone_details {K : Type} `{Countable K}
    (data : gmap K (CN.SubbasinData K)) (z : K) : list (CN.DetailedRecord K) :=
  match data !! z with Some e => CN.details e | None => [] end.

(* ===================================================================== *)
(** ** Arithmetic of the modelled Python operations *)
(* ===================================================================== *)

Lemma mbind_Ok {A B : Type} (a : A) (k : A -> result B) : (Ok a ≫= k) = k a.
Proof. reflexivity. Qed.

(** Run one successful step of a computation in the error monad. *)
Ltac ok_step := rewrite ?mbind_Ok; cbv beta.

Lemma py_div_ok x y : y <> 0 -> py_div x y = Ok (x / y).
Proof.
  intros Hy. unfold py_div. destruct (decide (y = 0)); [contradiction|reflexivity].
Qed.

Lemma py_pow_pos x y : 0 < x -> py_pow x y = Ok (Rpower x y).
Proof. intros Hx. unfold py_pow. destruct (decide (0 < x)); [reflexivity|lra]. Qed.

Lemma py_pow_zero y : 0 < y -> py_pow 0 y = Ok 0.
Proof.
  intros Hy. unfold py_pow.
  destruct (decide (0 < 0)); [lra|]. destruct (decide (0 = 0)); [|lra].
  destruct (decide (0 < y)); [reflexivity|lra].
Qed.

Lemma math_pow_pos x y : 0 < x -> math_pow x y = Ok (Rpower x y).
Proof. intros Hx. unfold math_pow. destruct (decide (0 < x)); [reflexivity|lra]. Qed.

Lemma math_sqrt_ok x : 0 <= x -> math_sqrt x = Ok (sqrt x).
Proof. intros Hx. unfold math_sqrt. destruct (decide (x < 0)); [lra|reflexivity]. Qed.

Lemma Rpower_pos x y : 0 < Rpower x y.
Proof. unfold Rpower. apply exp_pos. Qed.

Lemma Rpower_gt_1 x y : 1 < x -> 0 < y -> 1 < Rpower x y.
Proof.
  intros Hx Hy. rewrite <- (Rpower_O x) by lra. apply Rpower_lt; assumption.
Qed.

Lemma Rpower_lt_base x y : 1 < x -> y < 1 -> Rpower x y < x.
Proof.
  intros Hx Hy. rewrite <- (Rpower_1 x) at 2 by lra. apply Rpower_lt; assumption.
Qed.

Lemma Rpower_one y : Rpower 1 y = 1.
Proof. unfold Rpower. rewrite ln_1, Rmult_0_r. apply exp_0. Qed.

Lemma py_pow_nonneg_ok x y :
  0 <= x -> 0 < y -> exists v, py_pow x y = Ok v /\ 0 <= v.
Proof.
  intros Hx Hy. destruct (Rle_lt_or_eq_dec 0 x Hx) as [Hp | <-].
  - rewrite py_pow_pos by assumption. eexists; split; [reflexivity|].
    left. apply Rpower_pos.
  - rewrite py_pow_zero by assumption. eexists; split; [reflexivity|lra].
Qed.

Lemma clamp_bounds lo hi x : lo <= hi -> lo <= Rmax lo (Rmin hi x) <= hi.
Proof.
  intros Hlh. unfold Rmax, Rmin.
  destruct (Rle_dec hi x); destruct (Rle_dec lo _); lra.
Qed.

Lemma clamp_id lo hi x : lo <= x <= hi -> Rmax lo (Rmin hi x) = x.
Proof.
  intros Hx. unfold Rmax, Rmin.
  destruct (Rle_dec hi x); destruct (Rle_dec lo _); lra.
Qed.

Lemma slope_floor_pos s : 0.001 <= Rmax s 0.001.
Proof. apply Rmax_r. Qed.

Lemma slope_floor_idem s : Rmax (Rmax s 0.001) 0.001 = Rmax s 0.001.
Proof. unfold Rmax. repeat destruct (Rle_dec _ _); lra. Qed.

(** The SCS floor of 0.1 percent is the floor of 0.001 as a fraction. *)
Lemma percent_floor s : Rmax (Rmax s 0.001 * 100) 0.1 = Rmax (s * 100) 0.1.
Proof. unfold Rmax. repeat destruct (Rle_dec _ _); lra. Qed.

Lemma percent_floor_pos s : 0.1 <= Rmax (s * 100) 0.1.
Proof. apply Rmax_r. Qed.

Lemma falsy_py_or o d : falsy o -> py_or o d = d.
Proof.
  intros [-> | ->]; [reflexivity|]. unfold py_or.
  destruct (decide (0 = 0)); [reflexivity|contradiction].
Qed.

Lemma py_or_nonzero v d : v <> 0 -> py_or (Some v) d = v.
Proof.
  intros Hv. unfold py_or. destruct (decide (v = 0)); [contradiction|reflexivity].
Qed.

Lemma curve_number_term_gt_1 CN : 30 <= CN <= 98 -> 1 < 1000 / CN - 9.
Proof.
  intros HCN. assert (1000 / CN >= 1000 / 98); [|lra].
  unfold Rdiv. apply Rle_ge. apply Rmult_le_compat_l; [lra|].
  apply Rinv_le_contravar; lra.
Qed.

(* ===================================================================== *)
(** ** The four methods: closed forms *)
(* ===================================================================== *)

Lemma kirpich_ok p : 0 <= flow_length_ft p -> is_ok (KirpichMethod.calculate p).
Proof.
  intros HL. unfold KirpichMethod.calculate.
  destruct (py_pow_nonneg_ok (flow_length_ft p) 0.77 HL ltac:(lra)) as (a & -> & Ha).
  pose proof (slope_floor_pos (slope_ft_ft p)) as HS.
  rewrite (py_pow_pos (Rmax _ _)) by lra. ok_step.
  rewrite py_div_ok.
  2:{ pose proof (Rpower_pos (Rmax (slope_ft_ft p) 0.001) 0.385). lra. }
  exact I.
Qed.

Lemma faa_formula p :
  0 <= flow_length_ft p ->
  FAAMethod.calculate p =
    Ok (Rmax (1.8 * (1.1 - Rmax 0.1 (Rmin 0.95 (py_or (runoff_coefficient p) 0.5)))
              * sqrt (flow_length_ft p / 1000) / sqrt (Rmax (slope_ft_ft p) 0.001)) 5).
Proof.
  intros HL. unfold FAAMethod.calculate.
  pose proof (slope_floor_pos (slope_ft_ft p)) as HS.
  rewrite (py_div_ok _ 1000) by lra. ok_step.
  rewrite (math_sqrt_ok (_ / 1000)) by lra. ok_step.
  rewrite math_sqrt_ok by lra. ok_step.
  rewrite py_div_ok.
  2:{ pose proof (sqrt_lt_R0 (Rmax (slope_ft_ft p) 0.001)). lra. }
  reflexivity.
Qed.

Lemma faa_ok p : 0 <= flow_length_ft p -> is_ok (FAAMethod.calculate p).
Proof. intros HL. rewrite faa_formula by assumption. exact I. Qed.

Lemma scs_value p :
  0 <= flow_length_ft p ->
  exists a, py_pow (flow_length_ft p) 0.8 = Ok a /\
    SCSLagTimeMethod.calculate p =
      Ok (Rmax (1.67 * (a * Rpower (1000 / effective_cn (curve_number p) - 9) 0.7
                        / (1900 * sqrt (Rmax (slope_ft_ft p * 100) 0.1))) * 60) 5).
Proof.
  intros HL.
  destruct (py_pow_nonneg_ok (flow_length_ft p) 0.8 HL ltac:(lra)) as (a & Ea & Ha).
  exists a. split; [assumption|].
  unfold SCSLagTimeMethod.calculate. rewrite Ea. ok_step.
  fold (effective_cn (curve_number p)).
  assert (HCN : 30 <= effective_cn (curve_number p) <= 98) by (apply clamp_bounds; lra).
  rewrite (py_div_ok 1000) by lra. ok_step.
  pose proof (curve_number_term_gt_1 _ HCN) as Hq.
  rewrite py_pow_pos by lra. ok_step.
  pose proof (percent_floor_pos (slope_ft_ft p)) as HS.
  rewrite math_sqrt_ok by lra. ok_step.
  rewrite py_div_ok.
  2:{ pose proof (sqrt_lt_R0 (Rmax (slope_ft_ft p * 100) 0.1)). lra. }
  reflexivity.
Qed.

Lemma scs_is_ok p : 0 <= flow_length_ft p -> is_ok (SCSLagTimeMethod.calculate p).
Proof. intros HL. destruct (scs_value p HL) as (a & _ & ->). exact I. Qed.

Lemma scs_formula p :
  0 < flow_length_ft p ->
  SCSLagTimeMethod.calculate p =
    Ok (Rmax (1.67 * scs_lag_hours (flow_length_ft p)
                       (retention (effective_cn (curve_number p)))
                       (Rmax (slope_ft_ft p * 100) 0.1) * 60) 5).
Proof.
  intros HL. destruct (scs_value p (Rlt_le _ _ HL)) as (a & Ea & ->).
  rewrite py_pow_pos in Ea by assumption. injection Ea as <-.
  unfold scs_lag_hours, retention.
  replace (1000 / effective_cn (curve_number p) - 10 + 1)
    with (1000 / effective_cn (curve_number p) - 9) by lra.
  reflexivity.
Qed.

Lemma kerby_ok p : 0 <= flow_length_ft p -> is_ok (KerbyMethod.calculate p).
Proof.
  intros HL. unfold KerbyMethod.calculate.
  pose proof (slope_floor_pos (slope_ft_ft p)) as HS.
  rewrite math_sqrt_ok by lra. ok_step.
  pose proof (sqrt_lt_R0 (Rmax (slope_ft_ft p) 0.001) ltac:(lra)) as Hr.
  rewrite py_div_ok by lra. ok_step.
  set (n := Rmax 0.02 (Rmin 0.8 _)).
  assert (Hn : 0.02 <= n <= 0.8) by (apply clamp_bounds; lra).
  assert (Hq : 0 <= n * flow_length_ft p / sqrt (Rmax (slope_ft_ft p) 0.001)).
  { apply Rmult_le_pos; [apply Rmult_le_pos; lra|]. left. apply Rinv_0_lt_compat. lra. }
  destruct (py_pow_nonneg_ok _ 0.467 Hq ltac:(lra)) as (a & -> & Ha). exact I.
Qed.

Lemma kerby_formula p :
  0 < flow_length_ft p ->
  KerbyMethod.calculate p =
    Ok (Rmax (1.44 * Rpower (Rmax 0.02 (Rmin 0.8 (py_or (roughness_coefficient p) 0.3))
                             * flow_length_ft p / sqrt (Rmax (slope_ft_ft p) 0.001))
                        0.467) 5).
Proof.
  intros HL. unfold KerbyMethod.calculate.
  pose proof (slope_floor_pos (slope_ft_ft p)) as HS.
  rewrite math_sqrt_ok by lra. ok_step.
  pose proof (sqrt_lt_R0 (Rmax (slope_ft_ft p) 0.001) ltac:(lra)) as Hr.
  rewrite py_div_ok by lra. ok_step.
  set (n := Rmax 0.02 (Rmin 0.8 _)).
  assert (Hn : 0.02 <= n <= 0.8) by (apply clamp_bounds; lra).
  rewrite py_pow_pos; [reflexivity|].
  apply Rmult_lt_0_compat; [apply Rmult_lt_0_compat; lra|].
  apply Rinv_0_lt_compat. lra.
Qed.

Lemma kirpich_formula p :
  0 < flow_length_ft p ->
  KirpichMethod.calculate p =
    Ok (Rmax (0.0078 * Rpower (flow_length_ft p) 0.77
              / Rpower (Rmax (slope_ft_ft p) 0.001) 0.385) 5).
Proof.
  intros HL. unfold KirpichMethod.calculate.
  rewrite (py_pow_pos (flow_length_ft p)) by assumption. ok_step.
  pose proof (slope_floor_pos (slope_ft_ft p)) as HS.
  rewrite (py_pow_pos (Rmax _ _)) by lra. ok_step.
  rewrite py_div_ok; [reflexivity|].
  pose proof (Rpower_pos (Rmax (slope_ft_ft p) 0.001) 0.385). lra.
Qed.

Lemma percent_floor_scaled s : Rmax (s * 100) 0.1 = Rmax s 0.001 * 100.
Proof. unfold Rmax. repeat destruct (Rle_dec _ _); lra. Qed.

Create HintDb tc_methods.
#[global] Hint Resolve kirpich_ok faa_ok scs_is_ok kerby_ok : tc_methods.

(* ===================================================================== *)
(** ** The slope floor *)
(* ===================================================================== *)

Lemma kirpich_slope_floor p :
  KirpichMethod.calculate (with_slope p (Rmax (slope_ft_ft p) 0.001))
    = KirpichMethod.calculate p.
Proof.
  unfold KirpichMethod.calculate, with_slope. cbv [slope_ft_ft flow_length_ft].
  destruct p. rewrite slope_floor_idem. reflexivity.
Qed.

Lemma faa_slope_floor p :
  FAAMethod.calculate (with_slope p (Rmax (slope_ft_ft p) 0.001))
    = FAAMethod.calculate p.
Proof.
  unfold FAAMethod.calculate, with_slope.
  cbv [slope_ft_ft flow_length_ft runoff_coefficient].
  destruct p. rewrite slope_floor_idem. reflexivity.
Qed.

Lemma scs_slope_floor p :
  SCSLagTimeMethod.calculate (with_slope p (Rmax (slope_ft_ft p) 0.001))
    = SCSLagTimeMethod.calculate p.
Proof.
  unfold SCSLagTimeMethod.calculate, with_slope.
  cbv [slope_ft_ft flow_length_ft curve_number].
  destruct p. rewrite percent_floor. reflexivity.
Qed.

Lemma kerby_slope_floor p :
  KerbyMethod.calculate (with_slope p (Rmax (slope_ft_ft p) 0.001))
    = KerbyMethod.calculate p.
Proof.
  unfold KerbyMethod.calculate, with_slope.
  cbv [slope_ft_ft flow_length_ft roughness_coefficient].
  destruct p. rewrite slope_floor_idem. reflexivity.
Qed.

(** Claim C8.  For every parameter record with a non-negative flow length
    and any slope whatsoever (zero and negative slopes included), each of the
    four methods (reached by name through the factory, or directly) returns
    a value, no exception, and returns what it returns on the record whose
    slope is replaced by [S = max(slope, 0.001)]: the slope only enters
    through that floor, the same in the four methods.  The floor is at 0.001
    and nowhere else: for a positive flow length L, Kirpich returns
    [max(0.0078 L^0.77 / S^0.385, 5)], FAA returns
    [max(1.8 (1.1 - C) sqrt(L/1000) / sqrt(S), 5)], Kerby returns
    [max(1.44 (n L / sqrt(S))^0.467, 5)], and SCS, which floors the percent
    slope at 0.1, returns the lag formula at the percent slope [100 S], since
    [max(100 slope, 0.1) = 100 max(slope, 0.001)].  The quantities the
    formulas divide by, [S^0.385], [sqrt(S)] and [sqrt(100 S)], are
    positive. *)
Theorem slope_floor_in_all_methods (p : TCParameters) :
  0 <= flow_length_ft p ->
  let L := flow_length_ft p in
  let S := Rmax (slope_ft_ft p) 0.001 in
  let floored := with_slope p (Rmax (slope_ft_ft p) 0.001) in
  (forall name, name ∈ TCMethodFactory.get_available_methods ->
     exists calculate, TCMethodFactory.methods name = Some calculate /\
       is_ok (calculate p) /\ calculate p = calculate floored) /\
  (is_ok (KirpichMethod.calculate p)
   /\ KirpichMethod.calculate p = KirpichMethod.calculate floored) /\
  (is_ok (FAAMethod.calculate p)
   /\ FAAMethod.calculate p = FAAMethod.calculate floored) /\
  (is_ok (SCSLagTimeMethod.calculate p)
   /\ SCSLagTimeMethod.calculate p = SCSLagTimeMethod.calculate floored) /\
  (is_ok (KerbyMethod.calculate p)
   /\ KerbyMethod.calculate p = KerbyMethod.calculate floored) /\
  (0.001 <= S /\ (0.001 <= slope_ft_ft p -> S = slope_ft_ft p) /\
   (slope_ft_ft p <= 0.001 -> S = 0.001) /\
   Rmax (slope_ft_ft p * 100) 0.1 = S * 100) /\
  (0 < Rpower S 0.385 /\ 0 < sqrt S /\ 0 < sqrt (S * 100)) /\
  (0 < L ->
   KirpichMethod.calculate p
     = Ok (Rmax (0.0078 * Rpower L 0.77 / Rpower S 0.385) 5) /\
   FAAMethod.calculate p
     = Ok (Rmax (1.8 * (1.1 - Rmax 0.1 (Rmin 0.95 (py_or (runoff_coefficient p) 0.5)))
                 * sqrt (L / 1000) / sqrt S) 5) /\
   SCSLagTimeMethod.calculate p
     = Ok (Rmax (1.67 * scs_lag_hours L (retention (effective_cn (curve_number p)))
                          (S * 100) * 60) 5) /\
   KerbyMethod.calculate p
     = Ok (Rmax (1.44 * Rpower (Rmax 0.02 (Rmin 0.8 (py_or (roughness_coefficient p) 0.3))
                                * L / sqrt S) 0.467) 5)).
Proof.
  intros HL L S floored. unfold floored.
  pose proof (slope_floor_pos (slope_ft_ft p)) as HS. fold S in HS.
  split.
  { intros name Hn. unfold TCMethodFactory.get_available_methods in Hn.
    repeat (apply elem_of_cons in Hn as [-> | Hn]);
      [| | | |apply elem_of_nil in Hn; contradiction];
      eexists; (split; [reflexivity|]);
      rewrite ?kirpich_slope_floor, ?faa_slope_floor, ?scs_slope_floor,
        ?kerby_slope_floor; auto with tc_methods. }
  rewrite kirpich_slope_floor, faa_slope_floor, scs_slope_floor, kerby_slope_floor.
  split; [split; auto with tc_methods|]. split; [split; auto with tc_methods|].
  split; [split; auto with tc_methods|]. split; [split; auto with tc_methods|].
  split; [|split].
  - split; [exact HS|]. split; [|split].
    + intros H1. unfold S, Rmax. destruct (Rle_dec _ _); lra.
    + intros H1. unfold S, Rmax. destruct (Rle_dec _ _); lra.
    + apply percent_floor_scaled.
  - split; [apply Rpower_pos|]. split; apply sqrt_lt_R0; lra.
  - intros HL0. split; [apply kirpich_formula, HL0|].
    split; [apply faa_formula, HL|]. split; [|apply kerby_formula, HL0].
    rewrite (scs_formula p HL0), percent_floor_scaled. reflexivity.
Qed.

Lemma slope_floor_in_all_methods_witness :
  slope_ft_ft zero_slope_parameters = 0 /\
  is_ok (KirpichMethod.calculate zero_slope_parameters) /\
  is_ok (FAAMethod.calculate zero_slope_parameters) /\
  is_ok (SCSLagTimeMethod.calculate zero_slope_parameters) /\
  is_ok (KerbyMethod.calculate zero_slope_parameters) /\
  Rmax (slope_ft_ft zero_slope_parameters) 0.001 = 0.001 /\
  KirpichMethod.calculate zero_slope_parameters
    = Ok (Rmax (0.0078 * Rpower (flow_length_ft zero_slope_parameters) 0.77
                / Rpower (Rmax (slope_ft_ft zero_slope_parameters) 0.001) 0.385) 5).
Proof.
  assert (HL : 0 < flow_length_ft zero_slope_parameters)
    by (unfold zero_slope_parameters; cbn [flow_length_ft]; lra).
  destruct (slope_floor_in_all_methods zero_slope_parameters (Rlt_le _ _ HL))
    as (_ & (K1 & _) & (F1 & _) & (S1 & _) & (Y1 & _) & (_ & _ & Hf & _) & _ & Hc).
  destruct (Hc HL) as (Hk & _).
  split; [reflexivity|]. repeat (split; [assumption|]).
  split; [|exact Hk].
  apply Hf. unfold zero_slope_parameters. cbn [slope_ft_ft]. lra.
Defined.

(* ===================================================================== *)
(** ** Validation at construction *)
(* ===================================================================== *)

Lemma truthy_and_not_between_spec x lo hi :
  truthy_and_not_between x lo hi = true <->
  exists v, x = Some v /\ v <> 0 /\ ~ (lo <= v /\ v <= hi).
Proof.
  unfold truthy_and_not_between. destruct x as [v|].
  - destruct (decide (v = 0)) as [E|E].
    + split; [discriminate|]. intros (w & [= <-] & Hw & _). contradiction.
    + rewrite negb_true_iff, bool_decide_eq_false. split.
      * intros Hn. exists v. auto.
      * intros (w & [= <-] & _ & Hn). exact Hn.
  - split; [discriminate|]. intros (w & [=] & _).
Qed.

Lemma falsy_not_checked o lo hi : falsy o -> truthy_and_not_between o lo hi = false.
Proof.
  intros [-> | ->]; [reflexivity|]. unfold truthy_and_not_between.
  destruct (decide (0 = 0)); [reflexivity|contradiction].
Qed.

Lemma between_not_checked v lo hi :
  lo <= v /\ v <= hi -> truthy_and_not_between (Some v) lo hi = false.
Proof.
  intros Hv. unfold truthy_and_not_between.
  destruct (decide (v = 0)); [reflexivity|].
  rewrite bool_decide_eq_true_2 by assumption. reflexivity.
Qed.

Lemma post_init_cases p :
  (raises_ValueError (post_init p) /\
     rejected (flow_length_ft p) (slope_ft_ft p) (curve_number p) (runoff_coefficient p))
  \/ (post_init p = Ok tt /\
     ~ rejected (flow_length_ft p) (slope_ft_ft p) (curve_number p) (runoff_coefficient p)).
Proof.
  unfold post_init, rejected.
  destruct (decide (flow_length_ft p <= 0)) as [HL|HL].
  { left. split; [eexists; reflexivity|auto]. }
  destruct (decide (slope_ft_ft p <= 0)) as [HS|HS].
  { left. split; [eexists; reflexivity|auto]. }
  destruct (truthy_and_not_between (curve_number p) 30 98) eqn:Ecn.
  { left. split; [eexists; reflexivity|].
    apply truthy_and_not_between_spec in Ecn. auto. }
  destruct (truthy_and_not_between (runoff_coefficient p) 0.1 0.95) eqn:Ec.
  { left. split; [eexists; reflexivity|].
    apply truthy_and_not_between_spec in Ec. auto. }
  right. split; [reflexivity|].
  intros [?|[?|[Hx|Hx]]]; try contradiction.
  - apply truthy_and_not_between_spec in Hx. congruence.
  - apply truthy_and_not_between_spec in Hx. congruence.
Qed.

(** Claim C9, as amended.  Construction raises a [ValueError] exactly when
    the flow length is not positive, or the slope is not positive, or the
    curve number is non-zero and outside [30, 98], or the runoff coefficient
    is non-zero and outside [0.1, 0.95].  The roughness coefficient is not
    looked at, and a value of zero (or [None]) passes.  When construction
    succeeds the fields are stored as given: nothing is clamped. *)
Theorem construction_raises_iff (L e S u d : R) (cn c n : option R) :
  (raises_ValueError (new_TCParameters L e S u d cn c n) <-> rejected L S cn c)
  /\ (~ rejected L S cn c ->
      new_TCParameters L e S u d cn c n = Ok (mkTCParameters L e S u d cn c n)).
Proof.
  unfold new_TCParameters.
  destruct (post_init_cases (mkTCParameters L e S u d cn c n))
    as [[(msg & E) Hr]|[E Hr]];
    cbn [flow_length_ft slope_ft_ft curve_number runoff_coefficient] in Hr; rewrite E.
  - split; [|contradiction]. split; [auto|]. intros _. exists msg. reflexivity.
  - split; [|reflexivity]. split; [|contradiction].
    intros (msg & Hm). discriminate Hm.
Qed.

Lemma example_not_rejected : ~ rejected 500 0.02 (Some 70) (Some 0.5).
Proof.
  intros [?|[?|[(v & [= <-] & _ & Hv)|(v & [= <-] & _ & Hv)]]]; lra.
Qed.

Lemma construction_raises_iff_witness :
  new_TCParameters 500 10 0.02 110 100 (Some 70) (Some 0.5) (Some 0.3)
    = Ok example_parameters.
Proof.
  apply (construction_raises_iff 500 10 0.02 110 100 (Some 70) (Some 0.5) (Some 0.3)).
  exact example_not_rejected.
Defined.

Lemma zero_not_rejected : ~ rejected 500 0.02 (Some 0) (Some 0).
Proof.
  intros [?|[?|[(v & [= <-] & Hv & _)|(v & [= <-] & Hv & _)]]]; lra.
Qed.

(** Claim C9 fails as stated: a roughness coefficient of 5, outside
    [0.02, 0.8], is accepted, and so are a curve number and a runoff
    coefficient of 0, outside their ranges. *)
Lemma construction_accepts_out_of_range :
  (documented_invalid 500 0.02 (Some 70) (Some 0.5) (Some 5) /\
   new_TCParameters 500 10 0.02 110 100 (Some 70) (Some 0.5) (Some 5)
     = Ok (mkTCParameters 500 10 0.02 110 100 (Some 70) (Some 0.5) (Some 5)))
  /\ (documented_invalid 500 0.02 (Some 0) (Some 0) None /\
      new_TCParameters 500 10 0.02 110 100 (Some 0) (Some 0) None
        = Ok zero_cn_parameters).
Proof.
  split; split.
  - right; right; right; right. exists 5. split; [reflexivity|lra].
  - unfold new_TCParameters.
    destruct (post_init_cases (mkTCParameters 500 10 0.02 110 100 (Some 70) (Some 0.5) (Some 5)))
      as [[_ Hr]|[-> _]]; [|reflexivity].
    destruct (example_not_rejected Hr).
  - right; right; left. exists 0. split; [reflexivity|lra].
  - unfold new_TCParameters.
    destruct (post_init_cases (mkTCParameters 500 10 0.02 110 100 (Some 0) (Some 0) None))
      as [[_ Hr]|[-> _]]; [|reflexivity].
    destruct (zero_not_rejected Hr).
Qed.

(* ===================================================================== *)
(** ** Zero and missing optional parameters *)
(* ===================================================================== *)

(** Claim C10.  With a positive flow length and slope: a curve number that
    is 0 or [None] is validated, and enters the SCS formula, exactly as the
    default 70 would; a runoff coefficient that is 0 or [None] is validated,
    and enters the FAA formula, exactly as the default 0.5 would; a roughness
    coefficient that is 0 or [None] enters the Kerby formula as the default
    0.3.  In particular, when both the curve number and the runoff
    coefficient are 0 or [None], validation raises nothing. *)
Theorem falsy_parameters_pass_validation_and_default (p : TCParameters) :
  0 < flow_length_ft p -> 0 < slope_ft_ft p ->
  (falsy (curve_number p) ->
     post_init p = post_init (with_curve_number p default_curve_number) /\
     SCSLagTimeMethod.calculate p
       = SCSLagTimeMethod.calculate (with_curve_number p default_curve_number) /\
     SCSLagTimeMethod.calculate p =
       Ok (Rmax (1.67 * scs_lag_hours (flow_length_ft p) (retention 70)
                          (Rmax (slope_ft_ft p * 100) 0.1) * 60) 5))
  /\ (falsy (runoff_coefficient p) ->
     post_init p = post_init (with_runoff_coefficient p default_runoff_coefficient) /\
     FAAMethod.calculate p
       = FAAMethod.calculate (with_runoff_coefficient p default_runoff_coefficient) /\
     FAAMethod.calculate p =
       Ok (Rmax (1.8 * (1.1 - 0.5) * sqrt (flow_length_ft p / 1000)
                 / sqrt (Rmax (slope_ft_ft p) 0.001)) 5))
  /\ (falsy (roughness_coefficient p) ->
     KerbyMethod.calculate p
       = KerbyMethod.calculate (with_roughness_coefficient p default_roughness_coefficient) /\
     KerbyMethod.calculate p =
       Ok (Rmax (1.44 * Rpower (0.3 * flow_length_ft p
                                / sqrt (Rmax (slope_ft_ft p) 0.001)) 0.467) 5))
  /\ (falsy (curve_number p) -> falsy (runoff_coefficient p) -> post_init p = Ok tt).
Proof.
  intros HL HS.
  unfold default_curve_number, default_runoff_coefficient,
    default_roughness_coefficient.
  split; [|split; [|split]].
  - intros Hf. repeat split.
    + unfold post_init, with_curve_number.
      cbn [flow_length_ft slope_ft_ft curve_number runoff_coefficient].
      rewrite (falsy_not_checked _ _ _ Hf), between_not_checked by lra. reflexivity.
    + unfold SCSLagTimeMethod.calculate, with_curve_number.
      cbn [flow_length_ft slope_ft_ft curve_number].
      rewrite (falsy_py_or _ _ Hf), py_or_nonzero by lra. reflexivity.
    + rewrite scs_formula by assumption.
      unfold effective_cn. rewrite (falsy_py_or _ _ Hf), clamp_id by lra. reflexivity.
  - intros Hf. repeat split.
    + unfold post_init, with_runoff_coefficient.
      cbn [flow_length_ft slope_ft_ft curve_number runoff_coefficient].
      rewrite (falsy_not_checked _ _ _ Hf), between_not_checked by lra. reflexivity.
    + unfold FAAMethod.calculate, with_runoff_coefficient.
      cbn [flow_length_ft slope_ft_ft runoff_coefficient].
      rewrite (falsy_py_or _ _ Hf), py_or_nonzero by lra. reflexivity.
    + rewrite faa_formula by lra.
      rewrite (falsy_py_or _ _ Hf), clamp_id by lra. reflexivity.
  - intros Hf. repeat split.
    + unfold KerbyMethod.calculate, with_roughness_coefficient.
      cbn [flow_length_ft slope_ft_ft roughness_coefficient].
      rewrite (falsy_py_or _ _ Hf), py_or_nonzero by lra. reflexivity.
    + rewrite kerby_formula by lra.
      rewrite (falsy_py_or _ _ Hf), clamp_id by lra. reflexivity.
  - intros Hcn Hc. unfold post_init.
    destruct (decide (flow_length_ft p <= 0)); [lra|].
    destruct (decide (slope_ft_ft p <= 0)); [lra|].
    rewrite (falsy_not_checked _ _ _ Hcn), (falsy_not_checked _ _ _ Hc). reflexivity.
Qed.

Lemma falsy_parameters_pass_validation_and_default_witness :
  post_init zero_cn_parameters = Ok tt /\
  SCSLagTimeMethod.calculate zero_cn_parameters
    = Ok (Rmax (1.67 * scs_lag_hours 500 (retention 70) (Rmax (0.02 * 100) 0.1) * 60) 5).
Proof.
  destruct (falsy_parameters_pass_validation_and_default zero_cn_parameters)
    as (Hcn & _ & _ & Hv).
  - unfold zero_cn_parameters; simpl; lra.
  - unfold zero_cn_parameters; simpl; lra.
  - split.
    + apply Hv; right; reflexivity.
    + apply Hcn. right; reflexivity.
Defined.

(* ===================================================================== *)
(** ** The SCS lag-time method *)
(* ===================================================================== *)

(** Claim C2, as amended.  For a positive flow length [L], the SCS method
    returns [max(1.67 * lag * 60, 5)] minutes, where
    [lag = L^0.8 * (R + 1)^0.7 / (1900 * sqrt(S_pct))] hours, the retention
    is [R = 1000/CN - 10] (so that [R + 1 = 1000/CN - 9]), [CN] is the curve
    number (70 when it is 0 or missing) clamped to [30, 98], and [S_pct] is
    the percent slope [S * 100] floored at 0.1. *)
Theorem scs_lag_time_formula (p : TCParameters) :
  0 < flow_length_ft p ->
  let CN := Rmax 30 (Rmin 98 (py_or (curve_number p) 70)) in
  let S_pct := Rmax (slope_ft_ft p * 100) 0.1 in
  let lag := scs_lag_hours (flow_length_ft p) (retention CN) S_pct in
  30 <= CN <= 98 /\
  SCSLagTimeMethod.calculate p = Ok (Rmax (1.67 * lag * 60) 5).
Proof.
  intros HL CN S_pct lag. split.
  - apply clamp_bounds; lra.
  - rewrite scs_formula by assumption. reflexivity.
Qed.

Lemma scs_lag_time_formula_witness :
  SCSLagTimeMethod.calculate scs_example =
    Ok (Rmax (1.67 * scs_lag_hours 10000
                       (retention (Rmax 30 (Rmin 98 (py_or (Some 50) 70))))
                       (Rmax (0.01 * 100) 0.1) * 60) 5).
Proof.
  apply (scs_lag_time_formula scs_example). unfold scs_example; simpl; lra.
Defined.

Lemma effective_cn_50 : effective_cn (Some 50) = 50.
Proof. unfold effective_cn. rewrite py_or_nonzero by lra. apply clamp_id. lra. Qed.

Lemma Rpower_10000_08 : 100 < Rpower 10000 0.8.
Proof.
  assert (E : Rpower 10000 (/ 2) = 100).
  { rewrite Rpower_sqrt by lra. replace 10000 with (100 * 100) by lra.
    apply sqrt_square. lra. }
  rewrite <- E at 1. apply Rpower_lt; lra.
Qed.

Lemma sqrt_001 : sqrt 0.01 = 0.1.
Proof. replace 0.01 with (0.1 * 0.1) by lra. apply sqrt_square. lra. Qed.

Lemma sqrt_01_bounds : 0.1 < sqrt 0.1 < 1.
Proof.
  split.
  - rewrite <- sqrt_001 at 1. apply sqrt_lt_1; lra.
  - apply Rlt_le_trans with (sqrt 1); [apply sqrt_lt_1; lra|rewrite sqrt_1; lra].
Qed.

(** L = 10000 ft, S = 0.01, CN = 50: neither the floor nor the slope floor
    is active, and the code's value is below the value of the formula with
    retention [1000/CN - 9]. *)
Lemma scs_example_value :
  exists v, SCSLagTimeMethod.calculate scs_example = Ok v /\
            v < scs_tc_as_claimed 10000 0.01 50.
Proof.
  eexists. split.
  - rewrite scs_formula by (unfold scs_example; simpl; lra). reflexivity.
  - cbn [scs_example flow_length_ft slope_ft_ft curve_number].
    rewrite effective_cn_50.
    unfold scs_tc_as_claimed, scs_lag_hours, retention, claimed_retention.
    rewrite (clamp_id 30 98 50) by lra.
    replace (0.01 * 100) with 1 by lra.
    replace (Rmax 1 0.1) with 1 by (unfold Rmax; destruct (Rle_dec 1 0.1); lra).
    rewrite sqrt_1.
    replace (1000 / 50 - 10 + 1) with 11 by lra.
    replace (1000 / 50 - 9 + 1) with 12 by lra.
    pose proof Rpower_10000_08 as HA.
    pose proof (Rpower_gt_1 11 0.7 ltac:(lra) ltac:(lra)) as H11.
    pose proof (Rlt_Rpower_l 11 12 0.7 ltac:(lra) ltac:(lra)) as H12.
    set (A := Rpower 10000 0.8) in *. set (B := Rpower 11 0.7) in *.
    set (C := Rpower 12 0.7) in *.
    assert (HAB : 100 < A * B) by nra.
    assert (HBC : A * B < A * C) by nra.
    unfold Rmax. destruct (Rle_dec _ 5); lra.
Qed.

(** L = 1 ft: the code returns the floor of 5 minutes, the formula without a
    floor is below 5. *)
Lemma scs_short_example_value :
  SCSLagTimeMethod.calculate scs_short_example = Ok 5 /\
  scs_tc_as_claimed 1 0.01 50 < 5.
Proof.
  split.
  - rewrite scs_formula by (unfold scs_short_example; simpl; lra).
    cbn [scs_short_example flow_length_ft slope_ft_ft curve_number].
    rewrite effective_cn_50. unfold scs_lag_hours, retention.
    replace (0.01 * 100) with 1 by lra.
    replace (Rmax 1 0.1) with 1 by (unfold Rmax; destruct (Rle_dec 1 0.1); lra).
    rewrite sqrt_1, Rpower_one.
    replace (1000 / 50 - 10 + 1) with 11 by lra.
    pose proof (Rpower_lt_base 11 0.7 ltac:(lra) ltac:(lra)) as H11.
    f_equal. unfold Rmax. destruct (Rle_dec _ 5); lra.
  - unfold scs_tc_as_claimed, scs_lag_hours, claimed_retention.
    rewrite (clamp_id 30 98 50) by lra.
    replace (0.01 * 100) with 1 by lra. rewrite sqrt_1, Rpower_one.
    replace (1000 / 50 - 9 + 1) with 12 by lra.
    pose proof (Rpower_lt_base 12 0.7 ltac:(lra) ltac:(lra)) as H12. lra.
Qed.

(** S = 0.0001, below the slope floor: the code's value is below what the
    lag equation gives on the percent slope 0.01 itself, even with the
    code's retention and the 5-minute floor. *)
Lemma scs_flat_example_value :
  exists v, SCSLagTimeMethod.calculate scs_flat_example = Ok v /\
            v < Rmax (1.67 * scs_lag_hours 10000 (retention 50) (0.0001 * 100) * 60) 5.
Proof.
  eexists. split.
  - rewrite scs_formula by (unfold scs_flat_example; simpl; lra). reflexivity.
  - cbn [scs_flat_example flow_length_ft slope_ft_ft curve_number].
    rewrite effective_cn_50. unfold scs_lag_hours, retention.
    replace (0.0001 * 100) with 0.01 by lra.
    replace (Rmax 0.01 0.1) with 0.1
      by (unfold Rmax; destruct (Rle_dec 0.01 0.1); lra).
    rewrite sqrt_001.
    replace (1000 / 50 - 10 + 1) with 11 by lra.
    pose proof Rpower_10000_08 as HA.
    pose proof (Rpower_gt_1 11 0.7 ltac:(lra) ltac:(lra)) as H11.
    pose proof sqrt_01_bounds as Hs.
    set (A := Rpower 10000 0.8) in *. set (B := Rpower 11 0.7) in *.
    set (r := sqrt 0.1) in *.
    assert (HAB : 100 < A * B) by nra.
    assert (Hinv : / r < / 0.1) by (apply Rinv_lt_contravar; nra).
    assert (Hinv1 : 1 < / r).
    { rewrite <- Rinv_1 at 1. apply Rinv_lt_contravar; lra. }
    assert (E1 : A * B / (1900 * r) = A * B / 1900 * / r) by (field; lra).
    assert (E2 : A * B / (1900 * 0.1) = A * B / 1900 * / 0.1) by (field; lra).
    rewrite E1, E2.
    assert (H1 : A * B / 1900 < A * B / 1900 * / r) by nra.
    assert (H2 : A * B / 1900 * / r < A * B / 1900 * / 0.1) by nra.
    unfold Rmax. repeat destruct (Rle_dec _ 5); lra.
Qed.

(** Claim C2 fails as stated: at L = 10000, S = 0.01, CN = 50 the method
    does not return the value of the formula with retention [1000/CN - 9];
    at L = 1 it returns the floor, 5, where the formula is below 5; and at
    S = 0.0001 the percent slope that enters is the floored one. *)
Lemma scs_formula_as_claimed_fails :
  SCSLagTimeMethod.calculate scs_example <> Ok (scs_tc_as_claimed 10000 0.01 50)
  /\ (SCSLagTimeMethod.calculate scs_short_example = Ok 5
      /\ scs_tc_as_claimed 1 0.01 50 < 5)
  /\ (exists v, SCSLagTimeMethod.calculate scs_flat_example = Ok v /\
        v < Rmax (1.67 * scs_lag_hours 10000 (retention 50) (0.0001 * 100) * 60) 5).
Proof.
  split; [|split].
  - destruct scs_example_value as (v & -> & Hv). intros [= E]. lra.
  - exact scs_short_example_value.
  - exact scs_flat_example_value.
Qed.

(* ===================================================================== *)
(** ** The SCS method against the standalone calculator *)
(* ===================================================================== *)

Lemma standalone_formula L S_pct CN :
  0 < L -> 0 < S_pct -> 30 <= CN <= 98 ->
  TCCalculatorWorker.calculate_basin_tc L S_pct CN =
    Ok (scs_lag_hours L (retention CN) S_pct * 60 / 0.6).
Proof.
  intros HL HS HCN. unfold TCCalculatorWorker.calculate_basin_tc.
  rewrite (py_div_ok 1000) by lra. ok_step.
  destruct (decide (0 < L /\ 0 < S_pct)) as [_|Hn]; [|tauto].
  rewrite (math_pow_pos L) by assumption. ok_step.
  pose proof (curve_number_term_gt_1 CN HCN) as Hq.
  rewrite (math_pow_pos (_ + 1)) by lra. ok_step.
  rewrite (math_pow_pos S_pct) by assumption. ok_step.
  replace 0.5 with (/ 2) by lra. rewrite Rpower_sqrt by assumption.
  pose proof (sqrt_lt_R0 S_pct HS) as Hr.
  rewrite (py_div_ok _ (1900 * _)) by lra. ok_step.
  rewrite py_div_ok by lra. reflexivity.
Qed.

Lemma scs_vs_standalone (L e S u d CN : R) (c n : option R) :
  0 < L -> 0.001 <= S -> 30 <= CN <= 98 ->
  exists t, 0 < t /\
    TCCalculatorWorker.calculate_basin_tc L (S * 100) CN = Ok t /\
    SCSLagTimeMethod.calculate (mkTCParameters L e S u d (Some CN) c n)
      = Ok (Rmax (1.002 * t) 5).
Proof.
  intros HL HS HCN.
  exists (scs_lag_hours L (retention CN) (S * 100) * 60 / 0.6). split; [|split].
  - unfold scs_lag_hours.
    pose proof (Rpower_pos L 0.8). pose proof (Rpower_pos (retention CN + 1) 0.7).
    pose proof (sqrt_lt_R0 (S * 100) ltac:(lra)).
    apply Rdiv_lt_0_compat; [|lra]. apply Rmult_lt_0_compat; [|lra].
    apply Rdiv_lt_0_compat; [|lra]. apply Rmult_lt_0_compat; assumption.
  - apply standalone_formula; lra.
  - rewrite scs_formula by (simpl; lra).
    cbn [flow_length_ft slope_ft_ft curve_number].
    unfold effective_cn. rewrite py_or_nonzero, clamp_id by lra.
    replace (Rmax (S * 100) 0.1) with (S * 100)
      by (unfold Rmax; destruct (Rle_dec (S * 100) 0.1); lra).
    f_equal. f_equal. lra.
Qed.

Lemma Rmax_scaled_gt t : 0 < t -> t < Rmax (1.002 * t) 5.
Proof. intros Ht. unfold Rmax. destruct (Rle_dec (1.002 * t) 5); lra. Qed.

(** Claim C3, as amended.  The constants differ: 1.67 is not 1/0.6 (their
    ratio is 1.002).  On the same flow length, curve number in [30, 98] and
    slope of at least 0.1 percent, the standalone calculator returns a value
    [t] and the multi-method engine returns [max(1.002 * t, 5)], which is
    strictly above [t]: the two values are never equal. *)
Theorem scs_exceeds_standalone (L e S u d CN : R) (c n : option R) :
  0 < L -> 0.001 <= S -> 30 <= CN <= 98 ->
  1.67 <> 1 / 0.6 /\
  exists t,
    TCCalculatorWorker.calculate_basin_tc L (S * 100) CN = Ok t /\
    SCSLagTimeMethod.calculate (mkTCParameters L e S u d (Some CN) c n)
      = Ok (Rmax (1.002 * t) 5) /\
    t < Rmax (1.002 * t) 5.
Proof.
  intros HL HS HCN. split; [lra|].
  destruct (scs_vs_standalone L e S u d CN c n HL HS HCN) as (t & Ht & E1 & E2).
  exists t. auto using Rmax_scaled_gt.
Qed.

Lemma scs_exceeds_standalone_witness :
  exists t,
    TCCalculatorWorker.calculate_basin_tc 1000 (0.02 * 100) 70 = Ok t /\
    SCSLagTimeMethod.calculate standalone_example = Ok (Rmax (1.002 * t) 5) /\
    t < Rmax (1.002 * t) 5.
Proof.
  apply (scs_exceeds_standalone 1000 20 0.02 120 100 70 (Some 0.5) (Some 0.3)); lra.
Defined.

(** Claim C3 fails as stated: on L = 1000 ft, S = 0.02 (2 percent), CN = 70
    the two calculators return different values, and 1.67 is not 1/0.6. *)
Lemma scs_and_standalone_differ :
  SCSLagTimeMethod.calculate standalone_example
    <> TCCalculatorWorker.calculate_basin_tc 1000 (0.02 * 100) 70
  /\ 1.67 <> 1 / 0.6.
Proof.
  split; [|lra].
  destruct (scs_vs_standalone 1000 20 0.02 120 100 70 (Some 0.5) (Some 0.3))
    as (t & Ht & E1 & E2); try lra.
  unfold standalone_example. rewrite E1, E2.
  intros [= E]. pose proof (Rmax_scaled_gt t Ht). lra.
Qed.

(* ===================================================================== *)
(** ** Comparative statistics *)
(* ===================================================================== *)

Lemma insert_sorted_perm x l : Permutation (x :: l) (insert_sorted x l).
Proof.
  induction l as [|y l IH]; simpl; [reflexivity|].
  destruct (decide (x <= y)); [reflexivity|].
  rewrite perm_swap. apply perm_skip. exact IH.
Qed.

Lemma sorted_perm l : Permutation l (sorted l).
Proof.
  induction l as [|x l IH]; simpl; [constructor|].
  rewrite <- insert_sorted_perm. apply perm_skip. exact IH.
Qed.

Lemma insert_sorted_Sorted x l : Sorted Rle l -> Sorted Rle (insert_sorted x l).
Proof.
  induction l as [|y l IH]; intros Hs; simpl.
  - repeat constructor.
  - destruct (decide (x <= y)) as [Hxy|Hxy].
    + constructor; [assumption|]. constructor. assumption.
    + inversion Hs as [|? ? Hs' Hhd]; subst. constructor; [auto|].
      destruct l as [|z l]; simpl.
      * constructor. lra.
      * destruct (decide (x <= z)); constructor; [lra|].
        inversion Hhd; subst. assumption.
Qed.

Lemma sorted_Sorted l : Sorted Rle (sorted l).
Proof.
  induction l as [|x l IH]; simpl; [constructor|]. apply insert_sorted_Sorted, IH.
Qed.

Lemma sorted_length l : length (sorted l) = length l.
Proof. symmetry. apply Permutation_length, sorted_perm. Qed.

Lemma odd_mod2 n : (n mod 2 = 1)%nat <-> Nat.odd n = true.
Proof.
  rewrite <- Nat.bit0_mod, Nat.bit0_odd.
  destruct (Nat.odd n); simpl; split; congruence.
Qed.

Lemma median_ok vs :
  vs <> [] -> statistics.median vs = Ok (middle_value (sorted vs)).
Proof.
  intros Hne. unfold statistics.median, middle_value.
  destruct (decide (length (sorted vs) = 0%nat)) as [E|_].
  { rewrite sorted_length in E. destruct vs; [contradiction|discriminate]. }
  destruct (decide (length (sorted vs) mod 2 = 1)%nat) as [E|E].
  - apply odd_mod2 in E. rewrite E. reflexivity.
  - destruct (Nat.odd (length (sorted vs))) eqn:Eo.
    + apply odd_mod2 in Eo. contradiction.
    + reflexivity.
Qed.

Lemma valid_results_filter r selected :
  valid_results r selected =
  filter (fun v => 0 < v) (omap (method_map_get r) selected).
Proof.
  induction selected as [|m rest IH]; [reflexivity|].
  cbn [valid_results omap list_omap]. destruct (method_map_get r m) as [v|].
  - rewrite filter_cons. destruct (decide (0 < v)); rewrite IH; reflexivity.
  - exact IH.
Qed.

Lemma calculate_statistics_spec (r : TCResults) (selected : list string) :
  let vs := valid_results r selected in
  exists r',
    calculate_statistics r selected = Ok r' /\
    ((2 <= length vs)%nat ->
        tc_average_min r' = Some (arithmetic_mean vs) /\
        tc_std_dev_min r' = Some (sample_std_dev vs) /\
        tc_recommended_min r' = Some (middle_value (sorted vs))) /\
    (forall v, vs = [v] ->
        tc_average_min r' = Some v /\ tc_std_dev_min r' = Some 0 /\
        tc_recommended_min r' = Some v) /\
    (vs = [] ->
        tc_average_min r' = tc_average_min r /\
        tc_std_dev_min r' = tc_std_dev_min r /\
        tc_recommended_min r' = tc_recommended_min r).
Proof.
  intros vs. unfold calculate_statistics. fold vs.
  destruct (decide (2 <= length vs)%nat) as [H2|H2].
  - unfold statistics.mean, statistics.stdev.
    destruct (decide (length vs < 1)%nat); [lia|]. ok_step.
    destruct (decide (1 < length vs)%nat); [|lia].
    destruct (decide (length vs < 2)%nat); [lia|]. ok_step.
    rewrite median_ok by (destruct vs; [simpl in H2; lia|discriminate]). ok_step.
    eexists. split; [reflexivity|]. simpl. split; [|split].
    + intros _. auto.
    + intros v E. rewrite E in H2. simpl in H2. lia.
    + intros E. rewrite E in H2. simpl in H2. lia.
  - destruct vs as [|v [|w vs']] eqn:E.
    + eexists. split; [reflexivity|]. split; [|split].
      * simpl. lia.
      * intros v [=].
      * auto.
    + eexists. split; [reflexivity|]. simpl. split; [|split].
      * lia.
      * intros v' [= <-]. auto.
      * intros [=].
    + simpl in H2. lia.
Qed.

Lemma method_map_get_kirpich r : method_map_get r "kirpich" = tc_kirpich_min r.
Proof. reflexivity. Qed.
Lemma method_map_get_faa r : method_map_get r "faa" = tc_faa_min r.
Proof. reflexivity. Qed.
Lemma method_map_get_scs r : method_map_get r "scs" = tc_scs_min r.
Proof. reflexivity. Qed.
Lemma method_map_get_kerby r : method_map_get r "kerby" = tc_kerby_min r.
Proof. reflexivity. Qed.

Lemma three_results_valid :
  valid_results three_results ["kirpich"; "faa"; "scs"] = [10; 20; 30].
Proof.
  cbn [valid_results].
  rewrite method_map_get_kirpich, method_map_get_faa, method_map_get_scs.
  cbn [three_results new_TCResults tc_kirpich_min tc_faa_min tc_scs_min].
  destruct (decide (0 < 10)); [|lra].
  destruct (decide (0 < 20)); [|lra].
  destruct (decide (0 < 30)); [|lra]. reflexivity.
Qed.

Lemma one_result_valid :
  valid_results one_result ["kirpich"; "faa"; "scs"; "kerby"] = [15].
Proof.
  cbn [valid_results].
  rewrite method_map_get_kirpich, method_map_get_faa, method_map_get_scs,
    method_map_get_kerby.
  cbn [one_result new_TCResults tc_kirpich_min tc_faa_min tc_scs_min tc_kerby_min].
  destruct (decide (0 < 15)); [|lra]. reflexivity.
Qed.

Lemma sorted_10_20_30 : sorted [10; 20; 30] = [10; 20; 30].
Proof.
  cbn [sorted insert_sorted].
  destruct (decide (20 <= 30)); [|lra]. cbn [insert_sorted].
  destruct (decide (10 <= 20)); [|lra]. reflexivity.
Qed.

Lemma stats_10_20_30 :
  arithmetic_mean [10; 20; 30] = 20 /\ sample_std_dev [10; 20; 30] = 10
  /\ middle_value (sorted [10; 20; 30]) = 20.
Proof.
  assert (Em : arithmetic_mean [10; 20; 30] = 20).
  { unfold arithmetic_mean. simpl. lra. }
  split; [exact Em|]. split.
  - unfold sample_std_dev. rewrite Em. simpl.
    replace (((10 - 20) * (10 - 20)
              + ((20 - 20) * (20 - 20) + ((30 - 20) * (30 - 20) + 0)))
             / (1 + 1 + 1 - 1)) with (10 * 10) by lra.
    apply sqrt_square. lra.
  - rewrite sorted_10_20_30. reflexivity.
Qed.

(** Claim C4.  On a freshly built result record, [calculate_statistics]
    always returns.  The valid values [vs] are the values of the selected
    methods that are set and positive, in the order of the selection.  With
    two or more of them the average is their arithmetic mean, the standard
    deviation is the sample standard deviation (denominator [n - 1]) and the
    recommended value is the median: the middle value of [sorted vs], which
    is [vs] put in order.  With exactly one valid value [v] the average is
    [v], the standard deviation 0 and the recommended value [v].  With none
    the three fields are [None].  For [10, 20, 30] the mean is 20, the sample
    standard deviation 10 and the median 20. *)
Theorem comparative_statistics (id : string) (p : TCParameters)
    (kirpich faa scs kerby : option R) (selected : list string) :
  let r := new_TCResults id p kirpich faa scs kerby in
  let vs := valid_results r selected in
  vs = filter (fun v => 0 < v) (omap (method_map_get r) selected) /\
  Permutation vs (sorted vs) /\ Sorted Rle (sorted vs) /\
  (exists r',
    calculate_statistics r selected = Ok r' /\
    ((2 <= length vs)%nat ->
        tc_average_min r' = Some (arithmetic_mean vs) /\
        tc_std_dev_min r' = Some (sample_std_dev vs) /\
        tc_recommended_min r' = Some (middle_value (sorted vs))) /\
    (forall v, vs = [v] ->
        tc_average_min r' = Some v /\ tc_std_dev_min r' = Some 0 /\
        tc_recommended_min r' = Some v) /\
    (vs = [] ->
        tc_average_min r' = None /\ tc_std_dev_min r' = None /\
        tc_recommended_min r' = None)) /\
  (arithmetic_mean [10; 20; 30] = 20 /\ sample_std_dev [10; 20; 30] = 10
   /\ middle_value (sorted [10; 20; 30]) = 20).
Proof.
  intros r vs. split; [apply valid_results_filter|].
  split; [apply sorted_perm|]. split; [apply sorted_Sorted|].
  split; [|exact stats_10_20_30].
  destruct (calculate_statistics_spec r selected) as (r' & E & H2 & H1 & H0).
  exists r'. split; [exact E|]. split; [exact H2|]. split; [exact H1|].
  intros E0. exact (H0 E0).
Qed.

Lemma comparative_statistics_witness :
  (exists r',
    calculate_statistics three_results ["kirpich"; "faa"; "scs"] = Ok r' /\
    tc_average_min r' = Some 20 /\ tc_std_dev_min r' = Some 10 /\
    tc_recommended_min r' = Some 20)
  /\ (exists r',
    calculate_statistics one_result ["kirpich"; "faa"; "scs"; "kerby"] = Ok r' /\
    tc_average_min r' = Some 15 /\ tc_std_dev_min r' = Some 0 /\
    tc_recommended_min r' = Some 15).
Proof.
  split.
  - destruct (comparative_statistics "B1" example_parameters
                (Some 10) (Some 20) (Some 30) None ["kirpich"; "faa"; "scs"])
      as (_ & _ & _ & (r' & E & H2 & _ & _) & (Ea & Es & Em)).
    fold three_results in E, H2. rewrite three_results_valid in H2.
    destruct H2 as (A1 & A2 & A3); [simpl; lia|].
    exists r'. rewrite A1, A2, A3, Ea, Es, Em. auto.
  - destruct (comparative_statistics "B1" example_parameters
                (Some 15) None None None ["kirpich"; "faa"; "scs"; "kerby"])
      as (_ & _ & _ & (r' & E & _ & H1 & _) & _).
    fold one_result in E, H1. rewrite one_result_valid in H1.
    exists r'. split; [exact E|]. apply H1. reflexivity.
Defined.

(* ===================================================================== *)
(** ** The soil-group parsers *)
(* ===================================================================== *)

Lemma in_ABCD_cases g :
  in_ABCD g = true -> g = "A" \/ g = "B" \/ g = "C" \/ g = "D".
Proof.
  unfold in_ABCD. intros Hg. apply bool_decide_eq_true in Hg.
  repeat (apply elem_of_cons in Hg as [-> | Hg]; [tauto|]).
  apply elem_of_nil in Hg. contradiction.
Qed.

Lemma lower_recognized g :
  in_ABCD g = true -> str_lower g ∈ ["a"; "b"; "c"; "d"].
Proof.
  intros Hg. destruct (in_ABCD_cases g Hg) as [-> | [-> | [-> | ->]]];
    cbv; set_solver.
Qed.

Lemma cn_parse_value raw :
  (CN.parse_soil_group raw).1 =
    if recognized raw then str_lower (resolved raw) else "d".
Proof.
  unfold CN.parse_soil_group, recognized, resolved, split_resolution.
  destruct (str_contains "/" _).
  - destruct (str_split "/" _) as [|p0 [|p1 ps]];
      cbv zeta; destruct (in_ABCD _); reflexivity.
  - cbv zeta. destruct (in_ABCD _); reflexivity.
Qed.

Lemma c_parse_value raw :
  (RationalC.parse_soil_group (Some raw)).1 =
    if recognized raw then Some (str_lower (resolved raw)) else None.
Proof.
  destruct raw as [|c raw]; [reflexivity|].
  unfold RationalC.parse_soil_group, recognized, resolved, split_resolution.
  destruct (str_contains "/" _).
  - destruct (str_split "/" _) as [|p0 [|p1 ps]];
      cbv zeta; destruct (in_ABCD _); reflexivity.
  - cbv zeta. destruct (in_ABCD _); reflexivity.
Qed.

Lemma cn_parse_range raw : (CN.parse_soil_group raw).1 ∈ ["a"; "b"; "c"; "d"].
Proof.
  rewrite cn_parse_value. unfold recognized.
  destruct (in_ABCD (resolved raw)) eqn:E; [apply lower_recognized, E|set_solver].
Qed.

Lemma cn_parse_fixed g :
  g ∈ ["a"; "b"; "c"; "d"] -> CN.parse_soil_group g = (g, []).
Proof.
  intros Hg. repeat (apply elem_of_cons in Hg as [-> | Hg]; [reflexivity|]).
  apply elem_of_nil in Hg. contradiction.
Qed.

Lemma cn_parse_idempotent raw :
  (CN.parse_soil_group (CN.parse_soil_group raw).1).1 = (CN.parse_soil_group raw).1.
Proof. rewrite (cn_parse_fixed _ (cn_parse_range raw)). reflexivity. Qed.

Lemma c_parse_range o g :
  (RationalC.parse_soil_group o).1 = Some g -> g ∈ ["a"; "b"; "c"; "d"].
Proof.
  destruct o as [raw|]; [|discriminate].
  rewrite c_parse_value. unfold recognized.
  destruct (in_ABCD (resolved raw)) eqn:E; [|discriminate].
  intros [= <-]. apply lower_recognized, E.
Qed.

Lemma c_parse_fixed g :
  g ∈ ["a"; "b"; "c"; "d"] -> RationalC.parse_soil_group (Some g) = (Some g, []).
Proof.
  intros Hg. repeat (apply elem_of_cons in Hg as [-> | Hg]; [reflexivity|]).
  apply elem_of_nil in Hg. contradiction.
Qed.

Lemma c_parse_idempotent o :
  (RationalC.parse_soil_group (RationalC.parse_soil_group o).1).1
    = (RationalC.parse_soil_group o).1.
Proof.
  destruct (RationalC.parse_soil_group o).1 as [g|] eqn:E; [|reflexivity].
  rewrite (c_parse_fixed g (c_parse_range o g E)). reflexivity.
Qed.

Lemma str_split_nonempty c s : str_split c s <> [].
Proof.
  induction s as [|x s IH]; simpl; [discriminate|].
  destruct (decide (x = c)); [discriminate|].
  destruct (str_split c s); [contradiction|discriminate].
Qed.

(** When the separator occurs, [split] gives at least two components. *)
Lemma str_split_contains c s :
  str_contains c s = true -> exists p0 p1 ps, str_split c s = p0 :: p1 :: ps.
Proof.
  induction s as [|x s IH]; simpl; [discriminate|].
  destruct (decide (x = c)) as [E|E].
  - intros _. pose proof (str_split_nonempty c s).
    destruct (str_split c s) as [|p1 ps]; [contradiction|]. eauto.
  - intros Hc. destruct (IH Hc) as (p0 & p1 & ps & ->). eauto.
Qed.

Lemma split_resolution_second s :
  str_contains "/" s = true ->
  exists p0 p1 ps, str_split "/" s = p0 :: p1 :: ps /\
                   split_resolution s = str_strip p1.
Proof.
  intros Hc. destruct (str_split_contains _ _ Hc) as (p0 & p1 & ps & E).
  exists p0, p1, ps. split; [exact E|].
  unfold split_resolution. rewrite Hc, E. reflexivity.
Qed.

Lemma str_rstrip_idem s : str_rstrip (str_rstrip s) = str_rstrip s.
Proof.
  induction s as [|c s IH]; [reflexivity|]. cbn [str_rstrip].
  destruct (str_rstrip s) as [|d t] eqn:E.
  - destruct (is_space c) eqn:Ec; [reflexivity|].
    cbn [str_rstrip]. rewrite Ec. reflexivity.
  - cbn [str_rstrip] in *. rewrite IH. reflexivity.
Qed.

Lemma str_lstrip_starts s : starts_nonspace (str_lstrip s).
Proof.
  induction s as [|c s IH]; simpl; [exact I|].
  destruct (is_space c) eqn:E; [exact IH|exact E].
Qed.

Lemma str_rstrip_starts s : starts_nonspace s -> starts_nonspace (str_rstrip s).
Proof.
  destruct s as [|c s]; [trivial|]. cbn [str_rstrip starts_nonspace]. intros Hc.
  destruct (str_rstrip s); [rewrite Hc|]; exact Hc.
Qed.

Lemma str_lstrip_id s : starts_nonspace s -> str_lstrip s = s.
Proof. destruct s as [|c s]; [reflexivity|]. simpl. intros ->. reflexivity. Qed.

Lemma str_strip_idem s : str_strip (str_strip s) = str_strip s.
Proof.
  unfold str_strip.
  rewrite (str_lstrip_id (str_rstrip (str_lstrip s))).
  - apply str_rstrip_idem.
  - apply str_rstrip_starts, str_lstrip_starts.
Qed.

Lemma resolved_strip raw : resolved (str_strip raw) = resolved raw.
Proof. unfold resolved. rewrite str_strip_idem. reflexivity. Qed.

Lemma recognized_strip raw : recognized (str_strip raw) = recognized raw.
Proof. unfold recognized. rewrite resolved_strip. reflexivity. Qed.

Lemma is_space_bool c : is_space c = bool_decide (c ∈ ascii_whitespace).
Proof. destruct c as [[] [] [] [] [] [] [] []]; reflexivity. Qed.

Lemma is_space_whitespace c : is_space c = true <-> c ∈ ascii_whitespace.
Proof. rewrite is_space_bool. apply bool_decide_eq_true. Qed.

Lemma str_lstrip_whitespace w s :
  all_whitespace w -> str_lstrip (w +:+ s) = str_lstrip s.
Proof.
  induction w as [|c w IH]; [reflexivity|]. intros [Hc Hw]. simpl.
  apply is_space_whitespace in Hc. rewrite Hc. apply IH, Hw.
Qed.

Lemma str_rstrip_all_whitespace w : all_whitespace w -> str_rstrip w = EmptyString.
Proof.
  induction w as [|c w IH]; [reflexivity|]. intros [Hc Hw]. cbn [str_rstrip].
  rewrite (IH Hw). apply is_space_whitespace in Hc. rewrite Hc. reflexivity.
Qed.

Lemma str_rstrip_whitespace s w :
  all_whitespace w -> str_rstrip (s +:+ w) = str_rstrip s.
Proof.
  intros Hw. induction s as [|c s IH]; [apply str_rstrip_all_whitespace, Hw|].
  simpl. rewrite IH. reflexivity.
Qed.

Lemma str_strip_whitespace w1 s w2 :
  all_whitespace w1 -> all_whitespace w2 ->
  str_strip (w1 +:+ s +:+ w2) = str_strip s.
Proof.
  intros H1 H2. unfold str_strip. rewrite (str_lstrip_whitespace w1 _ H1).
  induction s as [|c s IH].
  - change (EmptyString +:+ w2) with w2.
    assert (E : str_lstrip w2 = EmptyString).
    { clear -H2. induction w2 as [|d w IH]; [reflexivity|]. destruct H2 as [Hd Hw].
      cbn [str_lstrip]. apply is_space_whitespace in Hd. rewrite Hd. apply IH, Hw. }
    rewrite E. reflexivity.
  - simpl. destruct (is_space c); [exact IH|].
    apply (str_rstrip_whitespace (String c s) w2 H2).
Qed.

Lemma str_lstrip_decompose s :
  exists w, all_whitespace w /\ s = w +:+ str_lstrip s.
Proof.
  induction s as [|c s (w & Hw & E)]; [exists EmptyString; split; [exact I|reflexivity]|].
  cbn [str_lstrip]. destruct (is_space c) eqn:Ec.
  - exists (String c w). split; [split; [apply is_space_whitespace, Ec|exact Hw]|].
    change (String c s = String c (w +:+ str_lstrip s)). f_equal. exact E.
  - exists EmptyString. split; [exact I|reflexivity].
Qed.

Lemma str_rstrip_decompose s :
  exists w, all_whitespace w /\ s = str_rstrip s +:+ w.
Proof.
  induction s as [|c s (w & Hw & E)]; [exists EmptyString; split; [exact I|reflexivity]|].
  cbn [str_rstrip]. destruct (str_rstrip s) as [|d t] eqn:Er.
  - destruct (is_space c) eqn:Ec.
    + exists (String c w). split; [split; [apply is_space_whitespace, Ec|exact Hw]|].
      change (String c s = String c w). f_equal. exact E.
    + exists w. split; [exact Hw|].
      change (String c s = String c w). f_equal. exact E.
  - exists w. split; [exact Hw|].
    change (String c s = String c (String d t +:+ w)). f_equal. exact E.
Qed.

Lemma str_strip_decompose s :
  exists w1 w2, all_whitespace w1 /\ all_whitespace w2 /\
                s = w1 +:+ str_strip s +:+ w2.
Proof.
  destruct (str_lstrip_decompose s) as (w1 & H1 & E1).
  destruct (str_rstrip_decompose (str_lstrip s)) as (w2 & H2 & E2).
  exists w1, w2. split; [exact H1|]. split; [exact H2|].
  unfold str_strip. rewrite <- E2. exact E1.
Qed.

Lemma parse_whitespace w1 raw w2 :
  all_whitespace w1 -> all_whitespace w2 ->
  (CN.parse_soil_group (w1 +:+ raw +:+ w2)).1 = (CN.parse_soil_group raw).1 /\
  (RationalC.parse_soil_group (Some (w1 +:+ raw +:+ w2))).1
    = (RationalC.parse_soil_group (Some raw)).1.
Proof.
  intros H1 H2. rewrite !cn_parse_value, !c_parse_value.
  unfold recognized, resolved. rewrite (str_strip_whitespace w1 raw w2 H1 H2).
  split; reflexivity.
Qed.

(** Claim C5.  Both parsers trim and upper-case the raw string, replace it by
    the trimmed component after the first ['/'] when there is one, and test
    the outcome against A, B, C, D: a recognized group is returned in lower
    case; otherwise the Rational-C parser returns [None] and the CN parser
    returns its default ['d'] with a warning.  "A/D", "B/D" and "C/D" give
    ['d'], "a" gives ['a'], "Water" is not recognized.  Both parsers are
    idempotent.  (Purity: the parsers are functions of their argument; their
    only effect, the log, is part of the value here.)

    Trimming is this: the characters removed are exactly TAB, LF, VT, FF, CR,
    FS, GS, RS, US and the space; every string is its trimmed form with such
    characters before and after it, and nothing else is removed; white space
    put before and after a raw string changes neither its trimmed form nor
    what either parser returns.  So " a " gives ['a'], " B/D " and "A / D"
    give ['d'], and a 'c' between a TAB and a line feed gives ['c']. *)
Theorem soil_group_normalizer (raw : string) :
  (CN.parse_soil_group raw).1
    = (if recognized raw then str_lower (resolved raw) else "d") /\
  (RationalC.parse_soil_group (Some raw)).1
    = (if recognized raw then Some (str_lower (resolved raw)) else None) /\
  (forall s, str_contains "/" s = true ->
     exists p0 p1 ps, str_split "/" s = p0 :: p1 :: ps /\
                      split_resolution s = str_strip p1) /\
  (CN.parse_soil_group raw).1 ∈ ["a"; "b"; "c"; "d"] /\
  (CN.parse_soil_group (CN.parse_soil_group raw).1).1 = (CN.parse_soil_group raw).1 /\
  (forall o, (RationalC.parse_soil_group (RationalC.parse_soil_group o).1).1
             = (RationalC.parse_soil_group o).1) /\
  ((CN.parse_soil_group "A/D").1 = "d" /\ (CN.parse_soil_group "B/D").1 = "d" /\
   (CN.parse_soil_group "C/D").1 = "d" /\ (CN.parse_soil_group "a").1 = "a" /\
   CN.parse_soil_group "Water"
     = ("d", [(Warning, "Warning: Invalid soil group 'Water', using 'd' as default")])) /\
  ((RationalC.parse_soil_group (Some "A/D")).1 = Some "d" /\
   (RationalC.parse_soil_group (Some "B/D")).1 = Some "d" /\
   (RationalC.parse_soil_group (Some "C/D")).1 = Some "d" /\
   (RationalC.parse_soil_group (Some "a")).1 = Some "a" /\
   (RationalC.parse_soil_group (Some "Water")).1 = None /\
   recognized "Water" = false) /\
  (forall c, is_space c = true <-> c ∈ ascii_whitespace) /\
  (exists w1 w2, all_whitespace w1 /\ all_whitespace w2 /\
                 raw = w1 +:+ str_strip raw +:+ w2) /\
  (forall w1 w2, all_whitespace w1 -> all_whitespace w2 ->
     str_strip (w1 +:+ raw +:+ w2) = str_strip raw /\
     (CN.parse_soil_group (w1 +:+ raw +:+ w2)).1 = (CN.parse_soil_group raw).1 /\
     (RationalC.parse_soil_group (Some (w1 +:+ raw +:+ w2))).1
       = (RationalC.parse_soil_group (Some raw)).1) /\
  (str_strip "  B/D  " = "B/D" /\ str_strip " A " = "A" /\
   str_strip "b c" = "b c" /\ str_upper "b/d" = "B/D") /\
  ((CN.parse_soil_group " a ").1 = "a" /\ (CN.parse_soil_group " B/D ").1 = "d" /\
   (CN.parse_soil_group "A / D").1 = "d" /\ (CN.parse_soil_group "b/d").1 = "d" /\
   (CN.parse_soil_group (String "009" (String "c" (String "010" EmptyString)))).1
     = "c" /\
   (CN.parse_soil_group "B ").1 = "b" /\ (CN.parse_soil_group " D").1 = "d") /\
  ((RationalC.parse_soil_group (Some " a ")).1 = Some "a" /\
   (RationalC.parse_soil_group (Some " b/d ")).1 = Some "d" /\
   (RationalC.parse_soil_group (Some "A / D")).1 = Some "d" /\
   (RationalC.parse_soil_group
      (Some (String "009" (String "c" (String "010" EmptyString))))).1 = Some "c" /\
   (RationalC.parse_soil_group (Some "   ")).1 = None).
Proof.
  split; [apply cn_parse_value|]. split; [apply c_parse_value|].
  split; [apply split_resolution_second|]. split; [apply cn_parse_range|].
  split; [apply cn_parse_idempotent|]. split; [apply c_parse_idempotent|].
  split; [repeat split; reflexivity|]. split; [repeat split; reflexivity|].
  split; [apply is_space_whitespace|]. split; [apply str_strip_decompose|].
  split.
  { intros w1 w2 H1 H2. split; [apply str_strip_whitespace; assumption|].
    apply parse_whitespace; assumption. }
  split; [repeat split; reflexivity|]. split; repeat split; reflexivity.
Qed.

Lemma soil_group_normalizer_witness :
  (exists p0 p1 ps, str_split "/" "B/D" = p0 :: p1 :: ps /\
                    split_resolution "B/D" = str_strip p1) /\
  (CN.parse_soil_group (" " +:+ "b/d" +:+ "  ")).1 = (CN.parse_soil_group "b/d").1.
Proof.
  split.
  - destruct (soil_group_normalizer "B/D") as (_ & _ & Hs & _).
    apply Hs. reflexivity.
  - destruct (soil_group_normalizer "b/d")
      as (_ & _ & _ & _ & _ & _ & _ & _ & _ & _ & Hw & _).
    apply (Hw " " "  ").
    + split; [apply is_space_whitespace; reflexivity|exact I].
    + split; [apply is_space_whitespace; reflexivity|].
      split; [apply is_space_whitespace; reflexivity|exact I].
Defined.

(* ===================================================================== *)
(** ** Area-weighted sums *)
(* ===================================================================== *)

Lemma Rsum_Permutation l l' : Permutation l l' -> Rsum l = Rsum l'.
Proof. induction 1; simpl; lra. Qed.

Section WeightedMeanFacts.
Context {K : Type} `{EqDecision K}.
Variable value_of : Feature K -> option R.



Lemma contribution_hit z f v :
  zone_attr f = z -> value_of f = Some v ->
  contribution value_of z f
    = Some (acres_from_sqft (geometry_area f),
            v * acres_from_sqft (geometry_area f)).
Proof.
  intros Hz Hv. unfold contribution.
  destruct (decide (zone_attr f = z)); [|contradiction]. rewrite Hv. reflexivity.
Qed.

Lemma contribution_skip z f :
  zone_attr f <> z \/ value_of f = None -> contribution value_of z f = None.
Proof.
  intros Hs. unfold contribution.
  destruct (decide (zone_attr f = z)) as [E|E]; [|reflexivity].
  destruct Hs as [?| ->]; [contradiction|reflexivity].
Qed.

Lemma sums_cons_hit z f fs v :
  zone_attr f = z -> value_of f = Some v ->
  sum_area value_of z (f :: fs)
    = acres_from_sqft (geometry_area f) + sum_area value_of z fs /\
  sum_value_area value_of z (f :: fs)
    = v * acres_from_sqft (geometry_area f) + sum_value_area value_of z fs.
Proof.
  intros Hz Hv. unfold sum_area, sum_value_area, contributions.
  cbn [omap list_omap]. rewrite (contribution_hit z f v Hz Hv). split; reflexivity.
Qed.

Lemma sums_cons_skip z f fs :
  zone_attr f <> z \/ value_of f = None ->
  sum_area value_of z (f :: fs) = sum_area value_of z fs /\
  sum_value_area value_of z (f :: fs) = sum_value_area value_of z fs.
Proof.
  intros Hs. unfold sum_area, sum_value_area, contributions.
  cbn [omap list_omap]. rewrite (contribution_skip z f Hs). split; reflexivity.
Qed.

Lemma sums_nil z : sum_area value_of z [] = 0 /\ sum_value_area value_of z [] = 0.
Proof. split; reflexivity. Qed.
End WeightedMeanFacts.

(* ===================================================================== *)
(** ** The CN loop *)
(* ===================================================================== *)

Section CNLoop.
Context {K : Type} `{Countable K}.
Variable cn_lookup : gmap (string * string) R.

Lemma cn_loop_body_miss (st : CN.State K) (f : Feature K) :
  CN.feature_cn cn_lookup f = None -> CN.loop_body cn_lookup st f = st.
Proof.
  unfold CN.feature_cn, CN.loop_body. intros ->. reflexivity.
Qed.

Lemma cn_loop_body_hit (st : CN.State K) (f : Feature K) (v : R) :
  CN.feature_cn cn_lookup f = Some v ->
  exists e,
    (CN.loop_body cn_lookup st f).1 = <[zone_attr f := e]> st.1 /\
    CN.total_area e
      = cn_zone_total st.1 (zone_attr f) + acres_from_sqft (geometry_area f) /\
    CN.cn_area_sum e
      = cn_zone_sum st.1 (zone_attr f) + v * acres_from_sqft (geometry_area f).
Proof.
  unfold CN.feature_cn, CN.loop_body, cn_zone_total, cn_zone_sum. intros ->.
  eexists. split; [reflexivity|].
  destruct (st.1 !! zone_attr f); split; reflexivity.
Qed.

Lemma cn_loop_body_totals (st : CN.State K) (f : Feature K) (z : K)
    (fs : list (Feature K)) :
  let st' := CN.loop_body cn_lookup st f in
  cn_zone_total st'.1 z + sum_area (CN.feature_cn cn_lookup) z fs
    = cn_zone_total st.1 z + sum_area (CN.feature_cn cn_lookup) z (f :: fs) /\
  cn_zone_sum st'.1 z + sum_value_area (CN.feature_cn cn_lookup) z fs
    = cn_zone_sum st.1 z + sum_value_area (CN.feature_cn cn_lookup) z (f :: fs).
Proof.
  intros st'. subst st'.
  destruct (CN.feature_cn cn_lookup f) as [v|] eqn:Ev.
  - destruct (cn_loop_body_hit st f v Ev) as (e & -> & Et & Es).
    destruct (decide (zone_attr f = z)) as [E|E].
    + destruct (sums_cons_hit (CN.feature_cn cn_lookup) z f fs v E Ev) as [-> ->].
      unfold cn_zone_total at 1, cn_zone_sum at 1.
      rewrite E in *. rewrite lookup_insert_eq, Et, Es. split; lra.
    + destruct (sums_cons_skip (CN.feature_cn cn_lookup) z f fs (or_introl E))
        as [-> ->].
      unfold cn_zone_total, cn_zone_sum.
      rewrite lookup_insert_ne by assumption. split; reflexivity.
  - rewrite (cn_loop_body_miss st f Ev).
    destruct (sums_cons_skip (CN.feature_cn cn_lookup) z f fs (or_intror Ev))
      as [-> ->].
    split; reflexivity.
Qed.

Lemma cn_fold_totals (fs : list (Feature K)) :
  forall (st : CN.State K) (z : K),
    let st' := fold_left (CN.loop_body cn_lookup) fs st in
    cn_zone_total st'.1 z
      = cn_zone_total st.1 z + sum_area (CN.feature_cn cn_lookup) z fs /\
    cn_zone_sum st'.1 z
      = cn_zone_sum st.1 z + sum_value_area (CN.feature_cn cn_lookup) z fs.
Proof.
  induction fs as [|f fs IH]; intros st z; cbn [fold_left].
  - unfold sum_area, sum_value_area. simpl. split; lra.
  - destruct (IH (CN.loop_body cn_lookup st f) z) as [-> ->].
    apply cn_loop_body_totals.
Qed.

Lemma cn_run_totals (fs : list (Feature K)) (z : K) :
  cn_zone_total (CN.run_loop cn_lookup fs).1 z
    = sum_area (CN.feature_cn cn_lookup) z fs /\
  cn_zone_sum (CN.run_loop cn_lookup fs).1 z
    = sum_value_area (CN.feature_cn cn_lookup) z fs.
Proof.
  destruct (cn_fold_totals fs (∅, []) z) as [Ht Hs].
  unfold CN.run_loop. rewrite Ht, Hs.
  unfold cn_zone_total, cn_zone_sum. cbn [fst]. rewrite lookup_empty. split; lra.
Qed.

Lemma cn_fold_absent (fs : list (Feature K)) (z : K) :
  Forall (fun f => zone_attr f = z -> CN.feature_cn cn_lookup f = None) fs ->
  forall st : CN.State K,
    (fold_left (CN.loop_body cn_lookup) fs st).1 !! z = st.1 !! z.
Proof.
  induction 1 as [|f fs Hf _ IH]; intros st; cbn [fold_left]; [reflexivity|].
  rewrite IH. destruct (CN.feature_cn cn_lookup f) as [v|] eqn:Ev.
  - destruct (cn_loop_body_hit st f v Ev) as (e & -> & _).
    apply lookup_insert_ne. intros E. specialize (Hf E). discriminate Hf.
  - rewrite (cn_loop_body_miss st f Ev). reflexivity.
Qed.

Lemma cn_comp_total (fs : list (Feature K)) (z : K) :
  let data := (CN.run_loop cn_lookup fs).1 in
  CN.cn_comp cn_lookup fs z =
    if decide (0 < cn_zone_total data z)
    then Some (cn_zone_sum data z / cn_zone_total data z) else None.
Proof.
  intros data. unfold CN.cn_comp, CN.output_attributes, cn_zone_total, cn_zone_sum.
  fold data. destruct (data !! z) as [e|].
  - destruct (decide (0 < CN.total_area e)); reflexivity.
  - destruct (decide (0 < 0)); [lra|reflexivity].
Qed.

Lemma cn_comp_weighted_mean (fs : list (Feature K)) (z : K) :
  CN.cn_comp cn_lookup fs z = weighted_mean (CN.feature_cn cn_lookup) z fs.
Proof.
  rewrite cn_comp_total. destruct (cn_run_totals fs z) as [-> ->]. reflexivity.
Qed.

(** The header row of the detailed CSV carries the composite of the output
    layer, rounded to two decimals, whenever the subbasin has accumulated
    area. *)
Lemma csv_cn_composite_positive (fs : list (Feature K)) (z : K) :
  let data := (CN.run_loop cn_lookup fs).1 in
  0 < cn_zone_total data z ->
  CN.csv_cn_composite data z
    = (fun v => py_round v 2) <$> CN.cn_comp cn_lookup fs z.
Proof.
  intros data Hpos. rewrite cn_comp_total. fold data.
  unfold CN.csv_cn_composite, cn_zone_total, cn_zone_sum in *.
  destruct (data !! z) as [e|]; [|lra]. cbn [mbind option_bind]. cbv zeta.
  destruct (decide (0 < CN.total_area e)); [reflexivity|lra].
Qed.
End CNLoop.

(* ===================================================================== *)
(** ** The Rational-C loop *)
(* ===================================================================== *)

Section RationalCLoop.
Context {K : Type} `{Countable K}.
Variable c_lookup_df : gmap (string * string) R.
Variable suffix : RationalC.slope_category.

Lemma c_loop_body_miss (st : RationalC.State K) (f : Feature K) :
  RationalC.feature_c c_lookup_df suffix f = None ->
  RationalC.loop_body c_lookup_df suffix st f = st.
Proof.
  unfold RationalC.feature_c, RationalC.loop_body.
  destruct (RationalC.parse_soil_group (Some (soil_attr f))).1 as [g|];
    [|discriminate].
  intros ->. reflexivity.
Qed.

Lemma c_loop_body_hit (st : RationalC.State K) (f : Feature K) (v : R) :
  RationalC.feature_c c_lookup_df suffix f = Some v ->
  exists e,
    (RationalC.loop_body c_lookup_df suffix st f).1 = <[zone_attr f := e]> st.1 /\
    RationalC.total_area e
      = c_zone_total st.1 (zone_attr f) + acres_from_sqft (geometry_area f) /\
    RationalC.c_area_sum e
      = c_zone_sum st.1 (zone_attr f) + v * acres_from_sqft (geometry_area f).
Proof.
  unfold RationalC.feature_c, RationalC.loop_body, c_zone_total, c_zone_sum.
  destruct (RationalC.parse_soil_group (Some (soil_attr f))).1 as [g|].
  - intros ->. eexists. split; [reflexivity|].
    destruct (st.1 !! zone_attr f); split; reflexivity.
  - intros [= <-]. eexists. split; [reflexivity|].
    destruct (st.1 !! zone_attr f); split; reflexivity.
Qed.

Lemma c_loop_body_totals (st : RationalC.State K) (f : Feature K) (z : K)
    (fs : list (Feature K)) :
  let st' := RationalC.loop_body c_lookup_df suffix st f in
  let value_of := RationalC.feature_c c_lookup_df suffix in
  c_zone_total st'.1 z + sum_area value_of z fs
    = c_zone_total st.1 z + sum_area value_of z (f :: fs) /\
  c_zone_sum st'.1 z + sum_value_area value_of z fs
    = c_zone_sum st.1 z + sum_value_area value_of z (f :: fs).
Proof.
  intros st' value_of. subst st'.
  destruct (RationalC.feature_c c_lookup_df suffix f) as [v|] eqn:Ev.
  - destruct (c_loop_body_hit st f v Ev) as (e & -> & Et & Es).
    destruct (decide (zone_attr f = z)) as [E|E].
    + destruct (sums_cons_hit value_of z f fs v E Ev) as [-> ->].
      unfold c_zone_total at 1, c_zone_sum at 1.
      rewrite E in *. rewrite lookup_insert_eq, Et, Es. split; lra.
    + destruct (sums_cons_skip value_of z f fs (or_introl E)) as [-> ->].
      unfold c_zone_total, c_zone_sum.
      rewrite lookup_insert_ne by assumption. split; reflexivity.
  - rewrite (c_loop_body_miss st f Ev).
    destruct (sums_cons_skip value_of z f fs (or_intror Ev)) as [-> ->].
    split; reflexivity.
Qed.

Lemma c_fold_totals (fs : list (Feature K)) :
  forall (st : RationalC.State K) (z : K),
    let st' := fold_left (RationalC.loop_body c_lookup_df suffix) fs st in
    let value_of := RationalC.feature_c c_lookup_df suffix in
    c_zone_total st'.1 z = c_zone_total st.1 z + sum_area value_of z fs /\
    c_zone_sum st'.1 z = c_zone_sum st.1 z + sum_value_area value_of z fs.
Proof.
  induction fs as [|f fs IH]; intros st z; cbn [fold_left].
  - unfold sum_area, sum_value_area. simpl. split; lra.
  - destruct (IH (RationalC.loop_body c_lookup_df suffix st f) z) as [-> ->].
    apply c_loop_body_totals.
Qed.

Lemma c_run_totals (fs : list (Feature K)) (z : K) :
  let value_of := RationalC.feature_c c_lookup_df suffix in
  c_zone_total (RationalC.run_loop c_lookup_df suffix fs).1 z
    = sum_area value_of z fs /\
  c_zone_sum (RationalC.run_loop c_lookup_df suffix fs).1 z
    = sum_value_area value_of z fs.
Proof.
  intros value_of. subst value_of.
  destruct (c_fold_totals fs (∅, []) z) as [Ht Hs]. cbv zeta in Ht, Hs.
  unfold RationalC.run_loop. rewrite Ht, Hs.
  unfold c_zone_total, c_zone_sum. cbn [fst]. rewrite lookup_empty. split; lra.
Qed.

Lemma c_fold_absent (fs : list (Feature K)) (z : K) :
  Forall (fun f => zone_attr f = z ->
                   RationalC.feature_c c_lookup_df suffix f = None) fs ->
  forall st : RationalC.State K,
    (fold_left (RationalC.loop_body c_lookup_df suffix) fs st).1 !! z = st.1 !! z.
Proof.
  induction 1 as [|f fs Hf _ IH]; intros st; cbn [fold_left]; [reflexivity|].
  rewrite IH. destruct (RationalC.feature_c c_lookup_df suffix f) as [v|] eqn:Ev.
  - destruct (c_loop_body_hit st f v Ev) as (e & -> & _).
    apply lookup_insert_ne. intros E. specialize (Hf E). discriminate Hf.
  - rewrite (c_loop_body_miss st f Ev). reflexivity.
Qed.

Lemma c_comp_total (fs : list (Feature K)) (z : K) :
  let data := (RationalC.run_loop c_lookup_df suffix fs).1 in
  RationalC.c_comp c_lookup_df suffix fs z =
    if decide (0 < c_zone_total data z)
    then Some (c_zone_sum data z / c_zone_total data z) else None.
Proof.
  intros data.
  unfold RationalC.c_comp, RationalC.output_attributes, c_zone_total, c_zone_sum.
  fold data. destruct (data !! z) as [e|].
  - destruct (decide (0 < RationalC.total_area e)); reflexivity.
  - destruct (decide (0 < 0)); [lra|reflexivity].
Qed.

Lemma c_comp_weighted_mean (fs : list (Feature K)) (z : K) :
  RationalC.c_comp c_lookup_df suffix fs z
    = weighted_mean (RationalC.feature_c c_lookup_df suffix) z fs.
Proof.
  rewrite c_comp_total. destruct (c_run_totals fs z) as [-> ->]. reflexivity.
Qed.

Lemma feature_c_cases (f : Feature K) :
  RationalC.feature_c c_lookup_df suffix f =
    if recognized (soil_attr f) then lookup_matched_c c_lookup_df suffix f
    else Some 0.95.
Proof.
  unfold RationalC.feature_c, lookup_matched_c. rewrite c_parse_value.
  destruct (recognized (soil_attr f)); reflexivity.
Qed.
End RationalCLoop.

(* ===================================================================== *)
(** ** The composite value of a zone *)
(* ===================================================================== *)


Lemma example_weighted_mean :
  weighted_mean (CN.feature_cn example_lookup) "A" [fragment_a; fragment_b]
    = Some 82.5.
Proof.
  unfold weighted_mean.
  destruct (sums_cons_hit (CN.feature_cn example_lookup) "A" fragment_a
              [fragment_b] 80 eq_refl eq_refl) as [-> ->].
  destruct (sums_cons_hit (CN.feature_cn example_lookup) "A" fragment_b
              [] 85 eq_refl eq_refl) as [-> ->].
  destruct (sums_nil (CN.feature_cn example_lookup) "A") as [-> ->].
  cbn [fragment_a fragment_b geometry_area]. unfold acres_from_sqft.
  destruct (decide (0 < 10 / 43560 + (10 / 43560 + 0))); [|lra].
  apply (f_equal Some). replace 82.5 with (165 / 2) by lra. field.
Qed.



(* ===================================================================== *)
(** ** Unrecognized soil groups *)
(* ===================================================================== *)

(** Claim C6, as amended.  For a fragment whose soil group is not
    recognized, the two calculators differ.  The CN calculator substitutes
    the group ['d'] and looks up (land use, ['d']): when that key is in the
    table the fragment's area and value-area product are added to its zone,
    when it is not the fragment is skipped and the totals are unchanged.  The
    Rational-C calculator does not consult the table (whatever the table, the
    value is 0.95) and always adds the area, and 0.95 times the area, to the
    zone. *)
Theorem unrecognized_soil_group_policies {K : Type} `{Countable K}
    (cn_lookup c_lookup_df : gmap (string * string) R)
    (suffix : RationalC.slope_category) (f : Feature K) :
  recognized (soil_attr f) = false ->
  let area_acres := acres_from_sqft (geometry_area f) in
  let cn_key := (str_lower (str_strip (landuse_attr f)), "d") in
  ((CN.parse_soil_group (str_strip (soil_attr f))).1 = "d" /\
   CN.feature_cn cn_lookup f = cn_lookup !! cn_key /\
   (forall (st : CN.State K) (v : R), cn_lookup !! cn_key = Some v ->
      let st' := CN.loop_body cn_lookup st f in
      cn_zone_total st'.1 (zone_attr f)
        = cn_zone_total st.1 (zone_attr f) + area_acres /\
      cn_zone_sum st'.1 (zone_attr f)
        = cn_zone_sum st.1 (zone_attr f) + v * area_acres) /\
   (forall st : CN.State K, cn_lookup !! cn_key = None ->
      CN.loop_body cn_lookup st f = st)) /\
  ((RationalC.parse_soil_group (Some (soil_attr f))).1 = None /\
   (forall table, RationalC.feature_c table suffix f = Some 0.95) /\
   (forall st : RationalC.State K,
      let st' := RationalC.loop_body c_lookup_df suffix st f in
      c_zone_total st'.1 (zone_attr f)
        = c_zone_total st.1 (zone_attr f) + area_acres /\
      c_zone_sum st'.1 (zone_attr f)
        = c_zone_sum st.1 (zone_attr f) + 0.95 * area_acres)).
Proof.
  intros Hu area_acres cn_key.
  assert (Ed : (CN.parse_soil_group (str_strip (soil_attr f))).1 = "d").
  { rewrite cn_parse_value, recognized_strip, Hu. reflexivity. }
  assert (Ecn : CN.feature_cn cn_lookup f = cn_lookup !! cn_key).
  { unfold CN.feature_cn. rewrite Ed. reflexivity. }
  assert (Ec : forall table, RationalC.feature_c table suffix f = Some 0.95).
  { intros table. rewrite feature_c_cases, Hu. reflexivity. }
  split; [split; [exact Ed|split; [exact Ecn|split]]|split; [|split; [exact Ec|]]].
  - intros st v Hv. rewrite <- Ecn in Hv.
    destruct (cn_loop_body_hit cn_lookup st f v Hv) as (e & E & Et & Es).
    cbv zeta. rewrite E. unfold cn_zone_total at 1, cn_zone_sum at 1.
    rewrite lookup_insert_eq. split; assumption.
  - intros st Hv. rewrite <- Ecn in Hv. apply cn_loop_body_miss, Hv.
  - rewrite c_parse_value, Hu. reflexivity.
  - intros st.
    destruct (c_loop_body_hit c_lookup_df suffix st f 0.95 (Ec c_lookup_df))
      as (e & E & Et & Es).
    cbv zeta. rewrite E. unfold c_zone_total at 1, c_zone_sum at 1.
    rewrite lookup_insert_eq. split; assumption.
Qed.

(** End-to-end scenario 2: soil "X" under the table of scenario 1. *)
Lemma unrecognized_soil_group_policies_witness :
  CN.feature_cn example_lookup fragment_x = Some 95 /\
  RationalC.feature_c example_lookup RationalC.Slope_0_2 fragment_x = Some 0.95.
Proof.
  destruct (unrecognized_soil_group_policies example_lookup example_lookup
              RationalC.Slope_0_2 fragment_x eq_refl)
    as ((_ & Ecn & _) & (_ & Ec & _)).
  split; [rewrite Ecn; reflexivity|apply Ec].
Defined.

(** Claim C6 fails as stated: in the CN calculator the area of a fragment
    with an unrecognized soil group does not always count.  With land use
    "forest", absent from the table, the fragment is skipped and its zone
    gets no entry, while the Rational-C calculator counts its area. *)
Lemma unrecognized_fragment_skipped_by_cn :
  recognized (soil_attr fragment_forest_x) = false /\
  CN.run_loop example_lookup [fragment_forest_x] = (∅, []) /\
  CN.cn_comp example_lookup [fragment_forest_x] "A" = None /\
  c_zone_total (RationalC.run_loop example_lookup RationalC.Slope_0_2
                  [fragment_forest_x]).1 "A"
    = acres_from_sqft 10.
Proof.
  split; [reflexivity|]. split; [reflexivity|]. split; [reflexivity|].
  destruct (c_run_totals example_lookup RationalC.Slope_0_2 [fragment_forest_x] "A")
    as [-> _].
  destruct (sums_cons_hit (RationalC.feature_c example_lookup RationalC.Slope_0_2)
              "A" fragment_forest_x [] 0.95 eq_refl eq_refl) as [-> _].
  destruct (sums_nil (RationalC.feature_c (K:=string) example_lookup
                        RationalC.Slope_0_2) "A") as [-> _].
  cbn [fragment_forest_x geometry_area]. lra.
Qed.

(* ===================================================================== *)
(** ** Zones without contributing area *)
(* ===================================================================== *)

(** Claim C7.  After a run of either calculator the accumulated area and
    weighted sum of a zone are the sums over its fragments that were given a
    value.  A zone none of whose fragments was given a value has no entry,
    and its two output attributes are null.  Whenever the accumulated area
    of a zone is not positive its composite is null ([None], never [Some 0]);
    whenever it is positive the composite is the weighted sum divided by the
    accumulated area. *)
Theorem zone_without_area_reports_null {K : Type} `{Countable K}
    (cn_lookup c_lookup_df : gmap (string * string) R)
    (suffix : RationalC.slope_category) (fs : list (Feature K)) (z : K) :
  let cn_data := (CN.run_loop cn_lookup fs).1 in
  let c_data := (RationalC.run_loop c_lookup_df suffix fs).1 in
  ((cn_zone_total cn_data z = sum_area (CN.feature_cn cn_lookup) z fs /\
    cn_zone_sum cn_data z = sum_value_area (CN.feature_cn cn_lookup) z fs) /\
   (Forall (fun f => zone_attr f = z -> CN.feature_cn cn_lookup f = None) fs ->
      cn_data !! z = None /\ CN.output_attributes cn_data z = (None, None)) /\
   (cn_zone_total cn_data z <= 0 -> CN.cn_comp cn_lookup fs z = None) /\
   (0 < cn_zone_total cn_data z ->
      CN.cn_comp cn_lookup fs z
        = Some (cn_zone_sum cn_data z / cn_zone_total cn_data z))) /\
  ((c_zone_total c_data z
      = sum_area (RationalC.feature_c c_lookup_df suffix) z fs /\
    c_zone_sum c_data z
      = sum_value_area (RationalC.feature_c c_lookup_df suffix) z fs) /\
   (Forall (fun f => zone_attr f = z ->
                     RationalC.feature_c c_lookup_df suffix f = None) fs ->
      c_data !! z = None /\ RationalC.output_attributes c_data z = (None, None)) /\
   (c_zone_total c_data z <= 0 -> RationalC.c_comp c_lookup_df suffix fs z = None) /\
   (0 < c_zone_total c_data z ->
      RationalC.c_comp c_lookup_df suffix fs z
        = Some (c_zone_sum c_data z / c_zone_total c_data z))).
Proof.
  intros cn_data c_data. split.
  - split; [apply cn_run_totals|]. split; [|split].
    + intros Hn. assert (E : cn_data !! z = None).
      { unfold cn_data, CN.run_loop. rewrite (cn_fold_absent cn_lookup fs z Hn).
        apply lookup_empty. }
      split; [exact E|]. unfold CN.output_attributes. rewrite E. reflexivity.
    + intros Hz. rewrite cn_comp_total. fold cn_data.
      destruct (decide (0 < cn_zone_total cn_data z)); [lra|reflexivity].
    + intros Hz. rewrite cn_comp_total. fold cn_data.
      destruct (decide (0 < cn_zone_total cn_data z)); [reflexivity|lra].
  - split; [apply c_run_totals|]. split; [|split].
    + intros Hn. assert (E : c_data !! z = None).
      { unfold c_data, RationalC.run_loop.
        rewrite (c_fold_absent c_lookup_df suffix fs z Hn). apply lookup_empty. }
      split; [exact E|]. unfold RationalC.output_attributes. rewrite E. reflexivity.
    + intros Hz. rewrite c_comp_total. fold c_data.
      destruct (decide (0 < c_zone_total c_data z)); [lra|reflexivity].
    + intros Hz. rewrite c_comp_total. fold c_data.
      destruct (decide (0 < c_zone_total c_data z)); [reflexivity|lra].
Qed.

(** End-to-end scenario 4: zone "B" has no fragment at all, and zone "A"
    has none that matches once its only fragment is of land use "forest". *)
Lemma zone_without_area_reports_null_witness :
  CN.output_attributes (CN.run_loop example_lookup [fragment_a; fragment_b]).1 "B"
    = (None, None) /\
  CN.output_attributes (CN.run_loop example_lookup [fragment_forest_x]).1 "A"
    = (None, None).
Proof.
  split.
  - destruct (zone_without_area_reports_null example_lookup ∅ RationalC.Slope_0_2
                [fragment_a; fragment_b] "B") as ((_ & Hn & _) & _).
    apply Hn. repeat constructor; discriminate.
  - destruct (zone_without_area_reports_null example_lookup ∅ RationalC.Slope_0_2
                [fragment_forest_x] "A") as ((_ & Hn & _) & _).
    apply Hn. repeat constructor.
Defined.

(* ===================================================================== *)
(** ** Properties of the four methods *)
(* ===================================================================== *)

Lemma Rmax_5_le x y : x <= y -> Rmax x 5 <= Rmax y 5.
Proof. intros Hxy. unfold Rmax. repeat destruct (Rle_dec _ _); lra. Qed.

Lemma is_ok_Ok {A} (m : result A) : is_ok m -> exists v, m = Ok v.
Proof. destruct m; [eauto|contradiction]. Qed.

Lemma kerby_value p :
  0 <= flow_length_ft p ->
  exists a, KerbyMethod.calculate p = Ok (Rmax (1.44 * a) 5).
Proof.
  intros HL. unfold KerbyMethod.calculate.
  pose proof (slope_floor_pos (slope_ft_ft p)) as HS.
  rewrite math_sqrt_ok by lra. ok_step.
  pose proof (sqrt_lt_R0 (Rmax (slope_ft_ft p) 0.001) ltac:(lra)) as Hr.
  rewrite py_div_ok by lra. ok_step.
  set (n := Rmax 0.02 (Rmin 0.8 _)).
  assert (Hn' : 0.02 <= n <= 0.8) by (apply clamp_bounds; lra).
  assert (Hq : 0 <= n * flow_length_ft p / sqrt (Rmax (slope_ft_ft p) 0.001)).
  { apply Rmult_le_pos; [apply Rmult_le_pos; lra|]. left. apply Rinv_0_lt_compat. lra. }
  destruct (py_pow_nonneg_ok _ 0.467 Hq ltac:(lra)) as (a & -> & Ha).
  exists a. reflexivity.
Qed.

Lemma kirpich_value p :
  0 <= flow_length_ft p ->
  exists a, KirpichMethod.calculate p = Ok (Rmax a 5).
Proof.
  intros HL. unfold KirpichMethod.calculate.
  destruct (py_pow_nonneg_ok (flow_length_ft p) 0.77 HL ltac:(lra)) as (a & -> & Ha).
  pose proof (slope_floor_pos (slope_ft_ft p)) as HS. ok_step.
  rewrite (py_pow_pos (Rmax _ _)) by lra. ok_step.
  rewrite py_div_ok.
  2:{ pose proof (Rpower_pos (Rmax (slope_ft_ft p) 0.001) 0.385). lra. }
  eexists. reflexivity.
Qed.

(** Property X1.  Whatever the slope and the optional coefficients, each of
    the four registered methods returns a value for a parameter record whose
    flow length is not negative, and that value is at least 5 minutes: no
    method raises and none goes below the minimum time of concentration. *)
Theorem every_method_returns_at_least_five (p : TCParameters) (name : string) :
  0 <= flow_length_ft p ->
  name ∈ TCMethodFactory.get_available_methods ->
  exists calculate v,
    TCMethodFactory.methods name = Some calculate /\
    calculate p = Ok v /\ 5 <= v.
Proof.
  intros HL Hn. unfold TCMethodFactory.get_available_methods in Hn.
  repeat (apply elem_of_cons in Hn as [-> | Hn]);
    [| | | |apply elem_of_nil in Hn; contradiction].
  - exists KirpichMethod.calculate.
    destruct (kirpich_value p HL) as (a & E). exists (Rmax a 5).
    split; [reflexivity|]. split; [exact E|apply Rmax_r].
  - exists FAAMethod.calculate. eexists. split; [reflexivity|].
    rewrite faa_formula by assumption. split; [reflexivity|apply Rmax_r].
  - exists SCSLagTimeMethod.calculate.
    destruct (scs_value p HL) as (a & _ & E). eexists. split; [reflexivity|].
    rewrite E. split; [reflexivity|apply Rmax_r].
  - exists KerbyMethod.calculate.
    destruct (kerby_value p HL) as (a & E). exists (Rmax (1.44 * a) 5).
    split; [reflexivity|]. split; [exact E|apply Rmax_r].
Qed.

Lemma Rpower_le_base a b c : 0 <= c -> 0 < a -> a <= b -> Rpower a c <= Rpower b c.
Proof. intros. apply Rle_Rpower_l; lra. Qed.

Lemma Rdiv_le_mono a b c d : 0 <= a -> a <= b -> 0 < d -> d <= c -> a / c <= b / d.
Proof.
  intros Ha Hab Hd Hdc. unfold Rdiv.
  apply Rmult_le_compat; try lra.
  - left. apply Rinv_0_lt_compat. lra.
  - apply Rinv_le_contravar; lra.
Qed.

Lemma slope_floor_mono s t : s <= t -> Rmax s 0.001 <= Rmax t 0.001.
Proof. intros. unfold Rmax. repeat destruct (Rle_dec _ _); lra. Qed.

(** Property X2.  The Kirpich time of concentration does not decrease when
    the flow path gets longer or the slope gets flatter. *)
Theorem kirpich_monotone (p q : TCParameters) :
  0 < flow_length_ft p -> flow_length_ft p <= flow_length_ft q ->
  slope_ft_ft q <= slope_ft_ft p ->
  exists v w, KirpichMethod.calculate p = Ok v /\ KirpichMethod.calculate q = Ok w /\
              v <= w.
Proof.
  intros HL HLq HS. rewrite !kirpich_formula by lra.
  eexists _, _. split; [reflexivity|]. split; [reflexivity|].
  apply Rmax_5_le.
  pose proof (slope_floor_pos (slope_ft_ft q)) as Hq.
  pose proof (slope_floor_mono _ _ HS) as Hm.
  apply Rdiv_le_mono.
  - pose proof (Rpower_pos (flow_length_ft p) 0.77). lra.
  - apply Rmult_le_compat_l; [lra|]. apply Rpower_le_base; lra.
  - apply Rpower_pos.
  - apply Rpower_le_base; lra.
Qed.

Lemma effective_c_bounds c : 0.1 <= effective_c c <= 0.95.
Proof. apply clamp_bounds. lra. Qed.
Lemma effective_n_bounds n : 0.02 <= effective_n n <= 0.8.
Proof. apply clamp_bounds. lra. Qed.
Lemma effective_cn_bounds cn : 30 <= effective_cn cn <= 98.
Proof. apply clamp_bounds. lra. Qed.

(** Property X3.  The FAA time of concentration does not decrease when the
    flow path gets longer, the slope flatter, or the effective runoff
    coefficient (the given one, 0.5 when falsy, clamped to [0.1, 0.95])
    smaller. *)
Theorem faa_monotone (p q : TCParameters) :
  0 <= flow_length_ft p -> flow_length_ft p <= flow_length_ft q ->
  slope_ft_ft q <= slope_ft_ft p ->
  effective_c (runoff_coefficient q) <= effective_c (runoff_coefficient p) ->
  exists v w, FAAMethod.calculate p = Ok v /\ FAAMethod.calculate q = Ok w /\ v <= w.
Proof.
  intros HL HLq HS HC. rewrite !faa_formula by lra.
  eexists _, _. split; [reflexivity|]. split; [reflexivity|].
  apply Rmax_5_le. fold (effective_c (runoff_coefficient p)).
  fold (effective_c (runoff_coefficient q)).
  pose proof (effective_c_bounds (runoff_coefficient p)) as Bp.
  pose proof (effective_c_bounds (runoff_coefficient q)) as Bq.
  pose proof (slope_floor_pos (slope_ft_ft q)) as Hq.
  pose proof (slope_floor_mono _ _ HS) as Hm.
  assert (Hs1 : sqrt (flow_length_ft p / 1000) <= sqrt (flow_length_ft q / 1000))
    by (apply sqrt_le_1_alt; lra).
  pose proof (sqrt_pos (flow_length_ft p / 1000)) as Hs0.
  apply Rdiv_le_mono.
  - apply Rmult_le_pos; [lra|assumption].
  - apply Rmult_le_compat; lra.
  - apply sqrt_lt_R0. lra.
  - apply sqrt_le_1_alt. assumption.
Qed.

(** Property X4.  The SCS time of concentration does not decrease when the
    flow path gets longer, the slope flatter, or the effective curve number
    (the given one, 70 when falsy, clamped to [30, 98]) smaller. *)
Theorem scs_monotone (p q : TCParameters) :
  0 < flow_length_ft p -> flow_length_ft p <= flow_length_ft q ->
  slope_ft_ft q <= slope_ft_ft p ->
  effective_cn (curve_number q) <= effective_cn (curve_number p) ->
  exists v w, SCSLagTimeMethod.calculate p = Ok v /\
              SCSLagTimeMethod.calculate q = Ok w /\ v <= w.
Proof.
  intros HL HLq HS HC. rewrite !scs_formula by lra.
  eexists _, _. split; [reflexivity|]. split; [reflexivity|].
  apply Rmax_5_le. unfold scs_lag_hours, retention.
  pose proof (effective_cn_bounds (curve_number p)) as Bp.
  pose proof (effective_cn_bounds (curve_number q)) as Bq.
  set (cp := effective_cn (curve_number p)) in *.
  set (cq := effective_cn (curve_number q)) in *.
  pose proof (curve_number_term_gt_1 cp Bp) as Tp.
  assert (Hinv : 1000 / cp <= 1000 / cq).
  { unfold Rdiv. apply Rmult_le_compat_l; [lra|]. apply Rinv_le_contravar; lra. }
  pose proof (percent_floor_pos (slope_ft_ft q)) as Hq.
  assert (Hm : Rmax (slope_ft_ft q * 100) 0.1 <= Rmax (slope_ft_ft p * 100) 0.1).
  { unfold Rmax. repeat destruct (Rle_dec _ _); lra. }
  assert (H1 : Rpower (flow_length_ft p) 0.8 <= Rpower (flow_length_ft q) 0.8)
    by (apply Rpower_le_base; lra).
  assert (H2 : Rpower (1000 / cp - 10 + 1) 0.7 <= Rpower (1000 / cq - 10 + 1) 0.7)
    by (apply Rpower_le_base; lra).
  pose proof (Rpower_pos (flow_length_ft p) 0.8) as P1.
  pose proof (Rpower_pos (1000 / cp - 10 + 1) 0.7) as P2.
  assert (H3 : Rpower (flow_length_ft p) 0.8 * Rpower (1000 / cp - 10 + 1) 0.7
               / (1900 * sqrt (Rmax (slope_ft_ft p * 100) 0.1))
            <= Rpower (flow_length_ft q) 0.8 * Rpower (1000 / cq - 10 + 1) 0.7
               / (1900 * sqrt (Rmax (slope_ft_ft q * 100) 0.1))).
  { apply Rdiv_le_mono.
    - apply Rmult_le_pos; lra.
    - apply Rmult_le_compat; lra.
    - pose proof (sqrt_lt_R0 (Rmax (slope_ft_ft q * 100) 0.1) ltac:(lra)). lra.
    - apply Rmult_le_compat_l; [lra|]. apply sqrt_le_1_alt. assumption. }
  lra.
Qed.

(** Property X5.  The Kerby time of concentration does not decrease when the
    flow path gets longer, the slope flatter, or the effective roughness
    coefficient (the given one, 0.3 when falsy, clamped to [0.02, 0.8])
    larger. *)
Theorem kerby_monotone (p q : TCParameters) :
  0 < flow_length_ft p -> flow_length_ft p <= flow_length_ft q ->
  slope_ft_ft q <= slope_ft_ft p ->
  effective_n (roughness_coefficient p) <= effective_n (roughness_coefficient q) ->
  exists v w, KerbyMethod.calculate p = Ok v /\ KerbyMethod.calculate q = Ok w /\ v <= w.
Proof.
  intros HL HLq HS HN. rewrite !kerby_formula by lra.
  eexists _, _. split; [reflexivity|]. split; [reflexivity|].
  apply Rmax_5_le. fold (effective_n (roughness_coefficient p)).
  fold (effective_n (roughness_coefficient q)).
  pose proof (effective_n_bounds (roughness_coefficient p)) as Bp.
  pose proof (effective_n_bounds (roughness_coefficient q)) as Bq.
  pose proof (slope_floor_pos (slope_ft_ft q)) as Hq.
  pose proof (slope_floor_mono _ _ HS) as Hm.
  pose proof (sqrt_lt_R0 (Rmax (slope_ft_ft q) 0.001) ltac:(lra)) as Hr.
  pose proof (sqrt_lt_R0 (Rmax (slope_ft_ft p) 0.001) ltac:(lra)) as Hrp.
  apply Rmult_le_compat_l; [lra|]. apply Rpower_le_base; [lra| |].
  - apply Rmult_lt_0_compat; [apply Rmult_lt_0_compat; lra|].
    apply Rinv_0_lt_compat. assumption.
  - apply Rdiv_le_mono.
    + apply Rmult_le_pos; lra.
    + apply Rmult_le_compat; lra.
    + assumption.
    + apply sqrt_le_1_alt. assumption.
Qed.

Lemma py_or_effective x lo hi d :
  0 < lo -> lo <= hi ->
  Rmax lo (Rmin hi (py_or (Some (Rmax lo (Rmin hi (py_or x d)))) d))
    = Rmax lo (Rmin hi (py_or x d)).
Proof.
  intros Hlo Hlh. pose proof (clamp_bounds lo hi (py_or x d) Hlh) as B.
  rewrite py_or_nonzero by lra. apply clamp_id. exact B.
Qed.

(** Property X6.  The formulas see the optional parameters only through
    their clamped values: SCS gives the same result when the curve number is
    replaced by its effective value in [30, 98], FAA when the runoff
    coefficient is replaced by its effective value in [0.1, 0.95], Kerby when
    the roughness coefficient is replaced by its effective value in
    [0.02, 0.8].  A record built without validation, or a roughness outside
    its range, is thus silently clamped by the formula. *)
Theorem formulas_clamp_parameters (p : TCParameters) :
  (30 <= effective_cn (curve_number p) <= 98 /\
   SCSLagTimeMethod.calculate p
     = SCSLagTimeMethod.calculate
         (with_curve_number p (Some (effective_cn (curve_number p))))) /\
  (0.1 <= effective_c (runoff_coefficient p) <= 0.95 /\
   FAAMethod.calculate p
     = FAAMethod.calculate
         (with_runoff_coefficient p (Some (effective_c (runoff_coefficient p))))) /\
  (0.02 <= effective_n (roughness_coefficient p) <= 0.8 /\
   KerbyMethod.calculate p
     = KerbyMethod.calculate
         (with_roughness_coefficient p (Some (effective_n (roughness_coefficient p))))).
Proof.
  split; [|split].
  - split; [apply effective_cn_bounds|].
    unfold SCSLagTimeMethod.calculate, with_curve_number, effective_cn.
    cbn [flow_length_ft slope_ft_ft curve_number].
    rewrite py_or_effective by lra. reflexivity.
  - split; [apply effective_c_bounds|].
    unfold FAAMethod.calculate, with_runoff_coefficient, effective_c.
    cbn [flow_length_ft slope_ft_ft runoff_coefficient].
    rewrite py_or_effective by lra. reflexivity.
  - split; [apply effective_n_bounds|].
    unfold KerbyMethod.calculate, with_roughness_coefficient, effective_n.
    cbn [flow_length_ft slope_ft_ft roughness_coefficient].
    rewrite py_or_effective by lra. reflexivity.
Qed.


Lemma Int_part_bounds y : IZR (Int_part y) <= y < IZR (Int_part y) + 1.
Proof. pose proof (base_Int_part y). lra. Qed.

Lemma Int_part_ge (k : Z) y : IZR k <= y -> (k <= Int_part y)%Z.
Proof.
  intros Hk. pose proof (Int_part_bounds y) as [_ Hu].
  assert (H : IZR k < IZR (Int_part y + 1)) by (rewrite plus_IZR; lra).
  apply lt_IZR in H. lia.
Qed.

Lemma round_half_even_ge_floor y : (Int_part y <= round_half_even y)%Z.
Proof.
  unfold round_half_even. repeat destruct (decide _); try lia.
  destruct (Z.even (Int_part y)); lia.
Qed.

Lemma round_half_even_near y : - (1 / 2) <= IZR (round_half_even y) - y <= 1 / 2.
Proof.
  pose proof (Int_part_bounds y) as [Hl Hu]. unfold round_half_even.
  destruct (decide (y - IZR (Int_part y) < 1 / 2)); [lra|].
  destruct (decide (1 / 2 < y - IZR (Int_part y))).
  - rewrite plus_IZR. lra.
  - destruct (Z.even (Int_part y)); [|rewrite plus_IZR]; lra.
Qed.

Lemma pow_10_2 : 10 ^ 2 = 100.
Proof. simpl. lra. Qed.

Lemma py_round_2_near x : - 0.005 <= py_round x 2 - x <= 0.005.
Proof.
  unfold py_round. rewrite pow_10_2.
  pose proof (round_half_even_near (x * 100)) as H. lra.
Qed.

Lemma py_round_2_zero : py_round 0 2 = 0.
Proof.
  pose proof (round_half_even_near (0 * 10 ^ 2)) as Hn. unfold py_round.
  rewrite Rmult_0_l in *.
  assert (Hz : round_half_even 0 = 0%Z).
  { assert (H1 : (-1 < round_half_even 0)%Z) by (apply lt_IZR; lra).
    assert (H2 : (round_half_even 0 < 1)%Z) by (apply lt_IZR; lra). lia. }
  rewrite Hz, pow_10_2. lra.
Qed.

Lemma py_round_2_ge_5 x : 5 <= x -> 5 <= py_round x 2.
Proof.
  intros Hx. unfold py_round. rewrite pow_10_2.
  assert (Hk : (500 <= round_half_even (x * 100))%Z).
  { etransitivity; [|apply round_half_even_ge_floor].
    apply Int_part_ge. lra. }
  apply IZR_le in Hk. lra.
Qed.


Lemma Rsum_bounds lo hi (vs : list R) :
  Forall (fun v => lo <= v <= hi) vs ->
  INR (length vs) * lo <= Rsum vs <= INR (length vs) * hi.
Proof.
  induction 1 as [|v vs Hv _ IH].
  - simpl. lra.
  - cbn [length Rsum]. rewrite S_INR. lra.
Qed.

Lemma arithmetic_mean_bounds lo hi (vs : list R) :
  vs <> [] -> Forall (fun v => lo <= v <= hi) vs ->
  lo <= arithmetic_mean vs <= hi.
Proof.
  intros Hne Hall. unfold arithmetic_mean.
  pose proof (Rsum_bounds lo hi vs Hall) as [Hl Hu].
  assert (Hn : 0 < INR (length vs)).
  { apply lt_0_INR. destruct vs; [contradiction|simpl; lia]. }
  split.
  - apply Rmult_le_reg_r with (INR (length vs)); [assumption|].
    unfold Rdiv. rewrite Rmult_assoc, Rinv_l by lra. lra.
  - apply Rmult_le_reg_r with (INR (length vs)); [assumption|].
    unfold Rdiv. rewrite Rmult_assoc, Rinv_l by lra. lra.
Qed.

Lemma nth_bounds lo hi (l : list R) (i : nat) :
  (i < length l)%nat -> Forall (fun v => lo <= v <= hi) l -> lo <= nth i l 0 <= hi.
Proof.
  intros Hi Hall. rewrite Forall_forall in Hall. apply Hall.
  apply list_elem_of_In. apply nth_In. exact Hi.
Qed.

Lemma middle_value_bounds lo hi (l : list R) :
  l <> [] -> Forall (fun v => lo <= v <= hi) l -> lo <= middle_value l <= hi.
Proof.
  intros Hne Hall. unfold middle_value.
  assert (Hn : (0 < length l)%nat) by (destruct l; [contradiction|simpl; lia]).
  assert (Hh : (length l / 2 < length l)%nat) by (apply Nat.div_lt; lia).
  destruct (Nat.odd (length l)).
  - apply nth_bounds; assumption.
  - pose proof (nth_bounds lo hi l (length l / 2) Hh Hall).
    pose proof (nth_bounds lo hi l (length l / 2 - 1) ltac:(lia) Hall). lra.
Qed.

Lemma sorted_Forall (P : R -> Prop) l : Forall P l -> Forall P (sorted l).
Proof.
  intros H. eapply Permutation_Forall; [apply sorted_perm|exact H].
Qed.

Lemma valid_results_positive r selected : Forall (fun v => 0 < v) (valid_results r selected).
Proof.
  induction selected as [|m rest IH]; cbn [valid_results]; [constructor|].
  destruct (method_map_get r m) as [v|]; [|exact IH].
  destruct (decide (0 < v)); [constructor; assumption|exact IH].
Qed.

Lemma statistics_bounds (r : TCResults) (selected : list string) (lo hi : R) :
  let vs := valid_results r selected in
  vs <> [] -> Forall (fun v => lo <= v <= hi) vs ->
  exists r' avg sd rec,
    calculate_statistics r selected = Ok r' /\
    tc_average_min r' = Some avg /\ tc_std_dev_min r' = Some sd /\
    tc_recommended_min r' = Some rec /\
    lo <= avg <= hi /\ lo <= rec <= hi /\ 0 <= sd.
Proof.
  intros vs Hne Hall.
  destruct (calculate_statistics_spec r selected) as (r' & E & H2 & H1 & _).
  fold vs in H2, H1. exists r'.
  destruct vs as [|v [|w vs']] eqn:Evs; [contradiction| |].
  - destruct (H1 v eq_refl) as (A1 & A2 & A3).
    exists v, 0, v. inversion Hall; subst. repeat split; try assumption; lra.
  - destruct H2 as (A1 & A2 & A3); [simpl; lia|].
    exists (arithmetic_mean (v :: w :: vs')), (sample_std_dev (v :: w :: vs')),
      (middle_value (sorted (v :: w :: vs'))).
    split; [exact E|]. split; [exact A1|]. split; [exact A2|]. split; [exact A3|].
    split; [apply arithmetic_mean_bounds; [discriminate|assumption]|].
    split; [|apply sqrt_pos].
    apply middle_value_bounds; [|apply sorted_Forall; assumption].
    intros E0. pose proof (sorted_length (v :: w :: vs')) as Hl.
    rewrite E0 in Hl. discriminate Hl.
Qed.

Lemma calculate_statistics_eq (r : TCResults) (selected : list string) :
  calculate_statistics r selected =
    Ok (let vs := valid_results r selected in
        if decide (2 <= length vs)%nat then
          set_statistics r (Some (arithmetic_mean vs)) (Some (sample_std_dev vs))
            (Some (middle_value (sorted vs)))
        else match vs with
             | [v] => set_statistics r (Some v) (Some 0) (Some v)
             | _ => r
             end).
Proof.
  unfold calculate_statistics. cbv zeta.
  destruct (decide (2 <= length (valid_results r selected))%nat) as [H2|H2].
  - unfold statistics.mean, statistics.stdev.
    destruct (decide (length (valid_results r selected) < 1)%nat); [lia|]. ok_step.
    destruct (decide (1 < length (valid_results r selected))%nat); [|lia].
    destruct (decide (length (valid_results r selected) < 2)%nat); [lia|]. ok_step.
    rewrite median_ok by (destruct (valid_results r selected); [simpl in H2; lia|discriminate]).
    reflexivity.
  - destruct (valid_results r selected) as [|v [|w vs']]; reflexivity.
Qed.

Lemma Sorted_Rle_head x l : Sorted Rle (x :: l) -> Forall (fun y => x <= y) l.
Proof.
  intros Hs. apply Sorted_StronglySorted in Hs.
  - inversion Hs; subst. assumption.
  - intros a b c. apply Rle_trans.
Qed.

Lemma Sorted_Permutation_eq (l l' : list R) :
  Sorted Rle l -> Sorted Rle l' -> Permutation l l' -> l = l'.
Proof.
  revert l'. induction l as [|x l IH]; intros l' Hs Hs' Hp.
  - apply Permutation_nil in Hp. congruence.
  - destruct l' as [|y l'].
    { symmetry in Hp. apply Permutation_nil in Hp. discriminate. }
    assert (Hxy : x = y).
    { pose proof (Sorted_Rle_head _ _ Hs) as Hx.
      pose proof (Sorted_Rle_head _ _ Hs') as Hy.
      rewrite Forall_forall in Hx, Hy.
      assert (Hin1 : In y (x :: l)).
      { eapply Permutation_in; [symmetry; exact Hp|left; reflexivity]. }
      assert (Hin2 : In x (y :: l')).
      { eapply Permutation_in; [exact Hp|left; reflexivity]. }
      destruct Hin1 as [E|Hin1]; [exact E|].
      destruct Hin2 as [E|Hin2]; [symmetry; exact E|].
      apply list_elem_of_In in Hin1, Hin2.
      apply Rle_antisym; [apply Hx|apply Hy]; assumption. }
    subst y. f_equal. apply IH.
    + inversion Hs; assumption.
    + inversion Hs'; assumption.
    + eapply Permutation_cons_inv. exact Hp.
Qed.

Lemma sorted_Permutation l l' : Permutation l l' -> sorted l = sorted l'.
Proof.
  intros Hp. apply Sorted_Permutation_eq; try apply sorted_Sorted.
  rewrite <- (sorted_perm l), <- (sorted_perm l'). exact Hp.
Qed.

Lemma valid_results_Permutation r sel sel' :
  Permutation sel sel' -> Permutation (valid_results r sel) (valid_results r sel').
Proof.
  induction 1 as [|m l l' _ IH|a b l|l1 l2 l3 _ IH1 _ IH2]; cbn [valid_results].
  - constructor.
  - destruct (method_map_get r m) as [v|]; [|exact IH].
    destruct (decide (0 < v)); [apply perm_skip|]; exact IH.
  - destruct (method_map_get r a) as [va|], (method_map_get r b) as [vb|];
      try reflexivity;
      repeat match goal with |- context [decide ?P] => destruct (decide P) end;
      try reflexivity. apply perm_swap.
  - etransitivity; eassumption.
Qed.

Lemma arithmetic_mean_Permutation l l' :
  Permutation l l' -> arithmetic_mean l = arithmetic_mean l'.
Proof.
  intros Hp. unfold arithmetic_mean.
  rewrite (Rsum_Permutation _ _ Hp), (Permutation_length Hp). reflexivity.
Qed.

Lemma sample_std_dev_Permutation l l' :
  Permutation l l' -> sample_std_dev l = sample_std_dev l'.
Proof.
  intros Hp. unfold sample_std_dev.
  rewrite (arithmetic_mean_Permutation _ _ Hp), (Permutation_length Hp).
  rewrite (Rsum_Permutation _ _ (Permutation_map _ Hp)). reflexivity.
Qed.

(** Property X7.  [calculate_statistics] does not depend on the order in
    which the selected methods are listed: average, standard deviation and
    recommended value are the same for every permutation of the list. *)
Theorem statistics_order_independent (r : TCResults) (sel sel' : list string) :
  Permutation sel sel' -> calculate_statistics r sel = calculate_statistics r sel'.
Proof.
  intros Hp. rewrite !calculate_statistics_eq. cbv zeta.
  pose proof (valid_results_Permutation r _ _ Hp) as Hv.
  rewrite (Permutation_length Hv).
  destruct (decide (2 <= length (valid_results r sel'))%nat) as [H2|H2].
  - rewrite (arithmetic_mean_Permutation _ _ Hv), (sample_std_dev_Permutation _ _ Hv),
      (sorted_Permutation _ _ Hv). reflexivity.
  - destruct (valid_results r sel') as [|v [|w vs']] eqn:E.
    + apply Permutation_nil_r in Hv. rewrite Hv. reflexivity.
    + symmetry in Hv. apply Permutation_length_1_inv in Hv. rewrite Hv. reflexivity.
    + simpl in H2. lia.
Qed.

(* ===================================================================== *)
(** ** The factory and the multi-method engine *)
(* ===================================================================== *)

Lemma methods_available m :
  m ∈ TCMethodFactory.get_available_methods <->
  exists calculate, TCMethodFactory.methods m = Some calculate.
Proof.
  unfold TCMethodFactory.get_available_methods, TCMethodFactory.methods. split.
  - intros Hm. repeat (apply elem_of_cons in Hm as [-> | Hm]);
      [| | | |apply elem_of_nil in Hm; contradiction]; eexists; reflexivity.
  - intros (c & Hc).
    repeat match type of Hc with
           | context [decide (m = ?s)] =>
               destruct (decide (m = s)) as [-> |]; [set_solver|]
           end.
    discriminate.
Qed.

Lemma method_floor (p : TCParameters) (m : string) calculate :
  0 <= flow_length_ft p ->
  TCMethodFactory.methods m = Some calculate ->
  exists v, calculate p = Ok v /\ 5 <= v.
Proof.
  intros HL Hm. unfold TCMethodFactory.methods in Hm.
  repeat match type of Hm with
         | context [decide (m = ?s)] => destruct (decide (m = s)) as [-> |]
         end; try discriminate; injection Hm as <-.
  - destruct (kirpich_value p HL) as (a & ->). eexists; split; [reflexivity|apply Rmax_r].
  - rewrite faa_formula by assumption. eexists; split; [reflexivity|apply Rmax_r].
  - destruct (scs_value p HL) as (a & _ & ->). eexists; split; [reflexivity|apply Rmax_r].
  - destruct (kerby_value p HL) as (a & ->). eexists; split; [reflexivity|apply Rmax_r].
Qed.

Lemma create_method_cases (name : string) :
  match TCMethodFactory.methods (str_lower name) with
  | Some calculate => create_method name = Ok calculate
  | None => create_method name = Raise (ValueError ("Unknown TC method: " +:+ name))
  end.
Proof. unfold create_method. destruct (TCMethodFactory.methods _); reflexivity. Qed.

Import TimeOfConcentrationCalculator.

Lemma store_result_get (r : TCResults) (l m : string) (v : R) :
  l ∈ TCMethodFactory.get_available_methods ->
  method_map_get (store_result r l v) m
    = if decide (l = m) then Some v else method_map_get r m.
Proof.
  intros Hl. unfold TCMethodFactory.get_available_methods in Hl.
  repeat (apply elem_of_cons in Hl as [-> | Hl]);
    [| | | |apply elem_of_nil in Hl; contradiction];
    unfold store_result, method_map_get; cbn [decide];
    repeat match goal with
           | |- context [decide (m = ?s)] => destruct (decide (m = s)) as [-> |]
           | |- context [decide (?s = m)] => destruct (decide (s = m)) as [<- |]
           end; try reflexivity; try congruence.
Qed.

Lemma store_result_keeps (r : TCResults) (l : string) (v : R) :
  subbasin_id (store_result r l v) = subbasin_id r /\
  parameters (store_result r l v) = parameters r /\
  tc_average_min (store_result r l v) = tc_average_min r /\
  tc_std_dev_min (store_result r l v) = tc_std_dev_min r /\
  tc_recommended_min (store_result r l v) = tc_recommended_min r.
Proof.
  unfold store_result. repeat destruct (decide _); repeat split; reflexivity.
Qed.

Lemma method_step_cases (params : TCParameters) (r : TCResults) (name : string) :
  0 <= flow_length_ft params ->
  match TCMethodFactory.methods (str_lower name) with
  | Some calculate =>
      exists v, calculate params = Ok v /\ 5 <= v /\
        method_step params r name = store_result r (str_lower name) (py_round v 2)
  | None => method_step params r name = r
  end.
Proof.
  intros HL. unfold method_step. pose proof (create_method_cases name) as Hc.
  destruct (TCMethodFactory.methods (str_lower name)) as [calc|] eqn:Em.
  - rewrite Hc. destruct (method_floor params _ calc HL Em) as (v & Ev & Hv).
    exists v. rewrite Ev. auto.
  - rewrite Hc. reflexivity.
Qed.

Lemma method_loop_keeps (params : TCParameters) (selected : list string) :
  0 <= flow_length_ft params ->
  forall r : TCResults,
    let r' := fold_left (method_step params) selected r in
    subbasin_id r' = subbasin_id r /\ parameters r' = parameters r /\
    tc_average_min r' = tc_average_min r /\ tc_std_dev_min r' = tc_std_dev_min r /\
    tc_recommended_min r' = tc_recommended_min r.
Proof.
  intros HL. induction selected as [|name rest IH]; intros r; cbn [fold_left].
  - repeat split; reflexivity.
  - destruct (IH (method_step params r name)) as (A1 & A2 & A3 & A4 & A5).
    cbv zeta. rewrite A1, A2, A3, A4, A5.
    pose proof (method_step_cases params r name HL) as Hs.
    destruct (TCMethodFactory.methods (str_lower name)).
    + destruct Hs as (v & _ & _ & ->). apply store_result_keeps.
    + rewrite Hs. repeat split; reflexivity.
Qed.

Lemma method_loop_fields (params : TCParameters) (selected : list string)
    (m : string) calculate (v : R) :
  0 <= flow_length_ft params ->
  TCMethodFactory.methods m = Some calculate -> calculate params = Ok v ->
  forall r : TCResults,
    method_map_get (fold_left (method_step params) selected r) m
      = if decide (m ∈ str_lower <$> selected) then Some (py_round v 2)
        else method_map_get r m.
Proof.
  intros HL Hm Hv. induction selected as [|name rest IH]; intros r; cbn [fold_left].
  - destruct (decide (m ∈ str_lower <$> [])) as [Hin|_]; [|reflexivity].
    apply elem_of_nil in Hin. contradiction.
  - rewrite IH. rewrite fmap_cons.
    destruct (decide (m ∈ str_lower <$> rest)) as [Hin|Hnin].
    + destruct (decide (m ∈ str_lower name :: (str_lower <$> rest))) as [_|Hn];
        [reflexivity|]. exfalso. apply Hn. right. exact Hin.
    + pose proof (method_step_cases params r name HL) as Hs.
      destruct (TCMethodFactory.methods (str_lower name)) as [calc|] eqn:En.
      * destruct Hs as (w & Ew & _ & ->).
        rewrite store_result_get by (apply methods_available; eauto).
        destruct (decide (str_lower name = m)) as [E|E].
        -- rewrite E in En. rewrite Hm in En. injection En as <-.
           rewrite Hv in Ew. injection Ew as <-.
           destruct (decide (m ∈ str_lower name :: (str_lower <$> rest))) as [_|Hn];
             [reflexivity|]. exfalso. apply Hn. apply elem_of_cons. left. symmetry. exact E.
        -- destruct (decide (m ∈ str_lower name :: (str_lower <$> rest))) as [Hi|_];
             [|reflexivity].
           apply elem_of_cons in Hi as [Hi|Hi]; [congruence|contradiction].
      * rewrite Hs.
        destruct (decide (m ∈ str_lower name :: (str_lower <$> rest))) as [Hi|_];
          [|reflexivity].
        apply elem_of_cons in Hi as [Hi|Hi]; [|contradiction].
        rewrite <- Hi in En. congruence.
Qed.

Lemma rejected_some_iff (L S cn c : R) :
  0 < L -> 0 < S ->
  (rejected L S (Some cn) (Some c) <->
   ~ ((cn = 0 \/ 30 <= cn <= 98) /\ (c = 0 \/ 0.1 <= c <= 0.95))).
Proof.
  intros HL HS. unfold rejected. split.
  - intros [?|[?|[(v & [= <-] & Hv & Hr)|(v & [= <-] & Hv & Hr)]]]; try lra;
      intros [[?|?] [?|?]]; tauto.
  - intros Hn. destruct (decide (cn = 0)) as [Ecn|Ecn].
    + destruct (decide (c = 0)) as [Ec|Ec]; [tauto|].
      right; right; right. exists c. split; [reflexivity|]. split; [assumption|].
      intros Hc. apply Hn. tauto.
    + destruct (decide (30 <= cn /\ cn <= 98)) as [Hcn|Hcn].
      * right; right; right. exists c. split; [reflexivity|].
        assert (Hc0 : c <> 0) by (intros ->; tauto).
        split; [assumption|]. intros Hc. tauto.
      * right; right; left. exists cn. auto.
Qed.

Lemma swap_elevations (up down : R) :
  (if decide (up < down) then (down, up) else (up, down)) = (Rmax up down, Rmin up down).
Proof.
  unfold Rmax, Rmin. destruct (decide (up < down)); destruct (Rle_dec up down);
    try reflexivity; try lra.
  f_equal; lra.
Qed.

Lemma engine_geometry (len up down : R) :
  let L := Rmax (len * METERS_TO_FEET) 1 in
  let diff := Rmax (Rmax up down * METERS_TO_FEET - Rmin up down * METERS_TO_FEET) 0.1 in
  1 <= L /\ 0.1 <= diff /\ 0 < diff / L /\
  Rmin up down * METERS_TO_FEET <= Rmax up down * METERS_TO_FEET.
Proof.
  intros L diff.
  assert (HL : 1 <= L) by apply Rmax_r.
  assert (Hd : 0.1 <= diff) by apply Rmax_r.
  split; [exact HL|]. split; [exact Hd|]. split.
  - apply Rdiv_lt_0_compat; lra.
  - unfold METERS_TO_FEET. pose proof (Rmin_l up down). pose proof (Rmax_l up down). lra.
Qed.

(** What the engine does once both elevations are known. *)
Lemma engine_run (len up down : R) (id : string) (selected : list string)
    (cn c n : R) :
  let L := Rmax (len * METERS_TO_FEET) 1 in
  let diff := Rmax (Rmax up down * METERS_TO_FEET - Rmin up down * METERS_TO_FEET) 0.1 in
  let params :=
    mkTCParameters L diff (diff / L) (Rmax up down * METERS_TO_FEET)
      (Rmin up down * METERS_TO_FEET) (Some cn) (Some c) (Some n) in
  let results :=
    fold_left (method_step params) selected
      (new_TCResults id params None None None None) in
  _calculate_tc_for_feature_multi_method len (Some up) (Some down) id selected cn c n
    = if decide ((cn = 0 \/ 30 <= cn <= 98) /\ (c = 0 \/ 0.1 <= c <= 0.95))
      then r ← calculate_statistics results selected; Ok (Some r)
      else Ok None.
Proof.
  intros L diff params results.
  destruct (engine_geometry len up down) as (HL & Hd & Hs & _). fold L diff in HL, Hd, Hs.
  unfold _calculate_tc_for_feature_multi_method. rewrite swap_elevations.
  fold L. fold diff. rewrite py_div_ok by lra. ok_step.
  unfold new_TCParameters. fold params.
  destruct (post_init_cases params) as [[(msg & E) Hr]|[E Hr]];
    cbn [params flow_length_ft slope_ft_ft curve_number runoff_coefficient] in Hr;
    rewrite E; rewrite rejected_some_iff in Hr by lra.
  - destruct (decide _) as [Hok|_]; [contradiction|reflexivity].
  - destruct (decide _) as [_|Hno]; [reflexivity|].
    exfalso. apply Hr. exact Hno.
Qed.

Lemma statistics_keep_fields (r r' : TCResults) (selected : list string) :
  calculate_statistics r selected = Ok r' ->
  subbasin_id r' = subbasin_id r /\ parameters r' = parameters r /\
  (forall m, method_map_get r' m = method_map_get r m).
Proof.
  rewrite calculate_statistics_eq. intros [= <-]. cbv zeta.
  destruct (decide _); [repeat split; reflexivity|].
  destruct (valid_results r selected) as [|v [|w vs]]; repeat split; reflexivity.
Qed.

Lemma available_lower m :
  m ∈ TCMethodFactory.get_available_methods -> str_lower m = m.
Proof.
  unfold TCMethodFactory.get_available_methods. intros Hm.
  repeat (apply elem_of_cons in Hm as [-> | Hm]; [reflexivity|]).
  apply elem_of_nil in Hm. contradiction.
Qed.

Lemma method_map_get_unknown r m :
  m ∉ TCMethodFactory.get_available_methods -> method_map_get r m = None.
Proof.
  intros Hm. unfold method_map_get.
  repeat match goal with
         | |- context [decide (m = ?s)] =>
             destruct (decide (m = s)) as [-> |];
             [exfalso; apply Hm; unfold TCMethodFactory.get_available_methods; set_solver|]
         end.
  reflexivity.
Qed.

Lemma valid_results_unknown r selected :
  Forall (fun name => name ∉ TCMethodFactory.get_available_methods) selected ->
  valid_results r selected = [].
Proof.
  induction 1 as [|name rest Hn _ IH]; cbn [valid_results]; [reflexivity|].
  rewrite (method_map_get_unknown r name Hn). exact IH.
Qed.

Lemma Forall_upper_bound lo (vs : list R) :
  Forall (fun v => lo <= v) vs -> exists hi, Forall (fun v => lo <= v <= hi) vs.
Proof.
  induction 1 as [|v vs Hv _ (hi & IH)].
  - exists lo. constructor.
  - exists (Rmax v hi). constructor.
    + split; [assumption|apply Rmax_l].
    + eapply Forall_impl; [exact IH|]. intros x [Hl Hu]. split; [assumption|].
      pose proof (Rmax_r v hi). lra.
Qed.

Lemma valid_results_elem r (sel : list string) name x :
  name ∈ sel -> method_map_get r name = Some x -> 0 < x ->
  x ∈ valid_results r sel.
Proof.
  intros Hin Hg Hx. induction sel as [|m rest IH]; [apply elem_of_nil in Hin; contradiction|].
  cbn [valid_results]. apply elem_of_cons in Hin as [<- | Hin].
  - rewrite Hg. destruct (decide (0 < x)); [left|contradiction].
  - specialize (IH Hin). destruct (method_map_get r m) as [y|]; [|exact IH].
    destruct (decide (0 < y)); [right|]; exact IH.
Qed.

Section Engine.
Variables (len up down : R) (id : string) (selected : list string) (cn c n : R).

Let L := Rmax (len * METERS_TO_FEET) 1.
Let diff :=
  Rmax (Rmax up down * METERS_TO_FEET - Rmin up down * METERS_TO_FEET) 0.1.
Let params :=
  mkTCParameters L diff (diff / L) (Rmax up down * METERS_TO_FEET)
    (Rmin up down * METERS_TO_FEET) (Some cn) (Some c) (Some n).
Let results :=
  fold_left (method_step params) selected
    (new_TCResults id params None None None None).

Lemma engine_params_length : 0 <= flow_length_ft params.
Proof.
  destruct (engine_geometry len up down) as (HL & _).
  unfold params. cbn [flow_length_ft]. unfold L. lra.
Qed.

Lemma engine_result (r : TCResults) :
  _calculate_tc_for_feature_multi_method len (Some up) (Some down) id selected cn c n
    = Ok (Some r) ->
  calculate_statistics results selected = Ok r.
Proof.
  rewrite engine_run. fold L diff params results.
  destruct (decide _); [|discriminate].
  destruct (calculate_statistics results selected); [|discriminate].
  intros [= <-]. reflexivity.
Qed.

Lemma engine_results_fields (m : string) calculate (v : R) :
  TCMethodFactory.methods m = Some calculate -> calculate params = Ok v ->
  method_map_get results m
    = if decide (m ∈ str_lower <$> selected) then Some (py_round v 2) else None.
Proof.
  intros Hm Hv. unfold results.
  rewrite (method_loop_fields params selected m calculate v engine_params_length Hm Hv).
  destruct (decide _); [reflexivity|].
  unfold method_map_get, new_TCResults. cbn. repeat destruct (decide _); reflexivity.
Qed.

Lemma engine_valid_results_ge_5 (sel : list string) :
  Forall (fun v => 5 <= v) (valid_results results sel).
Proof.
  induction sel as [|name rest IH]; cbn [valid_results]; [constructor|].
  destruct (method_map_get results name) as [x|] eqn:Ex; [|exact IH].
  destruct (decide (0 < x)); [|exact IH]. constructor; [|exact IH].
  destruct (decide (name ∈ TCMethodFactory.get_available_methods)) as [Ha|Ha].
  - apply methods_available in Ha as (calc & Hc).
    destruct (method_floor params name calc engine_params_length Hc) as (v & Ev & Hv).
    rewrite (engine_results_fields name calc v Hc Ev) in Ex.
    destruct (decide _); [|discriminate]. injection Ex as <-.
    apply py_round_2_ge_5, Hv.
  - rewrite (method_map_get_unknown results name Ha) in Ex. discriminate.
Qed.

Lemma engine_valid_results_nonempty :
  Exists (fun name => name ∈ TCMethodFactory.get_available_methods) selected ->
  valid_results results selected <> [].
Proof.
  intros Hex. apply Exists_exists in Hex as (name & Hin & Ha).
  pose proof Ha as Ha'. apply methods_available in Ha' as (calc & Hc).
  destruct (method_floor params name calc engine_params_length Hc) as (v & Ev & Hv).
  pose proof (engine_results_fields name calc v Hc Ev) as Hf.
  destruct (decide (name ∈ str_lower <$> selected)) as [_|Hn].
  - pose proof (py_round_2_ge_5 v Hv) as H5.
    pose proof (valid_results_elem results selected name (py_round v 2) Hin Hf
                  ltac:(lra)) as Hel.
    intros E. rewrite E in Hel. apply elem_of_nil in Hel. exact Hel.
  - exfalso. apply Hn. apply list_elem_of_fmap. exists name.
    split; [symmetry; apply available_lower, Ha|exact Hin].
Qed.
Lemma engine_accepts :
  (cn = 0 \/ 30 <= cn <= 98) /\ (c = 0 \/ 0.1 <= c <= 0.95) ->
  exists r,
    _calculate_tc_for_feature_multi_method len (Some up) (Some down) id selected cn c n
      = Ok (Some r) /\
    subbasin_id r = id /\ parameters r = params.
Proof.
  intros Hok. rewrite engine_run. fold L diff params results.
  destruct (decide _) as [_|Hn]; [|contradiction].
  destruct (calculate_statistics results selected) as [r|e] eqn:E.
  - exists r. split; [reflexivity|].
    destruct (statistics_keep_fields results r selected E) as (A1 & A2 & _).
    destruct (method_loop_keeps params selected engine_params_length
                (new_TCResults id params None None None None)) as (B1 & B2 & _).
    fold results in B1, B2. rewrite A1, A2, B1, B2. split; reflexivity.
  - rewrite calculate_statistics_eq in E. discriminate E.
Qed.

(** Property X8.  Once both elevations are known, the engine works on a flow
    length of at least 1 ft, an elevation difference of at least 0.1 ft, a
    positive slope and an upstream elevation that is not below the downstream
    one (the two are swapped when needed).  It returns a result, carrying the
    given identifier and exactly these parameters, when the curve number is 0
    or in [30, 98] and the runoff coefficient is 0 or in [0.1, 0.95]; in every
    other case, and when an elevation is missing, it returns [None].  It never
    raises. *)
Theorem engine_parameters_always_valid :
  (1 <= L /\ 0.1 <= diff /\ 0 < diff / L /\
   Rmin up down * METERS_TO_FEET <= Rmax up down * METERS_TO_FEET) /\
  ((cn = 0 \/ 30 <= cn <= 98) /\ (c = 0 \/ 0.1 <= c <= 0.95) ->
   exists r,
     _calculate_tc_for_feature_multi_method len (Some up) (Some down) id selected cn c n
       = Ok (Some r) /\
     subbasin_id r = id /\ parameters r = params) /\
  (~ ((cn = 0 \/ 30 <= cn <= 98) /\ (c = 0 \/ 0.1 <= c <= 0.95)) ->
   _calculate_tc_for_feature_multi_method len (Some up) (Some down) id selected cn c n
     = Ok None) /\
  (forall d,
     _calculate_tc_for_feature_multi_method len None d id selected cn c n = Ok None) /\
  (forall u,
     _calculate_tc_for_feature_multi_method len u None id selected cn c n = Ok None).
Proof.
  split; [apply engine_geometry|]. split; [apply engine_accepts|]. split; [|split].
  - intros Hn. rewrite engine_run. destruct (decide _); [contradiction|reflexivity].
  - intros d. reflexivity.
  - intros [u|]; reflexivity.
Qed.

(** Property X9.  In a result of the engine, the field of a registered method
    holds the value of that method on the result's parameters, rounded to two
    decimals, when the method's name occurs among the selected names in any
    letter case; the stored value is at least 5 and within 0.005 of the
    computed one.  The field is [None] when the name does not occur.  Names
    that are not registered are passed over. *)
Theorem engine_method_fields (r : TCResults) (m : string) calculate :
  _calculate_tc_for_feature_multi_method len (Some up) (Some down) id selected cn c n
    = Ok (Some r) ->
  TCMethodFactory.methods m = Some calculate ->
  if decide (m ∈ str_lower <$> selected) then
    exists v, calculate (parameters r) = Ok v /\
      method_map_get r m = Some (py_round v 2) /\
      5 <= py_round v 2 /\ - 0.005 <= py_round v 2 - v <= 0.005
  else method_map_get r m = None.
Proof.
  intros Hr Hm. apply engine_result in Hr.
  destruct (statistics_keep_fields results r selected Hr) as (_ & A2 & A3).
  destruct (method_loop_keeps params selected engine_params_length
              (new_TCResults id params None None None None)) as (_ & B2 & _).
  fold results in B2. rewrite A3, A2, B2. cbn [parameters new_TCResults].
  destruct (method_floor params m calculate engine_params_length Hm) as (v & Ev & Hv).
  rewrite (engine_results_fields m calculate v Hm Ev).
  destruct (decide _); [|reflexivity].
  exists v. split; [exact Ev|]. split; [reflexivity|].
  split; [apply py_round_2_ge_5, Hv|apply py_round_2_near].
Qed.

(** Property X10.  The statistics of a result look the selected names up as
    they are written, while the method loop lower-cases them.  When no selected
    name is literally one of 'kirpich', 'faa', 'scs', 'kerby', the three
    statistics stay [None], even if method fields were filled; when at least
    one is, average and recommended value are at least 5 minutes and the
    standard deviation is not negative. *)
Theorem engine_statistics_need_exact_names (r : TCResults) :
  _calculate_tc_for_feature_multi_method len (Some up) (Some down) id selected cn c n
    = Ok (Some r) ->
  (Forall (fun name => name ∉ TCMethodFactory.get_available_methods) selected ->
     tc_average_min r = None /\ tc_std_dev_min r = None /\
     tc_recommended_min r = None) /\
  (Exists (fun name => name ∈ TCMethodFactory.get_available_methods) selected ->
     exists avg sd rec,
       tc_average_min r = Some avg /\ tc_std_dev_min r = Some sd /\
       tc_recommended_min r = Some rec /\ 5 <= avg /\ 5 <= rec /\ 0 <= sd).
Proof.
  intros Hr. apply engine_result in Hr.
  destruct (method_loop_keeps params selected engine_params_length
              (new_TCResults id params None None None None)) as (_ & _ & B3 & B4 & B5).
  fold results in B3, B4, B5. cbn in B3, B4, B5. split.
  - intros Hall. rewrite calculate_statistics_eq in Hr. cbv zeta in Hr.
    rewrite (valid_results_unknown results selected Hall) in Hr.
    cbn [length] in Hr. destruct (decide (2 <= 0)%nat); [lia|].
    injection Hr as <-. auto.
  - intros Hex.
    destruct (Forall_upper_bound 5 _ (engine_valid_results_ge_5 selected)) as (hi & Hb).
    destruct (statistics_bounds results selected 5 hi
                (engine_valid_results_nonempty Hex) Hb)
      as (r' & avg & sd & rec & E & A1 & A2 & A3 & Ha & Hrec & Hsd).
    rewrite E in Hr. injection Hr as <-.
    exists avg, sd, rec. repeat split; try assumption; lra.
Qed.
End Engine.

(* ===================================================================== *)
(** ** Instances of the method and engine properties *)
(* ===================================================================== *)

Lemma every_method_returns_at_least_five_witness :
  exists calculate v,
    TCMethodFactory.methods "kerby" = Some calculate /\
    calculate zero_slope_parameters = Ok v /\ 5 <= v.
Proof.
  apply (every_method_returns_at_least_five zero_slope_parameters "kerby").
  - unfold zero_slope_parameters. cbn [flow_length_ft]. lra.
  - unfold TCMethodFactory.get_available_methods. set_solver.
Defined.

Lemma kirpich_monotone_witness :
  exists v w, KirpichMethod.calculate standalone_example = Ok v /\
              KirpichMethod.calculate scs_example = Ok w /\ v <= w.
Proof.
  apply (kirpich_monotone standalone_example scs_example);
    unfold standalone_example, scs_example; cbn [flow_length_ft slope_ft_ft]; lra.
Defined.

Lemma faa_monotone_witness :
  exists v w, FAAMethod.calculate standalone_example = Ok v /\
              FAAMethod.calculate scs_example = Ok w /\ v <= w.
Proof.
  apply (faa_monotone standalone_example scs_example);
    unfold standalone_example, scs_example;
    cbn [flow_length_ft slope_ft_ft runoff_coefficient]; lra.
Defined.

Lemma scs_monotone_witness :
  exists v w, SCSLagTimeMethod.calculate example_parameters = Ok v /\
              SCSLagTimeMethod.calculate standalone_example = Ok w /\ v <= w.
Proof.
  apply (scs_monotone example_parameters standalone_example);
    unfold standalone_example, example_parameters;
    cbn [flow_length_ft slope_ft_ft curve_number]; lra.
Defined.

Lemma kerby_monotone_witness :
  exists v w, KerbyMethod.calculate standalone_example = Ok v /\
              KerbyMethod.calculate scs_example = Ok w /\ v <= w.
Proof.
  apply (kerby_monotone standalone_example scs_example);
    unfold standalone_example, scs_example;
    cbn [flow_length_ft slope_ft_ft roughness_coefficient]; lra.
Defined.

Lemma engine_parameters_always_valid_witness :
  exists r,
    _calculate_tc_for_feature_multi_method 100 (Some 10) (Some 20) "B1" ["kirpich"]
      70 0.5 0.3 = Ok (Some r) /\
    subbasin_id r = "B1" /\
    parameters r
      = mkTCParameters (Rmax (100 * METERS_TO_FEET) 1)
          (Rmax (Rmax 10 20 * METERS_TO_FEET - Rmin 10 20 * METERS_TO_FEET) 0.1)
          (Rmax (Rmax 10 20 * METERS_TO_FEET - Rmin 10 20 * METERS_TO_FEET) 0.1
           / Rmax (100 * METERS_TO_FEET) 1)
          (Rmax 10 20 * METERS_TO_FEET) (Rmin 10 20 * METERS_TO_FEET)
          (Some 70) (Some 0.5) (Some 0.3).
Proof.
  apply (proj1 (proj2 (engine_parameters_always_valid 100 10 20 "B1" ["kirpich"]
                         70 0.5 0.3))).
  split; right; lra.
Defined.

Lemma engine_method_fields_witness :
  exists r v,
    _calculate_tc_for_feature_multi_method 100 (Some 10) (Some 20) "B1" ["KIRPICH"]
      70 0.5 0.3 = Ok (Some r) /\
    KirpichMethod.calculate (parameters r) = Ok v /\
    tc_kirpich_min r = Some (py_round v 2) /\ 5 <= py_round v 2.
Proof.
  destruct (engine_accepts 100 10 20 "B1" ["KIRPICH"] 70 0.5 0.3) as (r & Hr & _);
    [split; right; lra|].
  pose proof (engine_method_fields 100 10 20 "B1" ["KIRPICH"] 70 0.5 0.3 r
                "kirpich" KirpichMethod.calculate Hr eq_refl) as Hf.
  destruct (decide ("kirpich" ∈ str_lower <$> ["KIRPICH"])) as [_|Hn].
  - destruct Hf as (v & Ev & Eg & H5 & _). exists r, v. auto.
  - exfalso. apply Hn. apply elem_of_cons. left. reflexivity.
Defined.

Lemma engine_statistics_need_exact_names_witness :
  exists r,
    _calculate_tc_for_feature_multi_method 100 (Some 10) (Some 20) "B1" ["KIRPICH"]
      70 0.5 0.3 = Ok (Some r) /\
    tc_average_min r = None /\ tc_std_dev_min r = None /\ tc_recommended_min r = None.
Proof.
  destruct (engine_accepts 100 10 20 "B1" ["KIRPICH"] 70 0.5 0.3) as (r & Hr & _);
    [split; right; lra|].
  exists r. split; [exact Hr|].
  apply (engine_statistics_need_exact_names 100 10 20 "B1" ["KIRPICH"] 70 0.5 0.3 r Hr).
  constructor; [|constructor].
  unfold TCMethodFactory.get_available_methods. intros Hin.
  repeat (apply elem_of_cons in Hin as [Hin | Hin]; [discriminate Hin|]).
  apply elem_of_nil in Hin. exact Hin.
Defined.

(** Property X11.  For a positive flow length L (ft) and with S the slope
    floored at 0.001: Kirpich returns max(0.0078 L^0.77 / S^0.385, 5), FAA
    returns max(1.8 (1.1 - C) sqrt(L / 1000) / sqrt(S), 5) with C the effective
    runoff coefficient, and Kerby returns max(1.44 (n L / sqrt(S))^0.467, 5)
    with n the effective roughness coefficient. *)
Theorem kirpich_faa_kerby_closed_forms (p : TCParameters) :
  0 < flow_length_ft p ->
  let L := flow_length_ft p in
  let S := Rmax (slope_ft_ft p) 0.001 in
  KirpichMethod.calculate p
    = Ok (Rmax (0.0078 * Rpower L 0.77 / Rpower S 0.385) 5) /\
  FAAMethod.calculate p
    = Ok (Rmax (1.8 * (1.1 - effective_c (runoff_coefficient p)) * sqrt (L / 1000)
                / sqrt S) 5) /\
  KerbyMethod.calculate p
    = Ok (Rmax (1.44 * Rpower (effective_n (roughness_coefficient p) * L / sqrt S)
                          0.467) 5).
Proof.
  intros HL L S. split; [|split].
  - apply kirpich_formula, HL.
  - apply faa_formula. lra.
  - apply kerby_formula, HL.
Qed.

Lemma kirpich_faa_kerby_closed_forms_witness :
  KirpichMethod.calculate example_parameters
    = Ok (Rmax (0.0078 * Rpower 500 0.77 / Rpower (Rmax 0.02 0.001) 0.385) 5).
Proof.
  apply (kirpich_faa_kerby_closed_forms example_parameters).
  unfold example_parameters. cbn [flow_length_ft]. lra.
Defined.

Lemma statistics_order_independent_witness :
  calculate_statistics three_results ["scs"; "kirpich"; "faa"]
    = calculate_statistics three_results ["kirpich"; "faa"; "scs"].
Proof.
  apply (statistics_order_independent three_results ["scs"; "kirpich"; "faa"]
           ["kirpich"; "faa"; "scs"]).
  apply (Permutation_cons_append ["kirpich"; "faa"] "scs").
Defined.

(* ===================================================================== *)
(** ** Range of the statistics *)
(* ===================================================================== *)

(** Property X12.  When at least one selected method has a positive value and
    all such values lie between [lo] and [hi], [calculate_statistics] sets the
    three statistics, the average and the recommended value lie between [lo]
    and [hi], the standard deviation is not negative, and no method field is
    changed. *)
Theorem statistics_between_extremes (r : TCResults) (selected : list string)
    (lo hi : R) :
  (forall m v, m ∈ selected -> method_map_get r m = Some v -> 0 < v -> lo <= v <= hi) ->
  (exists m v, m ∈ selected /\ method_map_get r m = Some v /\ 0 < v) ->
  exists r' avg sd rec,
    calculate_statistics r selected = Ok r' /\
    tc_average_min r' = Some avg /\ tc_std_dev_min r' = Some sd /\
    tc_recommended_min r' = Some rec /\
    lo <= avg <= hi /\ lo <= rec <= hi /\ 0 <= sd /\
    (forall m, method_map_get r' m = method_map_get r m).
Proof.
  intros Hall (m & v & Hm & Hg & Hv).
  assert (Hne : valid_results r selected <> []).
  { intros E. pose proof (valid_results_elem r selected m v Hm Hg Hv) as Hin.
    rewrite E in Hin. apply elem_of_nil in Hin. exact Hin. }
  assert (Hb : Forall (fun v => lo <= v <= hi) (valid_results r selected)).
  { rewrite valid_results_filter. apply Forall_forall. intros x Hx.
    apply list_elem_of_filter in Hx as [Hpos Hx].
    apply list_elem_of_omap in Hx as (m' & Hm' & Hg'). eauto. }
  destruct (statistics_bounds r selected lo hi Hne Hb)
    as (r' & avg & sd & rec & E & A1 & A2 & A3 & Ha & Hr & Hs).
  exists r', avg, sd, rec. repeat split; try assumption; try lra.
  apply (statistics_keep_fields r r' selected E).
Qed.

Lemma statistics_between_extremes_witness :
  exists r' avg sd rec,
    calculate_statistics three_results ["kirpich"; "faa"; "scs"] = Ok r' /\
    tc_average_min r' = Some avg /\ tc_std_dev_min r' = Some sd /\
    tc_recommended_min r' = Some rec /\
    10 <= avg <= 30 /\ 10 <= rec <= 30 /\ 0 <= sd /\
    (forall m, method_map_get r' m = method_map_get three_results m).
Proof.
  apply (statistics_between_extremes three_results ["kirpich"; "faa"; "scs"] 10 30).
  - intros m v Hm. 
    repeat (apply elem_of_cons in Hm as [-> | Hm]);
      [| | |apply elem_of_nil in Hm; contradiction];
      intros [= <-] _; lra.
  - exists "kirpich", 10. split; [set_solver|]. split; [reflexivity|lra].
Defined.

(* ===================================================================== *)
(** ** Letter case and trimming *)
(* ===================================================================== *)

Lemma lower_char_idem c : lower_char (lower_char c) = lower_char c.
Proof. destruct c as [[] [] [] [] [] [] [] []]; reflexivity. Qed.

Lemma lower_upper_char c : lower_char (upper_char c) = lower_char c.
Proof. destruct c as [[] [] [] [] [] [] [] []]; reflexivity. Qed.

Lemma upper_lower_char c : upper_char (lower_char c) = upper_char c.
Proof. destruct c as [[] [] [] [] [] [] [] []]; reflexivity. Qed.

Lemma upper_char_idem c : upper_char (upper_char c) = upper_char c.
Proof. destruct c as [[] [] [] [] [] [] [] []]; reflexivity. Qed.

Lemma is_space_lower_char c : is_space (lower_char c) = is_space c.
Proof. destruct c as [[] [] [] [] [] [] [] []]; reflexivity. Qed.

Lemma is_space_upper_char c : is_space (upper_char c) = is_space c.
Proof. destruct c as [[] [] [] [] [] [] [] []]; reflexivity. Qed.

Lemma str_map_compose (f g h : ascii -> ascii) s :
  (forall c, f (g c) = h c) -> str_map f (str_map g s) = str_map h s.
Proof. intros Hc. induction s as [|c s IH]; simpl; [reflexivity|]. rewrite Hc, IH. reflexivity. Qed.

Lemma str_lower_idem s : str_lower (str_lower s) = str_lower s.
Proof. apply str_map_compose, lower_char_idem. Qed.

Lemma str_lower_upper s : str_lower (str_upper s) = str_lower s.
Proof. apply str_map_compose, lower_upper_char. Qed.

Lemma str_upper_lower s : str_upper (str_lower s) = str_upper s.
Proof. apply str_map_compose, upper_lower_char. Qed.

Lemma str_upper_idem s : str_upper (str_upper s) = str_upper s.
Proof. apply str_map_compose, upper_char_idem. Qed.

Lemma str_lstrip_map (f : ascii -> ascii) s :
  (forall c, is_space (f c) = is_space c) ->
  str_lstrip (str_map f s) = str_map f (str_lstrip s).
Proof.
  intros Hf. induction s as [|c s IH]; simpl; [reflexivity|].
  rewrite Hf. destruct (is_space c); [exact IH|reflexivity].
Qed.

Lemma str_rstrip_map (f : ascii -> ascii) s :
  (forall c, is_space (f c) = is_space c) ->
  str_rstrip (str_map f s) = str_map f (str_rstrip s).
Proof.
  intros Hf. induction s as [|c s IH]; simpl; [reflexivity|].
  rewrite IH, Hf. destruct (str_rstrip s); simpl; [|reflexivity].
  destruct (is_space c); reflexivity.
Qed.

Lemma str_strip_map (f : ascii -> ascii) s :
  (forall c, is_space (f c) = is_space c) ->
  str_strip (str_map f s) = str_map f (str_strip s).
Proof.
  intros Hf. unfold str_strip. rewrite str_lstrip_map, str_rstrip_map by assumption.
  reflexivity.
Qed.

Lemma str_strip_lower s : str_strip (str_lower s) = str_lower (str_strip s).
Proof. apply str_strip_map, is_space_lower_char. Qed.

Lemma str_strip_upper s : str_strip (str_upper s) = str_upper (str_strip s).
Proof. apply str_strip_map, is_space_upper_char. Qed.

(* ===================================================================== *)
(** ** The method factory *)
(* ===================================================================== *)

(** Property X13.  The factory resolves a method name without regard to
    letter case: when the lower-cased name is one of the available methods,
    the name itself, its upper-case and its lower-case form all give the same
    method; otherwise the factory raises [ValueError] with the name as it was
    given. *)
Theorem create_method_ignores_case (name : string) :
  (str_lower name ∈ TCMethodFactory.get_available_methods ->
   exists calculate,
     create_method name = Ok calculate /\
     create_method (str_upper name) = Ok calculate /\
     create_method (str_lower name) = Ok calculate) /\
  (str_lower name ∉ TCMethodFactory.get_available_methods ->
   create_method name = Raise (ValueError ("Unknown TC method: " +:+ name))).
Proof.
  split.
  - intros Hin. apply methods_available in Hin as (calc & Hc). exists calc.
    unfold create_method. rewrite str_lower_upper, str_lower_idem, Hc. auto.
  - intros Hn. pose proof (create_method_cases name) as Hc.
    destruct (TCMethodFactory.methods (str_lower name)) as [calc|] eqn:E; [|exact Hc].
    exfalso. apply Hn. apply methods_available. eauto.
Qed.

Lemma create_method_ignores_case_witness :
  exists calculate,
    create_method "Kirpich" = Ok calculate /\
    create_method (str_upper "Kirpich") = Ok calculate /\
    create_method (str_lower "Kirpich") = Ok calculate.
Proof.
  apply (proj1 (create_method_ignores_case "Kirpich")).
  apply elem_of_cons. left. reflexivity.
Defined.

(* ===================================================================== *)
(** ** The parameter estimators *)
(* ===================================================================== *)

Lemma estimate_curve_number_range s :
  55 <= estimate_curve_number_from_land_use s <= 90.
Proof.
  unfold estimate_curve_number_from_land_use, dict_get.
  destruct (cn_map !! str_lower s) as [v|] eqn:E; [|lra].
  unfold cn_map in E. apply elem_of_list_to_map_2 in E.
  repeat (apply elem_of_cons in E as [[= _ ->] | E]; [lra|]).
  apply elem_of_nil in E. contradiction.
Qed.

Lemma estimate_runoff_coefficient_range s :
  0.2 <= estimate_runoff_coefficient_from_land_use s <= 0.9.
Proof.
  unfold estimate_runoff_coefficient_from_land_use, dict_get.
  destruct (c_map !! str_lower s) as [v|] eqn:E; [|lra].
  unfold c_map in E. apply elem_of_list_to_map_2 in E.
  repeat (apply elem_of_cons in E as [[= _ ->] | E]; [lra|]).
  apply elem_of_nil in E. contradiction.
Qed.

Lemma estimate_roughness_coefficient_range s :
  0.02 <= estimate_roughness_coefficient_from_land_cover s <= 0.8.
Proof.
  unfold estimate_roughness_coefficient_from_land_cover, dict_get.
  destruct (n_map !! str_lower s) as [v|] eqn:E; [|lra].
  unfold n_map in E. apply elem_of_list_to_map_2 in E.
  repeat (apply elem_of_cons in E as [[= _ ->] | E]; [lra|]).
  apply elem_of_nil in E. contradiction.
Qed.

(** Property X14.  The three estimators always return values inside the
    ranges the parameter validation and the formulas use (curve number in
    [55, 90], runoff coefficient in [0.2, 0.9], roughness in [0.02, 0.8]), for
    known and unknown land-use names alike.  Parameters built from estimates
    therefore pass validation whenever flow length and slope are positive, the
    formulas use the estimates unclamped, and the estimates do not depend on
    the letter case of the name. *)
Theorem estimates_pass_validation (land_use land_cover : string)
    (L diff S up down : R) :
  0 < L -> 0 < S ->
  let cn := estimate_curve_number_from_land_use land_use in
  let c := estimate_runoff_coefficient_from_land_use land_use in
  let n := estimate_roughness_coefficient_from_land_cover land_cover in
  (55 <= cn <= 90 /\ 0.2 <= c <= 0.9 /\ 0.02 <= n <= 0.8) /\
  new_TCParameters L diff S up down (Some cn) (Some c) (Some n)
    = Ok (mkTCParameters L diff S up down (Some cn) (Some c) (Some n)) /\
  (effective_cn (Some cn) = cn /\ effective_c (Some c) = c /\
   effective_n (Some n) = n) /\
  (estimate_curve_number_from_land_use (str_upper land_use) = cn /\
   estimate_runoff_coefficient_from_land_use (str_upper land_use) = c /\
   estimate_roughness_coefficient_from_land_cover (str_upper land_cover) = n).
Proof.
  intros HL HS cn c n.
  pose proof (estimate_curve_number_range land_use) as Hcn.
  pose proof (estimate_runoff_coefficient_range land_use) as Hc.
  pose proof (estimate_roughness_coefficient_range land_cover) as Hn.
  fold cn in Hcn. fold c in Hc. fold n in Hn.
  split; [auto|]. split; [|split].
  - unfold new_TCParameters, post_init.
    cbn [flow_length_ft slope_ft_ft curve_number runoff_coefficient].
    destruct (decide (L <= 0)); [lra|]. destruct (decide (S <= 0)); [lra|].
    rewrite !between_not_checked by lra. reflexivity.
  - unfold effective_cn, effective_c, effective_n.
    rewrite !py_or_nonzero by lra. rewrite !clamp_id by lra. auto.
  - unfold cn, c, n, estimate_curve_number_from_land_use,
      estimate_runoff_coefficient_from_land_use,
      estimate_roughness_coefficient_from_land_cover.
    rewrite !str_lower_upper. auto.
Qed.

Lemma estimates_pass_validation_witness :
  new_TCParameters 500 10 0.02 110 100
    (Some (estimate_curve_number_from_land_use "Forest"))
    (Some (estimate_runoff_coefficient_from_land_use "Forest"))
    (Some (estimate_roughness_coefficient_from_land_cover "Swamp"))
  = Ok (mkTCParameters 500 10 0.02 110 100
          (Some (estimate_curve_number_from_land_use "Forest"))
          (Some (estimate_runoff_coefficient_from_land_use "Forest"))
          (Some (estimate_roughness_coefficient_from_land_cover "Swamp"))).
Proof.
  apply (estimates_pass_validation "Forest" "Swamp" 500 10 0.02 110 100); lra.
Defined.

(* ===================================================================== *)
(** ** The standalone calculator outside the validated range *)
(* ===================================================================== *)

Lemma div_1000_lt_9 cn : 1000 / 9 < cn -> 1000 / cn < 9.
Proof.
  intros H. assert (Hc : 0 < cn) by lra.
  apply (Rmult_lt_reg_r cn); [exact Hc|].
  replace (1000 / cn * cn) with 1000 by (field; lra). lra.
Qed.

Lemma div_1000_gt_9 cn : 0 < cn < 1000 / 9 -> 9 < 1000 / cn.
Proof.
  intros [Hc H]. apply (Rmult_lt_reg_r cn); [exact Hc|].
  replace (1000 / cn * cn) with 1000 by (field; lra). lra.
Qed.

Lemma div_1000_neg cn : cn < 0 -> 1000 / cn < 0.
Proof.
  intros Hc. unfold Rdiv. pose proof (Rinv_lt_0_compat cn Hc). nra.
Qed.

Lemma math_pow_neg x y : x < 0 -> math_pow x y = Raise (ValueError "math domain error").
Proof.
  intros Hx. unfold math_pow. destruct (decide (0 < x)); [lra|].
  destruct (decide (x = 0)); [lra|reflexivity].
Qed.

(** Property X15.  The standalone calculation does not validate the curve
    number.  A curve number of 0 makes it fail with a division by zero
    whatever the other inputs; with a non-zero curve number and a length or
    slope that is not positive the result is 0 minutes; with positive length
    and slope, a curve number strictly between 0 and 1000/9 gives the lag
    formula divided by 0.6, a positive value with no 5 minute floor, and a
    negative curve number or one above 1000/9 fails with a math domain error.
    (The method catches the exception and returns [None].) *)
Theorem standalone_curve_number_unchecked (L S_pct CN : R) :
  (CN = 0 ->
   TCCalculatorWorker.calculate_basin_tc L S_pct CN = Raise ZeroDivisionError) /\
  (CN <> 0 -> ~ (0 < L /\ 0 < S_pct) ->
   TCCalculatorWorker.calculate_basin_tc L S_pct CN = Ok 0) /\
  (0 < L -> 0 < S_pct -> 0 < CN < 1000 / 9 ->
   TCCalculatorWorker.calculate_basin_tc L S_pct CN
     = Ok (scs_lag_hours L (retention CN) S_pct * 60 / 0.6) /\
   0 < scs_lag_hours L (retention CN) S_pct * 60 / 0.6) /\
  (0 < L -> 0 < S_pct -> CN < 0 \/ 1000 / 9 < CN ->
   TCCalculatorWorker.calculate_basin_tc L S_pct CN
     = Raise (ValueError "math domain error")).
Proof.
  unfold TCCalculatorWorker.calculate_basin_tc. split; [|split; [|split]].
  - intros ->. unfold py_div. destruct (decide (0 = 0)); [reflexivity|contradiction].
  - intros Hc Hn. rewrite (py_div_ok 1000) by assumption. ok_step.
    destruct (decide (0 < L /\ 0 < S_pct)); [contradiction|reflexivity].
  - intros HL HS HCN. rewrite (py_div_ok 1000) by lra. ok_step.
    destruct (decide (0 < L /\ 0 < S_pct)) as [_|Hn]; [|tauto].
    pose proof (div_1000_gt_9 CN HCN) as Hq.
    rewrite (math_pow_pos L) by assumption. ok_step.
    rewrite (math_pow_pos (_ + 1)) by lra. ok_step.
    rewrite (math_pow_pos S_pct) by assumption. ok_step.
    replace 0.5 with (/ 2) by lra. rewrite Rpower_sqrt by assumption.
    pose proof (sqrt_lt_R0 S_pct HS) as Hr.
    rewrite (py_div_ok _ (1900 * _)) by lra. ok_step.
    rewrite py_div_ok by lra.
    unfold scs_lag_hours, retention.
    replace (1000 / CN - 10 + 1) with (1000 / CN - 9) by lra.
    split; [reflexivity|].
    pose proof (Rpower_pos L 0.8) as H1.
    pose proof (Rpower_pos (1000 / CN - 9) 0.7) as H2.
    assert (0 < Rpower L 0.8 * Rpower (1000 / CN - 9) 0.7 / (1900 * sqrt S_pct)).
    { apply Rdiv_lt_0_compat; [apply Rmult_lt_0_compat; assumption|lra]. }
    lra.
  - intros HL HS HCN.
    assert (Hq : 1000 / CN - 10 + 1 < 0).
    { destruct HCN as [Hneg|Hbig];
        [pose proof (div_1000_neg CN Hneg)|pose proof (div_1000_lt_9 CN Hbig)]; lra. }
    assert (Hc : CN <> 0).
    { destruct HCN as [Hneg|Hbig]; [lra|]. intros ->. lra. }
    rewrite (py_div_ok 1000) by assumption. ok_step.
    destruct (decide (0 < L /\ 0 < S_pct)) as [_|Hn]; [|tauto].
    rewrite (math_pow_pos L) by assumption. ok_step.
    rewrite (math_pow_neg (1000 / CN - 10 + 1)) by assumption. reflexivity.
Qed.

Lemma standalone_curve_number_unchecked_witness :
  TCCalculatorWorker.calculate_basin_tc 1000 2 120
    = Raise (ValueError "math domain error").
Proof.
  apply (proj2 (proj2 (proj2 (standalone_curve_number_unchecked 1000 2 120))));
    [lra|lra|right; lra].
Defined.

(* ===================================================================== *)
(** ** Normal form of a soil group *)
(* ===================================================================== *)

Lemma resolved_normal_form raw raw' :
  str_upper (str_strip raw') = str_upper (str_strip raw) -> resolved raw' = resolved raw.
Proof. unfold resolved. intros ->. reflexivity. Qed.

Lemma parse_normal_form raw raw' :
  str_upper (str_strip raw') = str_upper (str_strip raw) ->
  (CN.parse_soil_group raw').1 = (CN.parse_soil_group raw).1 /\
  (RationalC.parse_soil_group (Some raw')).1 = (RationalC.parse_soil_group (Some raw)).1.
Proof.
  intros E. rewrite !cn_parse_value, !c_parse_value. unfold recognized.
  rewrite (resolved_normal_form raw raw' E). split; reflexivity.
Qed.

(** Property X16.  Both parsers depend on the raw soil group only through its
    trimmed, upper-cased form: two raw strings with the same such form get the
    same soil group, so letter case and surrounding white space do not matter.
    The two parsers agree: the CN parser returns what the Rational-C parser
    returns, with 'd' in place of [None]. *)
Theorem soil_group_depends_on_normal_form (raw raw' : string) :
  (str_upper (str_strip raw') = str_upper (str_strip raw) ->
   (CN.parse_soil_group raw').1 = (CN.parse_soil_group raw).1 /\
   (RationalC.parse_soil_group (Some raw')).1
     = (RationalC.parse_soil_group (Some raw)).1) /\
  str_upper (str_strip (str_lower raw)) = str_upper (str_strip raw) /\
  str_upper (str_strip (str_upper raw)) = str_upper (str_strip raw) /\
  str_upper (str_strip (str_strip raw)) = str_upper (str_strip raw) /\
  (CN.parse_soil_group raw).1
    = default "d" (RationalC.parse_soil_group (Some raw)).1.
Proof.
  split; [apply parse_normal_form|]. split; [|split; [|split]].
  - rewrite str_strip_lower. apply str_upper_lower.
  - rewrite str_strip_upper. apply str_upper_idem.
  - rewrite str_strip_idem. reflexivity.
  - rewrite cn_parse_value, c_parse_value. destruct (recognized raw); reflexivity.
Qed.

Lemma soil_group_depends_on_normal_form_witness :
  (CN.parse_soil_group " b/d ").1 = (CN.parse_soil_group "B/D").1 /\
  (RationalC.parse_soil_group (Some " b/d ")).1
    = (RationalC.parse_soil_group (Some "B/D")).1.
Proof.
  apply (proj1 (soil_group_depends_on_normal_form "B/D" " b/d ")). reflexivity.
Defined.

(* ===================================================================== *)
(** ** The CN lookup dictionary *)
(* ===================================================================== *)

Lemma cn_lookup_step_other (m : gmap (string * string) R) (row : CN.LookupRow) k g :
  row_key row <> k \/ g ∉ ["a"; "b"; "c"; "d"] ->
  (<[(row_key row, "d") := CN.row_d row]>
     (<[(row_key row, "c") := CN.row_c row]>
        (<[(row_key row, "b") := CN.row_b row]>
           (<[(row_key row, "a") := CN.row_a row]> m)))) !! (k, g) = m !! (k, g).
Proof.
  intros Hne.
  rewrite !lookup_insert_ne; [reflexivity| | | |];
    intros [= E1 E2]; destruct Hne as [Hne|Hne]; try (apply Hne; exact E1);
    apply Hne; rewrite <- E2; set_solver.
Qed.

Lemma cn_lookup_step_same (m : gmap (string * string) R) (row : CN.LookupRow) g :
  g ∈ ["a"; "b"; "c"; "d"] ->
  (<[(row_key row, "d") := CN.row_d row]>
     (<[(row_key row, "c") := CN.row_c row]>
        (<[(row_key row, "b") := CN.row_b row]>
           (<[(row_key row, "a") := CN.row_a row]> m)))) !! (row_key row, g)
    = Some (row_value row g).
Proof.
  intros Hg.
  repeat (apply elem_of_cons in Hg as [-> | Hg]);
    [| | | |apply elem_of_nil in Hg; contradiction].
  - rewrite !lookup_insert_ne by (intros [=]). apply lookup_insert_eq.
  - rewrite !lookup_insert_ne by (intros [=]). apply lookup_insert_eq.
  - rewrite !lookup_insert_ne by (intros [=]). apply lookup_insert_eq.
  - apply lookup_insert_eq.
Qed.

Lemma build_cn_lookup_snoc df row :
  CN.build_cn_lookup (df ++ [row]) =
    <[(row_key row, "d") := CN.row_d row]>
      (<[(row_key row, "c") := CN.row_c row]>
         (<[(row_key row, "b") := CN.row_b row]>
            (<[(row_key row, "a") := CN.row_a row]> (CN.build_cn_lookup df)))).
Proof. unfold CN.build_cn_lookup. rewrite fold_left_app. reflexivity. Qed.

Lemma build_cn_lookup_lookup (df : list CN.LookupRow) (k g : string) :
  CN.build_cn_lookup df !! (k, g) =
    if decide (g ∈ ["a"; "b"; "c"; "d"]) then
      row ← last (filter (fun row => row_key row = k) df); Some (row_value row g)
    else None.
Proof.
  induction df as [|row df IH] using rev_ind.
  - unfold CN.build_cn_lookup. cbn [fold_left]. rewrite lookup_empty.
    destruct (decide _); reflexivity.
  - rewrite build_cn_lookup_snoc, filter_app.
    destruct (decide (row_key row = k)) as [Ek|Ek].
    + destruct (decide (g ∈ ["a"; "b"; "c"; "d"])) as [Hg|Hg].
      * rewrite filter_cons_True by exact Ek. rewrite filter_nil, last_snoc.
        rewrite <- Ek. apply cn_lookup_step_same, Hg.
      * rewrite cn_lookup_step_other by (right; exact Hg). exact IH.
    + rewrite cn_lookup_step_other by (left; exact Ek). rewrite IH.
      rewrite filter_cons_False by exact Ek. rewrite filter_nil, app_nil_r.
      reflexivity.
Qed.

Lemma filter_all_False {A : Type} (P : A -> Prop) `{forall x, Decision (P x)}
    (l : list A) :
  Forall (fun x => ~ P x) l -> filter P l = [].
Proof.
  induction 1 as [|x rest Hx _ IH]; [reflexivity|].
  rewrite filter_cons_False by exact Hx. exact IH.
Qed.

Lemma build_cn_lookup_absent (df : list CN.LookupRow) (k g : string) :
  Forall (fun row => row_key row <> k) df -> CN.build_cn_lookup df !! (k, g) = None.
Proof.
  intros Hall. rewrite build_cn_lookup_lookup. destruct (decide _); [|reflexivity].
  rewrite (filter_all_False (fun row => row_key row = k) df Hall). reflexivity.
Qed.

Lemma build_cn_lookup_last (before after : list CN.LookupRow) (row : CN.LookupRow)
    (g : string) :
  g ∈ ["a"; "b"; "c"; "d"] ->
  Forall (fun later => row_key later <> row_key row) after ->
  CN.build_cn_lookup (before ++ row :: after) !! (row_key row, g)
    = Some (row_value row g).
Proof.
  intros Hg Hafter. rewrite build_cn_lookup_lookup.
  destruct (decide _); [|contradiction].
  rewrite filter_app, filter_cons_True by reflexivity.
  rewrite (filter_all_False (fun r => row_key r = row_key row) after Hafter).
  rewrite last_snoc. reflexivity.
Qed.

Lemma build_cn_lookup_present (df : list CN.LookupRow) (k g : string) v :
  CN.build_cn_lookup df !! (k, g) = Some v ->
  g ∈ ["a"; "b"; "c"; "d"] /\
  exists before row after,
    df = before ++ row :: after /\ row_key row = k /\ v = row_value row g /\
    Forall (fun later => row_key later <> k) after.
Proof.
  rewrite build_cn_lookup_lookup. destruct (decide _) as [Hg|]; [|discriminate].
  destruct (last (filter (fun row => row_key row = k) df)) as [row|] eqn:El;
    [|discriminate].
  cbn [mbind option_bind]. intros [= <-]. split; [exact Hg|].
  assert (Hin : row ∈ filter (fun row => row_key row = k) df).
  { apply last_Some in El as (l' & ->). apply elem_of_app. right. apply elem_of_cons. left. reflexivity. }
  apply list_elem_of_filter in Hin as [Ek _].
  apply last_filter_Some in El as (l1 & l2 & -> & Hl2).
  exists l1, row, l2. auto.
Qed.

(** Property X17.  The CN lookup dictionary has a value under (land use, soil
    group) exactly for the soil groups 'a', 'b', 'c', 'd' and the land uses of
    the table, compared after trimming and lower-casing; when several rows
    have the same land use, the last one wins. *)
Theorem cn_lookup_last_row_wins (df : list CN.LookupRow) (k g : string) :
  (g ∉ ["a"; "b"; "c"; "d"] -> CN.build_cn_lookup df !! (k, g) = None) /\
  (Forall (fun row => row_key row <> k) df -> CN.build_cn_lookup df !! (k, g) = None) /\
  (forall before row after,
     g ∈ ["a"; "b"; "c"; "d"] ->
     df = before ++ row :: after -> row_key row = k ->
     Forall (fun later => row_key later <> k) after ->
     CN.build_cn_lookup df !! (k, g) = Some (row_value row g)).
Proof.
  split; [|split].
  - intros Hg. rewrite build_cn_lookup_lookup.
    destruct (decide _); [contradiction|reflexivity].
  - apply build_cn_lookup_absent.
  - intros before row after Hg -> <- Hafter. apply build_cn_lookup_last; assumption.
Qed.

Lemma cn_lookup_last_row_wins_witness :
  CN.build_cn_lookup
    [CN.mkLookupRow "res" 80 85 90 95; CN.mkLookupRow " Res " 60 65 70 75]
    !! ("res", "b") = Some 65.
Proof.
  apply (proj2 (proj2 (cn_lookup_last_row_wins
                         [CN.mkLookupRow "res" 80 85 90 95;
                          CN.mkLookupRow " Res " 60 65 70 75] "res" "b"))
           [CN.mkLookupRow "res" 80 85 90 95] (CN.mkLookupRow " Res " 60 65 70 75) []).
  - set_solver.
  - reflexivity.
  - reflexivity.
  - constructor.
Defined.

(* ===================================================================== *)
(** ** Composite values *)
(* ===================================================================== *)

Lemma Rsum_app l l' : Rsum (l ++ l') = Rsum l + Rsum l'.
Proof. induction l as [|x l IH]; simpl; [lra|]. rewrite IH. lra. Qed.

Section WeightedMeanMore.
Context {K : Type} `{EqDecision K}.
Variable value_of : Feature K -> option R.

Lemma sums_bounds lo hi z (fs : list (Feature K)) :
  (forall f v, value_of f = Some v -> lo <= v <= hi) ->
  Forall (fun f => zone_attr f = z -> 0 <= geometry_area f) fs ->
  0 <= sum_area value_of z fs /\
  lo * sum_area value_of z fs <= sum_value_area value_of z fs
    <= hi * sum_area value_of z fs.
Proof.
  intros Hv Hall. induction Hall as [|f fs Hf _ IH].
  - destruct (sums_nil value_of z) as [-> ->]. lra.
  - destruct (decide (zone_attr f = z)) as [Ez|Ez].
    + destruct (value_of f) as [v|] eqn:Ev.
      * destruct (sums_cons_hit value_of z f fs v Ez Ev) as [-> ->].
        specialize (Hf Ez). specialize (Hv f v Ev).
        assert (0 <= acres_from_sqft (geometry_area f))
          by (unfold acres_from_sqft; lra).
        nra.
      * destruct (sums_cons_skip value_of z f fs (or_intror Ev)) as [-> ->]. exact IH.
    + destruct (sums_cons_skip value_of z f fs (or_introl Ez)) as [-> ->]. exact IH.
Qed.

Lemma weighted_mean_bounds lo hi z (fs : list (Feature K)) m :
  (forall f v, value_of f = Some v -> lo <= v <= hi) ->
  Forall (fun f => zone_attr f = z -> 0 <= geometry_area f) fs ->
  weighted_mean value_of z fs = Some m -> lo <= m <= hi.
Proof.
  intros Hv Hall. destruct (sums_bounds lo hi z fs Hv Hall) as (_ & Hlo & Hhi).
  unfold weighted_mean. destruct (decide _) as [Hpos|]; [|discriminate].
  intros [= <-].
  assert (E : sum_value_area value_of z fs / sum_area value_of z fs
              * sum_area value_of z fs = sum_value_area value_of z fs)
    by (field; lra).
  split; apply (Rmult_le_reg_r (sum_area value_of z fs)); try assumption; lra.
Qed.

Lemma sums_scale k z (fs : list (Feature K)) :
  (forall f, value_of (scale_area k f) = value_of f) ->
  sum_area value_of z (scale_area k <$> fs) = k * sum_area value_of z fs /\
  sum_value_area value_of z (scale_area k <$> fs) = k * sum_value_area value_of z fs.
Proof.
  intros Hs. induction fs as [|f fs IH].
  - destruct (sums_nil value_of z) as [E1 E2]. rewrite fmap_nil, E1, E2. lra.
  - rewrite fmap_cons. destruct IH as [IH1 IH2].
    destruct (decide (zone_attr f = z)) as [Ez|Ez].
    + destruct (value_of f) as [v|] eqn:Ev.
      * destruct (sums_cons_hit value_of z f fs v Ez Ev) as [-> ->].
        assert (Ev' : value_of (scale_area k f) = Some v) by (rewrite Hs; exact Ev).
        destruct (sums_cons_hit value_of z (scale_area k f) (scale_area k <$> fs) v
                    Ez Ev') as [-> ->].
        rewrite IH1, IH2. unfold scale_area, acres_from_sqft.
        cbn [geometry_area]. split; lra.
      * destruct (sums_cons_skip value_of z f fs (or_intror Ev)) as [-> ->].
        assert (Ev' : value_of (scale_area k f) = None) by (rewrite Hs; exact Ev).
        destruct (sums_cons_skip value_of z (scale_area k f) (scale_area k <$> fs)
                    (or_intror Ev')) as [-> ->].
        split; assumption.
    + destruct (sums_cons_skip value_of z f fs (or_introl Ez)) as [-> ->].
      destruct (sums_cons_skip value_of z (scale_area k f) (scale_area k <$> fs)
                  (or_introl Ez)) as [-> ->].
      split; assumption.
Qed.

Lemma weighted_mean_scale k z (fs : list (Feature K)) :
  0 < k -> (forall f, value_of (scale_area k f) = value_of f) ->
  weighted_mean value_of z (scale_area k <$> fs) = weighted_mean value_of z fs.
Proof.
  intros Hk Hs. unfold weighted_mean. destruct (sums_scale k z fs Hs) as [-> ->].
  destruct (decide (0 < sum_area value_of z fs)) as [Hp|Hp].
  - destruct (decide (0 < k * sum_area value_of z fs)) as [_|Hn]; [|nra].
    f_equal. field. lra.
  - destruct (decide (0 < k * sum_area value_of z fs)) as [Hq|_]; [nra|reflexivity].
Qed.

Lemma contributions_filter_zone z (fs : list (Feature K)) :
  contributions value_of z (filter (fun f => zone_attr f = z) fs)
    = contributions value_of z fs.
Proof.
  unfold contributions. induction fs as [|f fs IH]; [reflexivity|].
  destruct (decide (zone_attr f = z)) as [Ez|Ez].
  - rewrite filter_cons_True by exact Ez. cbn [omap list_omap]. 
    destruct (contribution value_of z f); [f_equal|]; exact IH.
  - rewrite filter_cons_False by exact Ez. cbn [omap list_omap].
    rewrite (contribution_skip value_of z f (or_introl Ez)). exact IH.
Qed.

Lemma weighted_mean_own_zone z (fs fs' : list (Feature K)) :
  filter (fun f => zone_attr f = z) fs = filter (fun f => zone_attr f = z) fs' ->
  weighted_mean value_of z fs = weighted_mean value_of z fs'.
Proof.
  intros E. unfold weighted_mean, sum_area, sum_value_area.
  rewrite <- (contributions_filter_zone z fs), <- (contributions_filter_zone z fs'), E.
  reflexivity.
Qed.
End WeightedMeanMore.

Section Composites.
Context {K : Type} `{Countable K}.
Variable cn_lookup : gmap (string * string) R.
Variable c_lookup_df : gmap (string * string) R.
Variable suffix : RationalC.slope_category.

Lemma feature_c_range lo hi (f : Feature K) v :
  (forall key w, c_lookup_df !! key = Some w -> lo <= w <= hi) ->
  lo <= 0.95 <= hi ->
  RationalC.feature_c c_lookup_df suffix f = Some v -> lo <= v <= hi.
Proof.
  intros Ht H95. unfold RationalC.feature_c.
  destruct (RationalC.parse_soil_group _).1 as [g|].
  - apply Ht.
  - intros [= <-]. exact H95.
Qed.

(** Property X18.  In exact arithmetic (the floats of the program are real
    numbers here), and with fragment areas that are not negative, the
    area-weighted mean a composite stands for lies within the range of the
    values it is averaged from: a composite CN lies between any two bounds
    that hold for all values of the lookup table, and a composite C does so
    when the bounds also hold for the fixed value 0.95.  The binary64 result
    of the program can leave the range by rounding: one fragment of value 98
    and area 29 square feet gives 98.00000000000001. *)
Theorem composite_within_table_range (lo hi : R) (fs : list (Feature K)) (z : K) :
  Forall (fun f => zone_attr f = z -> 0 <= geometry_area f) fs ->
  (forall v,
     (forall key w, cn_lookup !! key = Some w -> lo <= w <= hi) ->
     CN.cn_comp cn_lookup fs z = Some v -> lo <= v <= hi) /\
  (forall v,
     (forall key w, c_lookup_df !! key = Some w -> lo <= w <= hi) ->
     lo <= 0.95 <= hi ->
     RationalC.c_comp c_lookup_df suffix fs z = Some v -> lo <= v <= hi).
Proof.
  intros Harea. split.
  - intros v Ht. rewrite cn_comp_weighted_mean.
    apply weighted_mean_bounds; [|exact Harea].
    intros f w. unfold CN.feature_cn. apply Ht.
  - intros v Ht H95. rewrite c_comp_weighted_mean.
    apply weighted_mean_bounds; [|exact Harea].
    intros f w. apply feature_c_range; assumption.
Qed.

(** Property X19.  In exact arithmetic (the floats of the program are real
    numbers here), the composite of both calculators is unchanged when all
    fragment areas are multiplied by the same positive factor: the unit of
    area, and with it the conversion to acres, has no influence on the
    weighted mean.  The binary64 results of the program agree only up to
    rounding: two fragments of 10 square feet with values 80 and 85 give
    82.49999999999999, and 82.5 when the areas are multiplied by 43560. *)
Theorem composite_invariant_under_area_scaling (k : R) (fs : list (Feature K)) (z : K) :
  0 < k ->
  CN.cn_comp cn_lookup (scale_area k <$> fs) z = CN.cn_comp cn_lookup fs z /\
  RationalC.c_comp c_lookup_df suffix (scale_area k <$> fs) z
    = RationalC.c_comp c_lookup_df suffix fs z.
Proof.
  intros Hk. rewrite !cn_comp_weighted_mean, !c_comp_weighted_mean.
  split; apply weighted_mean_scale; try assumption; intros f; reflexivity.
Qed.

(** Property X20.  The composite of a zone depends only on the fragments of
    that zone, in their order: two runs whose inputs have the same fragments
    in the zone give it the same composite. *)
Theorem composite_depends_only_on_own_zone (fs fs' : list (Feature K)) (z : K) :
  filter (fun f => zone_attr f = z) fs = filter (fun f => zone_attr f = z) fs' ->
  CN.cn_comp cn_lookup fs z = CN.cn_comp cn_lookup fs' z /\
  RationalC.c_comp c_lookup_df suffix fs z = RationalC.c_comp c_lookup_df suffix fs' z.
Proof.
  intros E. rewrite !cn_comp_weighted_mean, !c_comp_weighted_mean.
  split; apply weighted_mean_own_zone; exact E.
Qed.
End Composites.

(* ===================================================================== *)
(** ** Detailed records *)
(* ===================================================================== *)

Section CNDetails.
Context {K : Type} `{Countable K}.
Variable cn_lookup : gmap (string * string) R.

Lemma cn_loop_body_record (st : CN.State K) (f : Feature K) :
  match cn_detail_record cn_lookup f with
  | None => CN.loop_body cn_lookup st f = st
  | Some rec =>
      (CN.loop_body cn_lookup st f).2 = st.2 ++ [rec] /\
      CN.d_subbasin_id rec = zone_attr f /\
      (forall z,
         cn_zone_details (CN.loop_body cn_lookup st f).1 z
           = if decide (zone_attr f = z) then cn_zone_details st.1 z ++ [rec]
             else cn_zone_details st.1 z)
  end.
Proof.
  unfold cn_detail_record, CN.loop_body, CN.feature_cn. cbv zeta.
  destruct (cn_lookup !! _) as [v|]; cbn [mbind option_bind]; [|reflexivity].
  split; [reflexivity|]. split; [reflexivity|].
  intros z. unfold cn_zone_details. cbn [fst].
  destruct (decide (zone_attr f = z)) as [<- |Ez].
  - rewrite lookup_insert_eq. cbn [CN.details].
    destruct (st.1 !! zone_attr f); reflexivity.
  - rewrite lookup_insert_ne by exact Ez. reflexivity.
Qed.

Lemma cn_fold_records (fs : list (Feature K)) :
  forall st : CN.State K,
    (forall z, cn_zone_details st.1 z = filter (fun d => CN.d_subbasin_id d = z) st.2) ->
    let st' := fold_left (CN.loop_body cn_lookup) fs st in
    st'.2 = st.2 ++ omap (cn_detail_record cn_lookup) fs /\
    (forall z, cn_zone_details st'.1 z = filter (fun d => CN.d_subbasin_id d = z) st'.2).
Proof.
  induction fs as [|f fs IH]; intros st Hst; cbn [fold_left omap list_omap].
  - rewrite app_nil_r. split; [reflexivity|exact Hst].
  - pose proof (cn_loop_body_record st f) as Hb.
    destruct (cn_detail_record cn_lookup f) as [rec|].
    + destruct Hb as (E2 & Ez & Ed).
      destruct (IH (CN.loop_body cn_lookup st f)) as [A1 A2].
      * intros z. rewrite Ed, E2, filter_app, Hst.
        destruct (decide (zone_attr f = z)) as [Efz|Efz].
        -- rewrite filter_cons_True by (rewrite Ez; exact Efz). reflexivity.
        -- rewrite filter_cons_False by (rewrite Ez; exact Efz).
           rewrite filter_nil, app_nil_r. reflexivity.
      * cbv zeta. split; [|exact A2]. rewrite A1, E2, <- app_assoc. reflexivity.
    + rewrite Hb. apply IH, Hst.
Qed.

Lemma cn_run_records (fs : list (Feature K)) :
  (CN.run_loop cn_lookup fs).2 = omap (cn_detail_record cn_lookup) fs /\
  (forall z, cn_zone_details (CN.run_loop cn_lookup fs).1 z
             = filter (fun d => CN.d_subbasin_id d = z) (CN.run_loop cn_lookup fs).2).
Proof.
  destruct (cn_fold_records fs (∅, [])) as [A1 A2].
  { intros z'. unfold cn_zone_details. cbn [fst snd]. rewrite lookup_empty. reflexivity. }
  split; [exact A1|exact A2].
Qed.

Lemma cn_fold_nonempty (fs : list (Feature K)) :
  forall st : CN.State K,
    (forall z e, st.1 !! z = Some e -> CN.details e <> []) ->
    forall z e, (fold_left (CN.loop_body cn_lookup) fs st).1 !! z = Some e ->
                CN.details e <> [].
Proof.
  induction fs as [|f fs IH]; intros st Hst; cbn [fold_left]; [exact Hst|].
  apply IH. intros z e. unfold CN.loop_body. cbv zeta.
  destruct (cn_lookup !! _) as [v|]; [|apply Hst]. cbn [fst].
  destruct (decide (zone_attr f = z)) as [<- |Ez].
  - rewrite lookup_insert_eq. intros [= <-]. cbn [CN.details].
    intros E. apply app_eq_nil in E as [_ E]. discriminate E.
  - rewrite lookup_insert_ne by exact Ez. apply Hst.
Qed.

Lemma cn_detail_record_cases (f : Feature K) :
  match CN.feature_cn cn_lookup f with
  | Some v =>
      exists rec, cn_detail_record cn_lookup f = Some rec /\
        CN.d_subbasin_id rec = zone_attr f /\
        CN.d_area_acres rec = acres_from_sqft (geometry_area f) /\
        CN.d_cn_area_product rec = v * acres_from_sqft (geometry_area f)
  | None => cn_detail_record cn_lookup f = None
  end.
Proof.
  unfold cn_detail_record. destruct (CN.feature_cn cn_lookup f) as [v|];
    cbn [mbind option_bind]; [|reflexivity].
  eexists. split; [reflexivity|]. repeat split; reflexivity.
Qed.

Lemma cn_record_sums (fs : list (Feature K)) (z : K) :
  let recs := filter (fun d => CN.d_subbasin_id d = z)
                (omap (cn_detail_record cn_lookup) fs) in
  Rsum (map CN.d_area_acres recs) = sum_area (CN.feature_cn cn_lookup) z fs /\
  Rsum (map CN.d_cn_area_product recs)
    = sum_value_area (CN.feature_cn cn_lookup) z fs.
Proof.
  induction fs as [|f fs IH]; cbn [omap list_omap]; [split; reflexivity|].
  cbv zeta in IH. destruct IH as [IH1 IH2]. cbv zeta.
  pose proof (cn_detail_record_cases f) as Hc.
  destruct (CN.feature_cn cn_lookup f) as [v|] eqn:Ev.
  - destruct Hc as (rec & -> & Ei & Ea & Ep).
    destruct (decide (zone_attr f = z)) as [Ez|Ez].
    + rewrite filter_cons_True by (rewrite Ei; exact Ez).
      destruct (sums_cons_hit (CN.feature_cn cn_lookup) z f fs v Ez Ev) as [-> ->].
      cbn [map Rsum]. rewrite IH1, IH2, Ea, Ep. split; reflexivity.
    + rewrite filter_cons_False by (rewrite Ei; exact Ez).
      destruct (sums_cons_skip (CN.feature_cn cn_lookup) z f fs (or_introl Ez))
        as [-> ->].
      split; assumption.
  - rewrite Hc.
    destruct (sums_cons_skip (CN.feature_cn cn_lookup) z f fs (or_intror Ev))
      as [-> ->].
    split; assumption.
Qed.

(** Property X21.  After a run of the CN loop, [detailed_records] holds one
    record per fragment that was given a value, in input order, with the
    fields the loop computes; the [details] of a subbasin are the records of
    that subbasin; its total area and weighted sum are the sums of the area
    and product columns of those records; every product is value times area;
    and a subbasin has an entry exactly when it has a record. *)
Theorem cn_details_reconcile (fs : list (Feature K)) (z : K) :
  let st := CN.run_loop cn_lookup fs in
  let recs := filter (fun d => CN.d_subbasin_id d = z) st.2 in
  st.2 = omap (cn_detail_record cn_lookup) fs /\
  cn_zone_details st.1 z = recs /\
  cn_zone_total st.1 z = Rsum (map CN.d_area_acres recs) /\
  cn_zone_sum st.1 z = Rsum (map CN.d_cn_area_product recs) /\
  Forall (fun d => CN.d_cn_area_product d = CN.d_cn_value d * CN.d_area_acres d) st.2 /\
  (is_Some (st.1 !! z) <-> recs <> []).
Proof.
  intros st recs.
  assert (Hent : is_Some (st.1 !! z) <-> cn_zone_details st.1 z <> []).
  { unfold cn_zone_details. split.
    - intros [e He]. rewrite He. apply (cn_fold_nonempty fs (∅, [])) with z; [|exact He].
      intros z' e'. cbn [fst]. rewrite lookup_empty. discriminate.
    - destruct (st.1 !! z) as [e|]; [eauto|contradiction]. }
  destruct (cn_run_records fs) as [A1 A2]. fold st in A1, A2.
  destruct (cn_run_totals cn_lookup fs z) as [T1 T2]. fold st in T1, T2.
  destruct (cn_record_sums fs z) as [S1 S2].
  split; [exact A1|]. split; [apply A2|].
  rewrite (A2 z) in Hent. fold recs in Hent.
  unfold recs. rewrite A1. split; [rewrite T1, S1; reflexivity|].
  split; [rewrite T2, S2; reflexivity|]. split.
  - apply Forall_forall. intros d Hd. apply list_elem_of_omap in Hd as (f & _ & Hf).
    unfold cn_detail_record in Hf. destruct (CN.feature_cn cn_lookup f) as [v|];
      [|discriminate]. injection Hf as <-. reflexivity.
  - rewrite <- A1. exact Hent.
Qed.

(** Property X22.  For every subbasin that has a detailed record, the header
    row of the detailed CSV finds the subbasin's entry (the dictionary access
    cannot fail), and the composite it writes is the [CN_Comp] attribute of
    the output layer rounded to two decimals, hence within 0.005 of it; where
    that attribute is null, which happens only when the accumulated area is
    not positive, the row carries 0. *)
Theorem csv_header_never_misses (fs : list (Feature K)) (z : K) :
  let st := CN.run_loop cn_lookup fs in
  filter (fun d => CN.d_subbasin_id d = z) st.2 <> [] ->
  exists e written,
    st.1 !! z = Some e /\
    CN.csv_cn_composite st.1 z = Some written /\
    (forall v, CN.cn_comp cn_lookup fs z = Some v ->
       written = py_round v 2 /\ - 0.005 <= written - v <= 0.005) /\
    (CN.cn_comp cn_lookup fs z = None -> CN.total_area e <= 0 /\ written = 0).
Proof.
  intros st Hne.
  destruct (cn_run_records fs) as [_ A2]. fold st in A2.
  specialize (A2 z). unfold cn_zone_details in A2.
  unfold CN.csv_cn_composite, CN.cn_comp, CN.output_attributes. fold st.
  destruct (st.1 !! z) as [e|]; [|symmetry in A2; contradiction].
  exists e. cbn [mbind option_bind]. cbv zeta.
  destruct (decide (0 < CN.total_area e)) as [Hp|Hp]; cbn [fst].
  - eexists. split; [reflexivity|]. split; [reflexivity|]. split; [|discriminate].
    intros v [= <-]. split; [reflexivity|apply py_round_2_near].
  - exists 0. split; [reflexivity|]. split; [rewrite py_round_2_zero; reflexivity|].
    split; [discriminate|]. intros _. split; [lra|reflexivity].
Qed.
End CNDetails.

Section CDetails.
Context {K : Type} `{Countable K}.
Variable c_lookup_df : gmap (string * string) R.
Variable suffix : RationalC.slope_category.

Lemma c_loop_body_record (st : RationalC.State K) (f : Feature K) :
  match c_detail_record c_lookup_df suffix f with
  | None => RationalC.loop_body c_lookup_df suffix st f = st
  | Some rec => (RationalC.loop_body c_lookup_df suffix st f).2 = st.2 ++ [rec]
  end.
Proof.
  unfold c_detail_record, RationalC.loop_body, RationalC.feature_c. cbv zeta.
  destruct (RationalC.parse_soil_group _).1 as [g|].
  - destruct (c_lookup_df !! _) as [v|]; reflexivity.
  - reflexivity.
Qed.

Lemma c_fold_records (fs : list (Feature K)) :
  forall st : RationalC.State K,
    (fold_left (RationalC.loop_body c_lookup_df suffix) fs st).2
      = st.2 ++ omap (c_detail_record c_lookup_df suffix) fs.
Proof.
  induction fs as [|f fs IH]; intros st; cbn [fold_left omap list_omap].
  - rewrite app_nil_r. reflexivity.
  - pose proof (c_loop_body_record st f) as Hb.
    destruct (c_detail_record c_lookup_df suffix f) as [rec|].
    + rewrite IH, Hb, <- app_assoc. reflexivity.
    + rewrite Hb. apply IH.
Qed.

Lemma c_detail_record_cases (f : Feature K) :
  match RationalC.feature_c c_lookup_df suffix f with
  | Some v =>
      exists rec, c_detail_record c_lookup_df suffix f = Some rec /\
        RationalC.d_catchment_id rec = zone_attr f /\
        RationalC.d_area_acres rec = acres_from_sqft (geometry_area f) /\
        RationalC.d_c_area_product rec = v * acres_from_sqft (geometry_area f)
  | None => c_detail_record c_lookup_df suffix f = None
  end.
Proof.
  unfold c_detail_record.
  destruct (RationalC.feature_c c_lookup_df suffix f) as [v|];
    cbn [mbind option_bind]; [|reflexivity].
  eexists. split; [reflexivity|]. repeat split; reflexivity.
Qed.

Lemma c_record_sums (fs : list (Feature K)) (z : K) :
  let recs := filter (fun d => RationalC.d_catchment_id d = z)
                (omap (c_detail_record c_lookup_df suffix) fs) in
  Rsum (map RationalC.d_area_acres recs)
    = sum_area (RationalC.feature_c c_lookup_df suffix) z fs /\
  Rsum (map RationalC.d_c_area_product recs)
    = sum_value_area (RationalC.feature_c c_lookup_df suffix) z fs.
Proof.
  induction fs as [|f fs IH]; cbn [omap list_omap]; [split; reflexivity|].
  cbv zeta in IH. destruct IH as [IH1 IH2]. cbv zeta.
  pose proof (c_detail_record_cases f) as Hc.
  destruct (RationalC.feature_c c_lookup_df suffix f) as [v|] eqn:Ev.
  - destruct Hc as (rec & -> & Ei & Ea & Ep).
    destruct (decide (zone_attr f = z)) as [Ez|Ez].
    + rewrite filter_cons_True by (rewrite Ei; exact Ez).
      destruct (sums_cons_hit (RationalC.feature_c c_lookup_df suffix) z f fs v Ez Ev)
        as [-> ->].
      cbn [map Rsum]. rewrite IH1, IH2, Ea, Ep. split; reflexivity.
    + rewrite filter_cons_False by (rewrite Ei; exact Ez).
      destruct (sums_cons_skip (RationalC.feature_c c_lookup_df suffix) z f fs
                  (or_introl Ez)) as [-> ->].
      split; assumption.
  - rewrite Hc.
    destruct (sums_cons_skip (RationalC.feature_c c_lookup_df suffix) z f fs
                (or_intror Ev)) as [-> ->].
    split; assumption.
Qed.

(** Property X23.  After a run of the Rational-C loop, [detailed_records]
    holds one record per fragment that was given a value, in input order; the
    total area and weighted sum of a catchment are the sums of the area and
    product columns of its records; every product is value times area; and a
    record whose soil group is shown as 'N/A' carries the value 0.95. *)
Theorem c_details_reconcile (fs : list (Feature K)) (z : K) :
  let st := RationalC.run_loop c_lookup_df suffix fs in
  let recs := filter (fun d => RationalC.d_catchment_id d = z) st.2 in
  st.2 = omap (c_detail_record c_lookup_df suffix) fs /\
  c_zone_total st.1 z = Rsum (map RationalC.d_area_acres recs) /\
  c_zone_sum st.1 z = Rsum (map RationalC.d_c_area_product recs) /\
  Forall (fun d => RationalC.d_c_area_product d
                   = RationalC.d_c_value d * RationalC.d_area_acres d) st.2 /\
  Forall (fun d => RationalC.d_soil_group_used d = "N/A" -> RationalC.d_c_value d = 0.95)
    st.2.
Proof.
  intros st recs.
  pose proof (c_fold_records fs (∅, [])) as A1. cbn [snd app] in A1.
  fold (RationalC.run_loop c_lookup_df suffix fs) in A1. fold st in A1.
  destruct (c_run_totals c_lookup_df suffix fs z) as [T1 T2]. fold st in T1, T2.
  destruct (c_record_sums fs z) as [S1 S2].
  split; [exact A1|]. unfold recs. rewrite A1.
  split; [rewrite T1, S1; reflexivity|]. split; [rewrite T2, S2; reflexivity|].
  split.
  - apply Forall_forall. intros d Hd. apply list_elem_of_omap in Hd as (f & _ & Hf).
    unfold c_detail_record in Hf.
    destruct (RationalC.feature_c c_lookup_df suffix f) as [v|]; [|discriminate].
    injection Hf as <-. reflexivity.
  - apply Forall_forall. intros d Hd. apply list_elem_of_omap in Hd as (f & _ & Hf).
    unfold c_detail_record, RationalC.feature_c in Hf.
    destruct (RationalC.parse_soil_group (Some (soil_attr f))).1 as [g|] eqn:Eg.
    + destruct (c_lookup_df !! _) as [v|]; [|discriminate].
      injection Hf as <-. cbn [RationalC.d_soil_group_used].
      intros Hna. exfalso.
      pose proof (c_parse_range _ _ Eg) as Hg.
      repeat (apply elem_of_cons in Hg as [-> | Hg]; [discriminate Hna|]).
      apply elem_of_nil in Hg. exact Hg.
    + injection Hf as <-. reflexivity.
Qed.
End CDetails.

(* ===================================================================== *)
(** ** Fragments the CN loop skips *)
(* ===================================================================== *)

(** Property X24.  With the dictionary built from a lookup table, the CN
    loop skips a fragment exactly when no row of the table has the fragment's
    land use (trimmed, lower-cased): the soil group can never cause a miss,
    since an unrecognized one is replaced by 'd'.  A fragment that is not
    skipped gets the value the last row with its land use gives its soil
    group. *)
Theorem cn_fragment_skipped_only_for_land_use {K : Type} (df : list CN.LookupRow)
    (f : Feature K) :
  let key := str_lower (str_strip (landuse_attr f)) in
  let g := (CN.parse_soil_group (str_strip (soil_attr f))).1 in
  (CN.feature_cn (CN.build_cn_lookup df) f = None <->
   Forall (fun row => row_key row <> key) df) /\
  (forall v, CN.feature_cn (CN.build_cn_lookup df) f = Some v ->
     exists before row after,
       df = before ++ row :: after /\ row_key row = key /\ v = row_value row g /\
       Forall (fun later => row_key later <> key) after).
Proof.
  intros key g. unfold CN.feature_cn. cbv zeta. fold key g. split.
  - split.
    + intros Hnone. apply Forall_forall. intros row Hin Ek.
      apply list_elem_of_split in Hin as (l1 & l2 & ->).
      assert (Hex : exists before r after,
                 l1 ++ row :: l2 = before ++ r :: after /\ row_key r = key /\
                 Forall (fun later => row_key later <> key) after).
      { clear Hnone. revert l1. induction l2 as [|x l2 IH] using rev_ind; intros l1.
        - exists l1, row, []. auto.
        - destruct (decide (row_key x = key)) as [Ex|Ex].
          + exists (l1 ++ row :: l2), x, []. rewrite <- app_assoc. auto.
          + destruct (IH l1) as (b & r & a & E & Er & Ha).
            exists b, r, (a ++ [x]). split; [|split; [exact Er|]].
            * rewrite app_comm_cons, app_assoc, E, <- app_assoc. reflexivity.
            * apply Forall_app. split; [exact Ha|]. constructor; [exact Ex|constructor]. }
      destruct Hex as (b & r & a & E & Er & Ha). rewrite E in Hnone.
      rewrite <- Er in Hnone, Ha.
      rewrite (build_cn_lookup_last b a r g (cn_parse_range _) Ha) in Hnone.
      discriminate Hnone.
    + apply build_cn_lookup_absent.
  - intros v Hv. apply build_cn_lookup_present in Hv as (_ & Hex). exact Hex.
Qed.

(* ===================================================================== *)
(** ** Instances of the composite and record properties *)
(* ===================================================================== *)

Lemma example_lookup_range key w :
  example_lookup !! key = Some w -> 80 <= w <= 95.
Proof.
  destruct key as [k g]. unfold example_lookup. intros Hw.
  apply build_cn_lookup_present in Hw as (Hg & b & row & a & E & _ & -> & _).
  assert (Er : row = CN.mkLookupRow "res" 80 85 90 95).
  { destruct b as [|r0 b]; [injection E as <- _; reflexivity|].
    destruct b; discriminate E. }
  rewrite Er.
  repeat (apply elem_of_cons in Hg as [-> | Hg]);
    [replace (row_value _ "a") with 80 by reflexivity
    |replace (row_value _ "b") with 85 by reflexivity
    |replace (row_value _ "c") with 90 by reflexivity
    |replace (row_value _ "d") with 95 by reflexivity
    |apply elem_of_nil in Hg; contradiction];
    lra.
Qed.

Lemma example_areas_nonneg :
  Forall (fun f : Feature string => zone_attr f = "A" -> 0 <= geometry_area f)
    [fragment_a; fragment_b].
Proof.
  constructor; [intros _; unfold fragment_a; cbn [geometry_area]; lra|].
  constructor; [intros _; unfold fragment_b; cbn [geometry_area]; lra|].
  constructor.
Qed.

Lemma composite_within_table_range_witness :
  exists v, CN.cn_comp example_lookup [fragment_a; fragment_b] "A" = Some v /\
            80 <= v <= 95.
Proof.
  assert (E : CN.cn_comp example_lookup [fragment_a; fragment_b] "A" = Some 82.5)
    by (rewrite cn_comp_weighted_mean; exact example_weighted_mean).
  exists 82.5. split; [exact E|].
  apply (proj1 (composite_within_table_range example_lookup ∅ RationalC.Slope_0_2
                  80 95 [fragment_a; fragment_b] "A" example_areas_nonneg)
           82.5 example_lookup_range E).
Defined.

Lemma composite_invariant_under_area_scaling_witness :
  CN.cn_comp example_lookup (scale_area 43560 <$> [fragment_a; fragment_b]) "A"
    = CN.cn_comp example_lookup [fragment_a; fragment_b] "A".
Proof.
  apply (composite_invariant_under_area_scaling example_lookup ∅ RationalC.Slope_0_2
           43560 [fragment_a; fragment_b] "A").
  lra.
Defined.

Lemma composite_depends_only_on_own_zone_witness :
  CN.cn_comp example_lookup [fragment_a; mkFeature "B" "res" "C" 500; fragment_b] "A"
    = CN.cn_comp example_lookup [fragment_a; fragment_b] "A".
Proof.
  apply (composite_depends_only_on_own_zone example_lookup ∅ RationalC.Slope_0_2
           [fragment_a; mkFeature "B" "res" "C" 500; fragment_b]
           [fragment_a; fragment_b] "A").
  reflexivity.
Defined.

Lemma cn_details_reconcile_witness :
  is_Some ((CN.run_loop example_lookup [fragment_a; fragment_forest_x]).1 !! "A").
Proof.
  apply (cn_details_reconcile example_lookup [fragment_a; fragment_forest_x] "A").
  intros E.
  rewrite (proj1 (cn_run_records example_lookup [fragment_a; fragment_forest_x])) in E.
  discriminate E.
Defined.

Lemma csv_header_never_misses_witness :
  exists e written,
    (CN.run_loop example_lookup [fragment_a]).1 !! "A" = Some e /\
    CN.csv_cn_composite (CN.run_loop example_lookup [fragment_a]).1 "A"
      = Some written /\
    (forall v, CN.cn_comp example_lookup [fragment_a] "A" = Some v ->
       written = py_round v 2 /\ - 0.005 <= written - v <= 0.005) /\
    (CN.cn_comp example_lookup [fragment_a] "A" = None ->
       CN.total_area e <= 0 /\ written = 0).
Proof.
  apply (csv_header_never_misses example_lookup [fragment_a] "A").
  intros E. rewrite (proj1 (cn_run_records example_lookup [fragment_a])) in E.
  discriminate E.
Defined.

Lemma c_details_reconcile_witness :
  Forall (fun d => RationalC.d_soil_group_used d = "N/A" -> RationalC.d_c_value d = 0.95)
    (RationalC.run_loop ∅ RationalC.Slope_0_2 [fragment_water]).2.
Proof.
  apply (c_details_reconcile ∅ RationalC.Slope_0_2 [fragment_water] "A").
Defined.

Lemma cn_fragment_skipped_only_for_land_use_witness :
  CN.feature_cn example_lookup fragment_forest_x = None.
Proof.
  apply (proj1 (cn_fragment_skipped_only_for_land_use
                  [CN.mkLookupRow "res" 80 85 90 95] fragment_forest_x)).
  constructor; [discriminate|constructor].
Defined.
